(** * Intake transcript pipeline: extraction, matching, persistence, risk flags

    A shallow embedding of [intake/services/transcript_parser.py]
    ([TranscriptParserService]), of the [parse] and [ingest] actions of
    [intake/views.py] and of the case analysis of
    [intake/services/case_analyzer.py] with its two endpoints, with the
    Django storage layer written out as explicit tables.  Python exceptions
    are an outcome of every effectful step; the state a step has built up
    survives a raise, as the mutations of a Python program do. *)

From Stdlib Require Import String Ascii List ZArith Lia Bool Arith DecimalString.
Import ListNotations.
Local Open Scope string_scope.
Local Open Scope list_scope.
Local Open Scope nat_scope.

Set Implicit Arguments.

(** ** Python strings *)

Module Py.

(** [str.isspace] on the code points below 128. *)
Definition isspace (c : ascii) : bool :=
  let n := nat_of_ascii c in
  (((9 <=? n) && (n <=? 13)) || ((28 <=? n) && (n <=? 32)))%nat.

Definition isdigit (c : ascii) : bool :=
  let n := nat_of_ascii c in ((48 <=? n) && (n <=? 57))%nat.

Definition lower_char (c : ascii) : ascii :=
  let n := nat_of_ascii c in
  if ((65 <=? n) && (n <=? 90))%nat then ascii_of_nat (n + 32) else c.

(** [s.lower()] *)
Fixpoint lower (s : string) : string :=
  match s with
  | EmptyString => EmptyString
  | String c r => String (lower_char c) (lower r)
  end.

(** [s.lstrip()] *)
Fixpoint lstrip (s : string) : string :=
  match s with
  | EmptyString => EmptyString
  | String c r => if isspace c then lstrip r else s
  end.

(** [s.rstrip()] *)
Fixpoint rstrip (s : string) : string :=
  match s with
  | EmptyString => EmptyString
  | String c r =>
      match rstrip r with
      | EmptyString => if isspace c then EmptyString else String c EmptyString
      | r' => String c r'
      end
  end.

(** [s.strip()] *)
Definition strip (s : string) : string := rstrip (lstrip s).

(** [s[:n]] *)
Fixpoint slice_to (n : nat) (s : string) : string :=
  match n, s with
  | O, _ => EmptyString
  | _, EmptyString => EmptyString
  | S n', String c r => String c (slice_to n' r)
  end.

(** [s.startswith(p)] *)
Fixpoint startswith (p s : string) : bool :=
  match p, s with
  | EmptyString, _ => true
  | String a p', String b s' => Ascii.eqb a b && startswith p' s'
  | String _ _, EmptyString => false
  end.

(** [needle in hay] *)
Fixpoint contains (needle hay : string) : bool :=
  startswith needle hay ||
  match hay with
  | EmptyString => false
  | String _ r => contains needle r
  end.

(** [s.split(sep, 1)] for a one-character separator: the text before the
    first separator and the text after it, or the whole string alone. *)
Fixpoint split_once (sep : ascii) (s : string) : option (string * string) :=
  match s with
  | EmptyString => None
  | String c r =>
      if Ascii.eqb c sep then Some (EmptyString, r)
      else match split_once sep r with
           | Some (a, b) => Some (String c a, b)
           | None => None
           end
  end.

Definition split1 (sep : ascii) (s : string) : list string :=
  match split_once sep s with
  | Some (a, b) => [a; b]
  | None => [s]
  end.

(** [s.split(sep)] for a one-character separator. *)
Fixpoint split (sep : ascii) (s : string) : list string :=
  match s with
  | EmptyString => [EmptyString]
  | String c r =>
      if Ascii.eqb c sep then EmptyString :: split sep r
      else match split sep r with
           | p :: ps => String c p :: ps
           | [] => [String c EmptyString]
           end
  end.

(** [sep.join(parts)] *)
Fixpoint join (sep : string) (parts : list string) : string :=
  match parts with
  | [] => EmptyString
  | [p] => p
  | p :: ps => (p ++ sep ++ join sep ps)%string
  end.

(** [s.replace(",", "")]: every occurrence of one character removed. *)
Fixpoint remove_char (x : ascii) (s : string) : string :=
  match s with
  | EmptyString => EmptyString
  | String c r => if Ascii.eqb c x then remove_char x r else String c (remove_char x r)
  end.

(** [str(i)] for a list index. *)
Definition str_of_nat (n : nat) : string := NilZero.string_of_uint (Nat.to_uint n).

(** Truth value of a string: empty is false. *)
Definition truthy (s : string) : bool :=
  match s with EmptyString => false | _ => true end.

(** [any(kw in s for kw in kws)] *)
Definition any_in (kws : list string) (s : string) : bool :=
  existsb (fun kw => contains kw s) kws.

End Py.

(** ** JSON-shaped input *)

(** What a key of a decoded JSON object holds where the code expects text:
    nothing (the key is absent), [null], or a string. *)
Inductive jval : Type :=
  | Missing
  | Null
  | Str (s : string).

(** [d.get(key)]: an absent key and a null both read as [None]. *)
Definition jget (v : jval) : option string :=
  match v with Str s => Some s | _ => None end.

(** [str(d.get(key, default))] *)
Definition jstr (v : jval) (default : string) : string :=
  match v with Missing => default | Null => "None" | Str s => s end.

(** One transcript turn, [{speaker, text}]. *)
Record turn : Type := { speaker : jval; text : jval }.

(** The [turns] list as a Python object: [id(turns)] and its items. *)
Record turns_obj : Type := { obj_id : nat; items : list turn }.

(** One finding dict of the extraction envelope; its [field] is one of the
    prompt's fixed vocabulary and always present. *)
Record finding : Type := {
  finding_type : jval;
  field : string;
  value : jval;
  transcript_index : option Z;
  quote : jval;
  confidence : jval
}.

(** An element of the [findings] array. *)
Inductive item : Type :=
  | NotADict
  | Dict (f : finding).

(** The [findings] key of the decoded envelope: absent, present with a value
    that is not a list, or a list. *)
Inductive findings_key : Type :=
  | KeyAbsent
  | NotAList
  | AList (l : list item).

(** What [json.loads] makes of the response content: some JSON value that
    is not an object, or an object. *)
Inductive parsed : Type :=
  | NotAnObject
  | Object (findings : findings_key).

(** Outcome of [client.chat.completions.create] followed by [json.loads]. *)
Inductive llm_reply : Type :=
  | OpenAIError (exc : string)
  | NotJSON (raw_content : string)
  | JSON (p : parsed).

(** Calendar dates by their proleptic ordinal, so that
    [(a - b).days = toordinal a - toordinal b]. *)
Record date : Type := { toordinal : Z }.

Definition date_eqb (a b : date) : bool := (toordinal a =? toordinal b)%Z.

(** ** Storage: one table per Django model, rows in creation order *)

Module LawFirm.
Record t : Type := { id : nat; name : string }.
End LawFirm.

Module Client.
Record t : Type := {
  id : nat;
  law_firm : nat;
  first_name : string;
  last_name : string
}.
End Client.

Module Case.
Record t : Type := {
  id : nat;
  client : nat;
  case_number : nat;
  incident_type : string;
  incident_date : option date;
  incident_location : string
}.
End Case.

Module ClientCommunication.
Record t : Type := {
  id : nat;
  client : nat;
  case : option nat;
  channel : string;
  raw_transcript : turns_obj;
  parse_status : string
}.
End ClientCommunication.

Module OtherParty.
Record t : Type := {
  id : nat;
  case : nat;
  first_name : string;
  last_name : string;
  company_name : string;
  role : string
}.
End OtherParty.

Module MedicalFacility.
Record t : Type := { id : nat; name : string }.
End MedicalFacility.

Module MedicalProvider.
Record t : Type := {
  id : nat;
  facility : option nat;
  first_name : string;
  last_name : string;
  specialty : string
}.
End MedicalProvider.

Module Treatment.
Record t : Type := {
  id : nat;
  case : nat;
  provider : nat;
  treatment_type : string;
  diagnosis : string
}.
End Treatment.

Module Damage.
Record t : Type := {
  id : nat;
  case : nat;
  category : string;
  description : string;
  estimated_amount : option string
}.
End Damage.

(** [confidence_score] is one of 1.0, 0.7 and 0.4; it is kept in tenths. *)
Module ClientCommunicationCitation.
Record t : Type := {
  id : nat;
  communication : nat;
  citation_key : string;
  cited_text : string;
  turn_index : option Z;
  confidence_score : nat
}.
End ClientCommunicationCitation.

Module CitationReference.
Record t : Type := {
  id : nat;
  citation : nat;
  content_type : string;
  object_id : nat;
  relationship_label : string
}.

Definition ALLOWED_CONTENT_TYPES : list string :=
  ["client"; "otherparty"; "medicalprovider"; "insuranceprovider"].
End CitationReference.

(** The tables, under the names Django gives them (app label [intake]),
    each with its rows in creation order.  [next_uuid] stands for [uuid4()]:
    every new row takes the next one. *)
Record database : Type := {
  next_uuid : nat;
  intake_lawfirm : list LawFirm.t;
  intake_client : list Client.t;
  intake_case : list Case.t;
  intake_clientcommunication : list ClientCommunication.t;
  intake_otherparty : list OtherParty.t;
  intake_medicalfacility : list MedicalFacility.t;
  intake_medicalprovider : list MedicalProvider.t;
  intake_treatment : list Treatment.t;
  intake_damage : list Damage.t;
  intake_clientcommunicationcitation : list ClientCommunicationCitation.t;
  intake_citationreference : list CitationReference.t
}.

Definition empty_database : database :=
  {|
    next_uuid := 1;
    intake_lawfirm := [];
    intake_client := [];
    intake_case := [];
    intake_clientcommunication := [];
    intake_otherparty := [];
    intake_medicalfacility := [];
    intake_medicalprovider := [];
    intake_treatment := [];
    intake_damage := [];
    intake_clientcommunicationcitation := [];
    intake_citationreference := []
  |}.

(** ** Exceptions, log, state *)

(** The exceptions that occur; the messages of the [RuntimeError]s are the
    source's, without the interpolated cause. *)
Inductive exn : Type :=
  | RuntimeError (msg : string)
  | AttributeError (msg : string)
  | DoesNotExist (model : string)
  | MultipleObjectsReturned (model : string)
  | DatabaseError (msg : string).

Inductive outcome (A : Type) : Type :=
  | Return (a : A)
  | Raise (e : exn).
Arguments Return {A} a.
Arguments Raise {A} e.

Inductive level : Type := INFO | WARNING | ERROR.

(** The cache slot of the service instance,
    [{"turns_id": id(turns), "data": valid}]. *)
Record cache_entry : Type := { turns_id : nat; data : list finding }.

(** Everything a request can change: the service instance's cache, the
    tables, the prompts sent to the model so far, the log, and the counter
    from which a new Python object takes its [id]. *)
Record state : Type := {
  _findings_cache : option cache_entry;
  db : database;
  llm_calls : list string;
  log : list (level * string);
  next_obj_id : nat
}.

(** What the code reads but does not own: the settings, the model behind the
    API (its reply may depend on how many calls came before), the clock,
    [date.fromisoformat], and which citation writes the storage refuses. *)
Record environment : Type := {
  OPENAPI_KEY : option string;
  llm : nat -> string -> llm_reply;
  today : date;
  fromisoformat : string -> option date;
  citation_write_fails : ClientCommunicationCitation.t -> bool;
  reference_write_fails : CitationReference.t -> bool
}.

(** A step of the program: from a state to a state and a result or a raised
    exception. *)
Definition M (A : Type) : Type := state -> state * outcome A.

Definition ret {A} (a : A) : M A := fun st => (st, Return a).

Definition raise {A} (e : exn) : M A := fun st => (st, Raise e).

Definition bind {A B} (m : M A) (k : A -> M B) : M B :=
  fun st =>
    match m st with
    | (st', Return a) => k a st'
    | (st', Raise e) => (st', Raise e)
    end.

Declare Scope py_scope.
Delimit Scope py_scope with py.
Notation "x <- m ;; k" := (bind m (fun x => k))
  (at level 61, m at next level, right associativity) : py_scope.
Notation "m ;; k" := (bind m (fun _ => k))
  (at level 61, right associativity) : py_scope.
Notation "' p <- m ;; k" := (bind m (fun x => match x with p => k end))
  (at level 61, p pattern, m at next level, right associativity) : py_scope.
Local Open Scope py_scope.

Definition get_state : M state := fun st => (st, Return st).

Definition get_db : M database := fun st => (st, Return (db st)).

Definition put_db (d : database) : M unit := fun st =>
  ({| _findings_cache := _findings_cache st; db := d; llm_calls := llm_calls st;
      log := log st; next_obj_id := next_obj_id st |}, Return tt).

Definition put_cache (c : option cache_entry) : M unit := fun st =>
  ({| _findings_cache := c; db := db st; llm_calls := llm_calls st;
      log := log st; next_obj_id := next_obj_id st |}, Return tt).

Definition record_llm_call (prompt : string) : M unit := fun st =>
  ({| _findings_cache := _findings_cache st; db := db st;
      llm_calls := (llm_calls st ++ [prompt])%list;
      log := log st; next_obj_id := next_obj_id st |}, Return tt).

(** [logger.info], [logger.warning], [logger.error]; the message is the
    format string, its arguments are not kept. *)
Definition logger (l : level) (msg : string) : M unit := fun st =>
  ({| _findings_cache := _findings_cache st; db := db st; llm_calls := llm_calls st;
      log := (log st ++ [(l, msg)])%list; next_obj_id := next_obj_id st |}, Return tt).

(** A new list object: [[]]. *)
Definition new_list : M turns_obj := fun st =>
  ({| _findings_cache := _findings_cache st; db := db st; llm_calls := llm_calls st;
      log := log st; next_obj_id := S (next_obj_id st) |},
   Return {| obj_id := next_obj_id st; items := [] |}).

(** [try: body except Exception as exc: handler(exc)] *)
Definition try_except {A} (body : M A) (handler : exn -> M A) : M A :=
  fun st =>
    match body st with
    | (st', Return a) => (st', Return a)
    | (st', Raise e) => handler e st'
    end.

(** [TranscriptParserService()]: a new instance has no cache attribute. *)
Definition new_service : M unit := put_cache None.

(** ** Storage operations *)

Definition set_next_uuid (d : database) (n : nat) : database :=
  {|
    next_uuid := n;
    intake_lawfirm := intake_lawfirm d;
    intake_client := intake_client d;
    intake_case := intake_case d;
    intake_clientcommunication := intake_clientcommunication d;
    intake_otherparty := intake_otherparty d;
    intake_medicalfacility := intake_medicalfacility d;
    intake_medicalprovider := intake_medicalprovider d;
    intake_treatment := intake_treatment d;
    intake_damage := intake_damage d;
    intake_clientcommunicationcitation := intake_clientcommunicationcitation d;
    intake_citationreference := intake_citationreference d
  |}.

Definition set_intake_lawfirm (d : database) (l : list LawFirm.t) : database :=
  {|
    next_uuid := next_uuid d;
    intake_lawfirm := l;
    intake_client := intake_client d;
    intake_case := intake_case d;
    intake_clientcommunication := intake_clientcommunication d;
    intake_otherparty := intake_otherparty d;
    intake_medicalfacility := intake_medicalfacility d;
    intake_medicalprovider := intake_medicalprovider d;
    intake_treatment := intake_treatment d;
    intake_damage := intake_damage d;
    intake_clientcommunicationcitation := intake_clientcommunicationcitation d;
    intake_citationreference := intake_citationreference d
  |}.

Definition set_intake_client (d : database) (l : list Client.t) : database :=
  {|
    next_uuid := next_uuid d;
    intake_lawfirm := intake_lawfirm d;
    intake_client := l;
    intake_case := intake_case d;
    intake_clientcommunication := intake_clientcommunication d;
    intake_otherparty := intake_otherparty d;
    intake_medicalfacility := intake_medicalfacility d;
    intake_medicalprovider := intake_medicalprovider d;
    intake_treatment := intake_treatment d;
    intake_damage := intake_damage d;
    intake_clientcommunicationcitation := intake_clientcommunicationcitation d;
    intake_citationreference := intake_citationreference d
  |}.

Definition set_intake_case (d : database) (l : list Case.t) : database :=
  {|
    next_uuid := next_uuid d;
    intake_lawfirm := intake_lawfirm d;
    intake_client := intake_client d;
    intake_case := l;
    intake_clientcommunication := intake_clientcommunication d;
    intake_otherparty := intake_otherparty d;
    intake_medicalfacility := intake_medicalfacility d;
    intake_medicalprovider := intake_medicalprovider d;
    intake_treatment := intake_treatment d;
    intake_damage := intake_damage d;
    intake_clientcommunicationcitation := intake_clientcommunicationcitation d;
    intake_citationreference := intake_citationreference d
  |}.

Definition set_intake_clientcommunication (d : database)
    (l : list ClientCommunication.t) : database :=
  {|
    next_uuid := next_uuid d;
    intake_lawfirm := intake_lawfirm d;
    intake_client := intake_client d;
    intake_case := intake_case d;
    intake_clientcommunication := l;
    intake_otherparty := intake_otherparty d;
    intake_medicalfacility := intake_medicalfacility d;
    intake_medicalprovider := intake_medicalprovider d;
    intake_treatment := intake_treatment d;
    intake_damage := intake_damage d;
    intake_clientcommunicationcitation := intake_clientcommunicationcitation d;
    intake_citationreference := intake_citationreference d
  |}.

Definition set_intake_otherparty (d : database) (l : list OtherParty.t) : database :=
  {|
    next_uuid := next_uuid d;
    intake_lawfirm := intake_lawfirm d;
    intake_client := intake_client d;
    intake_case := intake_case d;
    intake_clientcommunication := intake_clientcommunication d;
    intake_otherparty := l;
    intake_medicalfacility := intake_medicalfacility d;
    intake_medicalprovider := intake_medicalprovider d;
    intake_treatment := intake_treatment d;
    intake_damage := intake_damage d;
    intake_clientcommunicationcitation := intake_clientcommunicationcitation d;
    intake_citationreference := intake_citationreference d
  |}.

Definition set_intake_medicalfacility (d : database) (l : list MedicalFacility.t) : database :=
  {|
    next_uuid := next_uuid d;
    intake_lawfirm := intake_lawfirm d;
    intake_client := intake_client d;
    intake_case := intake_case d;
    intake_clientcommunication := intake_clientcommunication d;
    intake_otherparty := intake_otherparty d;
    intake_medicalfacility := l;
    intake_medicalprovider := intake_medicalprovider d;
    intake_treatment := intake_treatment d;
    intake_damage := intake_damage d;
    intake_clientcommunicationcitation := intake_clientcommunicationcitation d;
    intake_citationreference := intake_citationreference d
  |}.

Definition set_intake_medicalprovider (d : database) (l : list MedicalProvider.t) : database :=
  {|
    next_uuid := next_uuid d;
    intake_lawfirm := intake_lawfirm d;
    intake_client := intake_client d;
    intake_case := intake_case d;
    intake_clientcommunication := intake_clientcommunication d;
    intake_otherparty := intake_otherparty d;
    intake_medicalfacility := intake_medicalfacility d;
    intake_medicalprovider := l;
    intake_treatment := intake_treatment d;
    intake_damage := intake_damage d;
    intake_clientcommunicationcitation := intake_clientcommunicationcitation d;
    intake_citationreference := intake_citationreference d
  |}.

Definition set_intake_treatment (d : database) (l : list Treatment.t) : database :=
  {|
    next_uuid := next_uuid d;
    intake_lawfirm := intake_lawfirm d;
    intake_client := intake_client d;
    intake_case := intake_case d;
    intake_clientcommunication := intake_clientcommunication d;
    intake_otherparty := intake_otherparty d;
    intake_medicalfacility := intake_medicalfacility d;
    intake_medicalprovider := intake_medicalprovider d;
    intake_treatment := l;
    intake_damage := intake_damage d;
    intake_clientcommunicationcitation := intake_clientcommunicationcitation d;
    intake_citationreference := intake_citationreference d
  |}.

Definition set_intake_damage (d : database) (l : list Damage.t) : database :=
  {|
    next_uuid := next_uuid d;
    intake_lawfirm := intake_lawfirm d;
    intake_client := intake_client d;
    intake_case := intake_case d;
    intake_clientcommunication := intake_clientcommunication d;
    intake_otherparty := intake_otherparty d;
    intake_medicalfacility := intake_medicalfacility d;
    intake_medicalprovider := intake_medicalprovider d;
    intake_treatment := intake_treatment d;
    intake_damage := l;
    intake_clientcommunicationcitation := intake_clientcommunicationcitation d;
    intake_citationreference := intake_citationreference d
  |}.

Definition set_intake_clientcommunicationcitation (d : database)
    (l : list ClientCommunicationCitation.t) : database :=
  {|
    next_uuid := next_uuid d;
    intake_lawfirm := intake_lawfirm d;
    intake_client := intake_client d;
    intake_case := intake_case d;
    intake_clientcommunication := intake_clientcommunication d;
    intake_otherparty := intake_otherparty d;
    intake_medicalfacility := intake_medicalfacility d;
    intake_medicalprovider := intake_medicalprovider d;
    intake_treatment := intake_treatment d;
    intake_damage := intake_damage d;
    intake_clientcommunicationcitation := l;
    intake_citationreference := intake_citationreference d
  |}.

Definition set_intake_citationreference (d : database)
    (l : list CitationReference.t) : database :=
  {|
    next_uuid := next_uuid d;
    intake_lawfirm := intake_lawfirm d;
    intake_client := intake_client d;
    intake_case := intake_case d;
    intake_clientcommunication := intake_clientcommunication d;
    intake_otherparty := intake_otherparty d;
    intake_medicalfacility := intake_medicalfacility d;
    intake_medicalprovider := intake_medicalprovider d;
    intake_treatment := intake_treatment d;
    intake_damage := intake_damage d;
    intake_clientcommunicationcitation := intake_clientcommunicationcitation d;
    intake_citationreference := l
  |}.

(** [uuid4()] *)
Definition uuid4 : M nat :=
  d <- get_db ;;
  put_db (set_next_uuid d (S (next_uuid d))) ;;
  ret (next_uuid d).

(** [Model.objects.create(...)]: the row, built from its new primary key, is
    appended to its table. *)
Definition objects_create {R : Type} (table : database -> list R)
    (set_table : database -> list R -> database) (row : nat -> R) : M R :=
  pk <- uuid4 ;;
  d <- get_db ;;
  put_db (set_table d (table d ++ [row pk])%list) ;;
  ret (row pk).

(** [Model.objects.get(...)] *)
Definition objects_get {R : Type} (model : string) (table : database -> list R)
    (lookup : R -> bool) : M R :=
  d <- get_db ;;
  match filter lookup (table d) with
  | [] => raise (DoesNotExist model)
  | [r] => ret r
  | _ :: _ :: _ => raise (MultipleObjectsReturned model)
  end.

(** [Model.objects.get_or_create(..., defaults=...)]: the one row that meets
    the lookup, or a new row; several rows meeting it is an error. *)
Definition objects_get_or_create {R : Type} (model : string)
    (table : database -> list R) (set_table : database -> list R -> database)
    (lookup : R -> bool) (row : nat -> R) : M (R * bool) :=
  d <- get_db ;;
  match filter lookup (table d) with
  | [] => r <- objects_create table set_table row ;; ret (r, true)
  | [r] => ret (r, false)
  | _ :: _ :: _ => raise (MultipleObjectsReturned model)
  end.

(** [instance.save(update_fields=[...])]: in the row with the instance's
    primary key, the named fields take the instance's values. *)
Definition updates (update_fields : list string) (name : string) : bool :=
  existsb (String.eqb name) update_fields.

Definition save_case (c : Case.t) (update_fields : list string) : M unit :=
  d <- get_db ;;
  put_db (set_intake_case d
    (map (fun r =>
            if Case.id r =? Case.id c then
              {| Case.id := Case.id r;
                 Case.client := Case.client r;
                 Case.case_number := Case.case_number r;
                 Case.incident_type :=
                   if updates update_fields "incident_type"
                   then Case.incident_type c else Case.incident_type r;
                 Case.incident_date :=
                   if updates update_fields "incident_date"
                   then Case.incident_date c else Case.incident_date r;
                 Case.incident_location := Case.incident_location r |}
            else r)
         (intake_case d))).

Definition save_communication (c : ClientCommunication.t) (update_fields : list string)
    : M unit :=
  d <- get_db ;;
  put_db (set_intake_clientcommunication d
    (map (fun r =>
            if ClientCommunication.id r =? ClientCommunication.id c then
              {| ClientCommunication.id := ClientCommunication.id r;
                 ClientCommunication.client := ClientCommunication.client r;
                 ClientCommunication.case := ClientCommunication.case r;
                 ClientCommunication.channel := ClientCommunication.channel r;
                 ClientCommunication.raw_transcript := ClientCommunication.raw_transcript r;
                 ClientCommunication.parse_status :=
                   if updates update_fields "parse_status"
                   then ClientCommunication.parse_status c
                   else ClientCommunication.parse_status r |}
            else r)
         (intake_clientcommunication d))).

(** [for x in xs: body(x)] *)
Fixpoint for_each {A : Type} (xs : list A) (body : A -> M unit) : M unit :=
  match xs with
  | [] => ret tt
  | x :: rest => body x ;; for_each rest body
  end.

(** ** The extraction result and its entity dicts *)

(** The private [_cited_text], [_turn_index], [_confidence] keys. *)
Record citation_meta : Type := {
  _cited_text : string;
  _turn_index : option Z;
  _confidence : option string
}.

Record party_dict : Type := {
  party_first_name : string;
  party_last_name : string;
  party_company_name : string;
  party_role : string;
  party_citation : citation_meta
}.

Record medical_dict : Type := {
  med_first_name : string;
  med_last_name : string;
  med_facility_name : string;
  med_specialty : string;
  med_treatment_type : string;
  med_diagnosis : string;
  med_citation : citation_meta
}.

Record insurance_dict : Type := {
  ins_company_name : string;
  ins_policy_number : string;
  ins_claim_number : string;
  ins_coverage_type : string;
  ins_adjuster_name : string
}.

(** [estimated_amount] is the decimal numeral [float] was given. *)
Record damage_dict : Type := {
  dmg_category : string;
  dmg_description : string;
  dmg_estimated_amount : option string;
  dmg_citation : citation_meta
}.

Record IntakeExtractionResult : Type := {
  incident_date : option date;
  incident_type : option string;
  incident_location : option string;
  injuries : list string;
  medical_providers : list medical_dict;
  insurance_carriers : list insurance_dict;
  other_parties : list party_dict;
  damages : list damage_dict;
  confidence_scores : list (string * nat);
  raw_flags : list string
}.

(** The dict [_extract_incident_info] returns. *)
Record incident_info_dict : Type := {
  info_incident_date : option date;
  info_incident_type : option string;
  info_incident_location : option string;
  info_injuries : list string;
  info_confidence_scores : list (string * nat)
}.

(** ** TranscriptParserService *)

Section Service.

Variable env : environment.

Definition _INCIDENT_TYPE_MAP : list (string * string) :=
  [("auto_accident", "auto"); ("auto accident", "auto");
   ("slip_fall", "slip_fall"); ("slip and fall", "slip_fall");
   ("medical_malpractice", "medical_malpractice");
   ("medical malpractice", "medical_malpractice");
   ("workers_comp", "workplace"); ("workers compensation", "workplace");
   ("workplace", "workplace");
   ("product_liability", "product_liability");
   ("product liability", "product_liability");
   ("wrongful_death", "other"); ("wrongful death", "other");
   ("other", "other")].

Definition _FACILITY_KEYWORDS : list string :=
  ["hospital"; "clinic"; "center"; "centre"; "medical"; "health"; "urgent care";
   "orthopedic"; "chiropractic"; "chiropractor"; "rehab"; "rehabilitation";
   "imaging"; "radiology"; "pharmacy"; "er "; "emergency room"].

Definition _COMPANY_KEYWORDS : list string :=
  ["inc"; "llc"; "corp"; "co."; "company"; "ltd"; "group"; "trucking";
   "transport"; "logistics"; "construction"; "properties"; "management"].

(** [d.get(key)] on a dict kept as its bindings: the first binding of a
    key counts. *)
Fixpoint dict_get {V : Type} (d : list (string * V)) (key : string) : option V :=
  match d with
  | [] => None
  | (k, v) :: rest => if String.eqb k key then Some v else dict_get rest key
  end.

(** The transcript as index-prefixed lines, [[i] speaker: text]. *)
Fixpoint render_lines (i : nat) (turns : list turn) : list string :=
  match turns with
  | [] => []
  | t :: rest =>
      ("[" ++ Py.str_of_nat i ++ "] " ++ jstr (speaker t) "Unknown" ++ ": "
           ++ jstr (text t) "")%string
      :: render_lines (S i) rest
  end.

Definition transcript_text (turns : list turn) : string :=
  Py.join (String (ascii_of_nat 10) EmptyString) (render_lines 0 turns).

Definition user_content (turns : list turn) : string :=
  ("Extract all findings from this personal injury intake call transcript:"
   ++ String (ascii_of_nat 10) (String (ascii_of_nat 10) EmptyString)
   ++ transcript_text turns)%string.

(** [isinstance(f, dict) and f.get("value") is not None] *)
Definition is_valid (i : item) : option finding :=
  match i with
  | Dict f => match value f with Str _ => Some f | _ => None end
  | NotADict => None
  end.

Fixpoint valid_findings (l : list item) : list finding :=
  match l with
  | [] => []
  | i :: rest =>
      match is_valid i with
      | Some f => f :: valid_findings rest
      | None => valid_findings rest
      end
  end.

Definition set_cache (turns : turns_obj) (found : list finding) : M unit :=
  put_cache (Some {| turns_id := obj_id turns; data := found |}).

(** The cached findings, when the cache was filled for this very object. *)
Definition cache_lookup (st : state) (turns : turns_obj) : option (list finding) :=
  match _findings_cache st with
  | Some cache => if turns_id cache =? obj_id turns then Some (data cache) else None
  | None => None
  end.

(** [client.chat.completions.create(...)] and [json.loads] on its content:
    the request is recorded, the reply is the model's. *)
Definition chat_completions_create (content : string) : M llm_reply :=
  st <- get_state ;;
  record_llm_call content ;;
  ret (llm env (length (llm_calls st)) content).

Definition _call_llm (turns : turns_obj) : M (list finding) :=
  st <- get_state ;;
  match cache_lookup st turns with
  | Some cached => ret cached
  | None =>
      match items turns with
      | [] => set_cache turns [] ;; ret []
      | _ :: _ =>
          match OPENAPI_KEY env with
          | None | Some EmptyString => raise (RuntimeError "OPENAPI_KEY is not set.")
          | Some _ =>
              reply <- chat_completions_create (user_content (items turns)) ;;
              parsed <- match reply with
                        | OpenAIError exc =>
                            logger ERROR "OpenAI API call failed" ;;
                            raise (RuntimeError ("LLM extraction failed: " ++ exc))
                        | NotJSON raw =>
                            logger ERROR "could not parse LLM response as JSON" ;;
                            raise (RuntimeError "LLM returned non-JSON response")
                        | JSON p => ret p
                        end ;;
              (* findings = parsed.get("findings", []) *)
              findings <- match parsed with
                          | NotAnObject => raise (AttributeError "get")
                          | Object KeyAbsent => ret []
                          | Object NotAList =>
                              logger ERROR "'findings' key missing or not a list" ;;
                              raise (RuntimeError "LLM response missing 'findings' list.")
                          | Object (AList l) => ret l
                          end ;;
              set_cache turns (valid_findings findings) ;;
              ret (valid_findings findings)
          end
      end
  end.

(** [{f["field"]: f for f in findings if f.get("finding_type") == "metadata"}]:
    a later finding replaces an earlier one of the same field. *)
Definition is_metadata (f : finding) : bool :=
  match finding_type f with Str t => String.eqb t "metadata" | _ => false end.

Definition is_individual (f : finding) : bool :=
  match finding_type f with Str t => String.eqb t "individual" | _ => false end.

Definition meta_index (findings : list finding) : list (string * finding) :=
  (* latest binding first, so that it is the one [dict_get] finds *)
  rev (map (fun f => (field f, f)) (filter is_metadata findings)).

(** [meta.get(key, {}).get("value")] *)
Definition meta_value (meta : list (string * finding)) (key : string) : option string :=
  match dict_get meta key with
  | Some f => jget (value f)
  | None => None
  end.

(** A value used as a condition: [None] and the empty string are false. *)
Definition if_set (v : option string) : option string :=
  match v with
  | Some s => if Py.truthy s then Some s else None
  | None => None
  end.

Definition _extract_incident_info (turns : turns_obj) : M incident_info_dict :=
  findings <- _call_llm turns ;;
  let meta := meta_index findings in
  incident_date <-
    match if_set (meta_value meta "accident_date") with
    | Some raw_date =>
        match fromisoformat env raw_date with
        | Some d => ret (Some d)
        | None => logger WARNING "could not parse accident_date" ;; ret None
        end
    | None => ret None
    end ;;
  let incident_type :=
    match if_set (meta_value meta "case_type") with
    | Some raw_case_type =>
        match dict_get _INCIDENT_TYPE_MAP (Py.strip (Py.lower raw_case_type)) with
        | Some t => Some t
        | None => Some "other"
        end
    | None => None
    end in
  let injuries :=
    match if_set (meta_value meta "injuries") with
    | Some raw_injuries =>
        filter Py.truthy (map Py.strip (Py.split "," raw_injuries))
    | None => []
    end in
  ret {| info_incident_date := incident_date;
         info_incident_type := incident_type;
         info_incident_location := meta_value meta "incident_location";
         info_injuries := injuries;
         info_confidence_scores := [] |}.

(** [f.get("confidence", "high")]; a null stays [None]. *)
Definition confidence_or_high (f : finding) : option string :=
  match confidence f with
  | Missing => Some "high"
  | Null => None
  | Str c => Some c
  end.

(** The [citation] dict of a finding whose stripped value is [v]. *)
Definition citation_of (f : finding) (v : string) : citation_meta :=
  {| _cited_text := match if_set (jget (quote f)) with Some q => q | None => v end;
     _turn_index := transcript_index f;
     _confidence := confidence_or_high f |}.

(** [parts = name.split(" ", 1)], then
    [parts[0] if len(parts) == 2 else ""] and
    [parts[1] if len(parts) == 2 else parts[0]]. *)
Definition first_last (name : string) : string * string :=
  match Py.split1 " " name with
  | [a; b] => (a, b)
  | a :: _ => ("", a)
  | [] => ("", "")
  end.

(** The findings of one family, with their stripped, non-empty values. *)
Definition family (fld : string) (findings : list finding) : list (finding * string) :=
  flat_map (fun f =>
    if is_individual f && String.eqb (field f) fld then
      let v := Py.strip (jstr (value f) "") in
      if Py.truthy v then [(f, v)] else []
    else []) findings.

Definition _extract_parties (turns : turns_obj) : M (list party_dict) :=
  findings <- _call_llm turns ;;
  ret (map (fun fv : finding * string =>
    let (f, v) := fv in
    if Py.any_in _COMPANY_KEYWORDS (Py.lower v) then
      {| party_first_name := ""; party_last_name := ""; party_company_name := v;
         party_role := "at-fault party"; party_citation := citation_of f v |}
    else
      {| party_first_name := fst (first_last v); party_last_name := snd (first_last v);
         party_company_name := ""; party_role := "at-fault party";
         party_citation := citation_of f v |})
    (family "other_party" findings)).

(** [re.sub(r"^(Dr\.?\s+|Doctor\s+)", "", value, flags=re.IGNORECASE)] *)
Definition after_prefix_ci (p s : string) : option string :=
  if Py.startswith p (Py.lower (Py.slice_to (String.length p) s))
  then Some (String.substring (String.length p) (String.length s) s)
  else None.

Definition after_spaces (s : string) : option string :=
  match s with
  | String c r => if Py.isspace c then Some (Py.lstrip r) else None
  | EmptyString => None
  end.

Definition sub_honorific (v : string) : string :=
  let dr :=
    match after_prefix_ci "dr" v with
    | Some (String "." r) => after_spaces r
    | Some r => after_spaces r
    | None => None
    end in
  match dr with
  | Some rest => rest
  | None =>
      match after_prefix_ci "doctor" v with
      | Some r => match after_spaces r with Some rest => rest | None => v end
      | None => v
      end
  end.

Definition _extract_medical (turns : turns_obj) : M (list medical_dict) :=
  findings <- _call_llm turns ;;
  ret (map (fun fv : finding * string =>
    let (f, v) := fv in
    if Py.any_in _FACILITY_KEYWORDS (Py.lower v) then
      {| med_first_name := ""; med_last_name := ""; med_facility_name := v;
         med_specialty := ""; med_treatment_type := ""; med_diagnosis := "";
         med_citation := citation_of f v |}
    else
      let name := Py.strip (sub_honorific v) in
      {| med_first_name := fst (first_last name); med_last_name := snd (first_last name);
         med_facility_name := ""; med_specialty := ""; med_treatment_type := "";
         med_diagnosis := ""; med_citation := citation_of f v |})
    (family "medical_provider" findings)).

Definition _extract_insurance (turns : turns_obj) : M (list insurance_dict) :=
  findings <- _call_llm turns ;;
  ret (map (fun fv : finding * string =>
    {| ins_company_name := snd fv; ins_policy_number := ""; ins_claim_number := "";
       ins_coverage_type := "liability"; ins_adjuster_name := "" |})
    (family "insurance_provider" findings)).

(** [re.search(r"\$?([\d,]+(?:\.\d+)?)", value)], group 1: the leftmost run
    of digits and commas, with a fraction when a dot and digits follow. *)
Definition digit_or_comma (c : ascii) : bool := Py.isdigit c || Ascii.eqb c ",".

Fixpoint take_while (p : ascii -> bool) (s : string) : string :=
  match s with
  | EmptyString => EmptyString
  | String c r => if p c then String c (take_while p r) else EmptyString
  end.

Fixpoint drop_while (p : ascii -> bool) (s : string) : string :=
  match s with
  | EmptyString => EmptyString
  | String c r => if p c then drop_while p r else s
  end.

Definition amount_match (v : string) : option string :=
  match drop_while (fun c => negb (digit_or_comma c)) v with
  | EmptyString => None
  | s =>
      let whole := take_while digit_or_comma s in
      match drop_while digit_or_comma s with
      | String "." r =>
          match take_while Py.isdigit r with
          | EmptyString => Some whole
          | frac => Some (whole ++ "." ++ frac)%string
          end
      | _ => Some whole
      end
  end.

(** [float(amount_match.group(1).replace(",", ""))]; only the empty numeral
    is a [ValueError]. *)
Definition estimated_amount_of (v : string) : option string :=
  match amount_match v with
  | Some g => if_set (Some (Py.remove_char "," g))
  | None => None
  end.

Definition category_of (value_lower : string) : string :=
  if Py.any_in ["wage"; "lost income"; "lost earnings"] value_lower then "lost_wages"
  else if Py.contains "future" value_lower && Py.contains "medical" value_lower
  then "future_medical"
  else if Py.any_in ["medical"; "hospital"; "doctor"; "bill"; "treatment"] value_lower
  then "medical"
  else if Py.any_in ["property"; "vehicle"; "car"; "truck"; "repair"] value_lower
  then "property"
  else "other".

Definition _extract_damages (turns : turns_obj) : M (list damage_dict) :=
  findings <- _call_llm turns ;;
  ret (map (fun fv : finding * string =>
    let (f, v) := fv in
    {| dmg_category := category_of (Py.lower v);
       dmg_description := v;
       dmg_estimated_amount := estimated_amount_of v;
       dmg_citation := citation_of f v |})
    (family "financial_expense" findings)).

(** [_flag_risks]: lines 917-956.  It reads the cache of the instance. *)
Definition _flag_risks (st : state) (result : IntakeExtractionResult) : list string :=
  let sol :=
    match incident_date result with
    | Some d =>
        let days_since := (toordinal (today env) - toordinal d)%Z in
        if (600 <? days_since)%Z then ["statute_of_limitations_risk"] else []
    | None => []
    end in
  let uninsured :=
    match incident_type result, insurance_carriers result with
    | Some t, [] => if String.eqb t "auto" then ["uninsured_motorist"] else []
    | _, _ => []
    end in
  let multiple :=
    if 1 <? length (other_parties result) then ["multiple_defendants"] else [] in
  let findings :=
    match _findings_cache st with Some cached => data cached | None => [] end in
  let all_text :=
    Py.lower (Py.join " " (map (fun f => jstr (value f) "") findings)) in
  let pre_existing :=
    if Py.any_in ["pre-existing"; "prior injury"; "previous condition"; "prior condition"]
         all_text
    then ["pre_existing_condition"] else [] in
  let disputed :=
    if Py.any_in ["disputed"; "dispute"; "denied liability"; "deny liability"; "not at fault"]
         all_text
    then ["liability_disputed"] else [] in
  sol ++ uninsured ++ multiple ++ pre_existing ++ disputed.

(** *** Case/client matcher: lines 358-423 *)

(** [field__iexact=value] *)
Definition iexact (stored supplied : string) : bool :=
  String.eqb (Py.lower stored) (Py.lower supplied).

(** [field__icontains=value] *)
Definition icontains (stored supplied : string) : bool :=
  Py.contains (Py.lower supplied) (Py.lower stored).

(** [Client.objects.filter(law_firm=..., first_name__iexact=...,
    last_name__iexact=...)] *)
Definition client_qs (d : database) (law_firm : LawFirm.t)
    (first_name last_name : string) : list Client.t :=
  filter (fun c => (Client.law_firm c =? LawFirm.id law_firm)
                   && iexact (Client.first_name c) first_name
                   && iexact (Client.last_name c) last_name)
         (intake_client d).

(** [qs.order_by("-created_at").first()]: the row created last. *)
Definition most_recent {R : Type} (qs : list R) : option R := hd_error (rev qs).

(** [client.case_set.all()], in the model's ordering [-created_at]. *)
Definition case_set (d : database) (client : Client.t) : list Case.t :=
  rev (filter (fun c => Case.client c =? Client.id client) (intake_case d)).

Definition has_date (incident_date : date) (c : Case.t) : bool :=
  match Case.incident_date c with
  | Some d => date_eqb d incident_date
  | None => false
  end.

(** [incident_location[:40].strip()] *)
Definition location_anchor (incident_location : string) : string :=
  Py.strip (Py.slice_to 40 incident_location).

(** [filter(incident_type=incident_type,
    incident_location__icontains=location_anchor)] *)
Definition type_loc (incident_type anchor : string) (c : Case.t) : bool :=
  String.eqb (Case.incident_type c) incident_type
  && icontains (Case.incident_location c) anchor.

Definition _find_existing_case (law_firm : LawFirm.t) (first_name last_name : string)
    (incident_type : option string) (incident_date : option date)
    (incident_location : option string) : M (option (Client.t * Case.t)) :=
  d <- get_db ;;
  match most_recent (client_qs d law_firm first_name last_name) with
  | None => ret None
  | Some client =>
      let case_qs := case_set d client in
      match case_qs with
      | [] => ret None
      | _ :: _ =>
          let date_match :=
            match incident_date with
            | Some day => hd_error (filter (has_date day) case_qs)
            | None => None
            end in
          match date_match with
          | Some c =>
              logger INFO "ingest: matched existing case via client+date" ;;
              ret (Some (client, c))
          | None =>
              match if_set incident_type, if_set incident_location with
              | Some ty, Some loc =>
                  match hd_error (filter (type_loc ty (location_anchor loc)) case_qs) with
                  | Some c =>
                      logger INFO "ingest: matched existing case via client+type+location" ;;
                      ret (Some (client, c))
                  | None => ret None
                  end
              | _, _ => ret None
              end
          end
      end
  end.

(** *** Citations *)

Definition _CONF : list (string * nat) := [("high", 10); ("medium", 7); ("low", 4)].

(** [_CONF.get(str(confidence).lower(), 1.0)] *)
Definition confidence_score_of (c : option string) : nat :=
  let key := Py.lower (match c with Some s => s | None => "None" end) in
  match dict_get _CONF key with Some v => v | None => 10 end.

(** The object a citation may point to, with what
    [ContentType.objects.get_for_model(obj).model] and [obj.pk] give. *)
Inductive model_obj : Type :=
  | AClient (c : Client.t)
  | AnOtherParty (p : OtherParty.t)
  | AMedicalProvider (p : MedicalProvider.t)
  | ACase (c : Case.t).

Definition ct_model (o : model_obj) : string :=
  match o with
  | AClient _ => "client"
  | AnOtherParty _ => "otherparty"
  | AMedicalProvider _ => "medicalprovider"
  | ACase _ => "case"
  end.

Definition pk (o : model_obj) : nat :=
  match o with
  | AClient c => Client.id c
  | AnOtherParty p => OtherParty.id p
  | AMedicalProvider p => MedicalProvider.id p
  | ACase c => Case.id c
  end.

(** [ClientCommunicationCitation.objects.create(...)]; the storage may
    refuse the write. *)
Definition create_citation (communication : ClientCommunication.t) (citation_key : string)
    (cited_text : string) (turn_index : option Z) (score : nat)
    : M ClientCommunicationCitation.t :=
  d <- get_db ;;
  let row := fun new_pk =>
    {| ClientCommunicationCitation.id := new_pk;
       ClientCommunicationCitation.communication := ClientCommunication.id communication;
       ClientCommunicationCitation.citation_key := citation_key;
       ClientCommunicationCitation.cited_text := cited_text;
       ClientCommunicationCitation.turn_index := turn_index;
       ClientCommunicationCitation.confidence_score := score |} in
  if citation_write_fails env (row (next_uuid d))
  then raise (DatabaseError "ClientCommunicationCitation")
  else objects_create intake_clientcommunicationcitation
         set_intake_clientcommunicationcitation row.

(** [CitationReference.objects.create(...)] *)
Definition create_reference (cit : ClientCommunicationCitation.t) (obj : model_obj)
    (label : string) : M unit :=
  d <- get_db ;;
  let row := fun new_pk =>
    {| CitationReference.id := new_pk;
       CitationReference.citation := ClientCommunicationCitation.id cit;
       CitationReference.content_type := ct_model obj;
       CitationReference.object_id := pk obj;
       CitationReference.relationship_label := label |} in
  if reference_write_fails env (row (next_uuid d))
  then raise (DatabaseError "CitationReference")
  else objects_create intake_citationreference set_intake_citationreference row ;; ret tt.

(** The reference part shared by [_cite] and [_cite_meta]. *)
Definition reference_if_allowed (cit : ClientCommunicationCitation.t)
    (obj : option model_obj) (label : string) : M unit :=
  match obj with
  | Some o =>
      if existsb (String.eqb (ct_model o)) CitationReference.ALLOWED_CONTENT_TYPES
      then create_reference cit o label
      else ret tt
  | None => ret tt
  end.

(** [_cite] of [persist]: lines 122-141. *)
Definition _cite (communication : option ClientCommunication.t) (citation_key : string)
    (data : citation_meta) (obj : option model_obj) (label : string) : M unit :=
  match communication with
  | None => ret tt
  | Some comm =>
      cit <- create_citation comm citation_key (_cited_text data) (_turn_index data)
               (confidence_score_of (_confidence data)) ;;
      reference_if_allowed cit obj label
  end.

(** [_cite_meta] of [_write_metadata_citations]: lines 333-351. *)
Definition _cite_meta (communication : ClientCommunication.t) (citation_key : string)
    (found : option finding) (obj : option model_obj) (label : string) : M unit :=
  match found with
  | None => ret tt
  | Some f =>
      cit <- create_citation communication citation_key
               (match if_set (jget (quote f)) with
                | Some q => q
                | None => jstr (value f) ""
                end)
               (transcript_index f)
               (confidence_score_of (confidence_or_high f)) ;;
      reference_if_allowed cit obj label
  end.

Definition _write_metadata_citations (communication : ClientCommunication.t)
    (meta : list (string * finding)) (client : Client.t) : M unit :=
  _cite_meta communication "caller_name" (dict_get meta "caller_name")
             (Some (AClient client)) "identified caller" ;;
  _cite_meta communication "accident_date" (dict_get meta "accident_date") None "" ;;
  _cite_meta communication "case_type" (dict_get meta "case_type") None "" ;;
  _cite_meta communication "incident_location" (dict_get meta "incident_location") None "".

(** *** persist: lines 95-203 *)

Definition set_incident_date (c : Case.t) (d : option date) : Case.t :=
  {| Case.id := Case.id c; Case.client := Case.client c;
     Case.case_number := Case.case_number c; Case.incident_type := Case.incident_type c;
     Case.incident_date := d; Case.incident_location := Case.incident_location c |}.

Definition set_incident_type (c : Case.t) (t : string) : Case.t :=
  {| Case.id := Case.id c; Case.client := Case.client c;
     Case.case_number := Case.case_number c; Case.incident_type := t;
     Case.incident_date := Case.incident_date c;
     Case.incident_location := Case.incident_location c |}.

Definition set_parse_status (c : ClientCommunication.t) (s : string) : ClientCommunication.t :=
  {| ClientCommunication.id := ClientCommunication.id c;
     ClientCommunication.client := ClientCommunication.client c;
     ClientCommunication.case := ClientCommunication.case c;
     ClientCommunication.channel := ClientCommunication.channel c;
     ClientCommunication.raw_transcript := ClientCommunication.raw_transcript c;
     ClientCommunication.parse_status := s |}.

(** "Update case fields if blank": lines 143-152. *)
Definition update_case_fields (case : Case.t) (result : IntakeExtractionResult) : M unit :=
  let fill_date :=
    match incident_date result, Case.incident_date case with
    | Some _, None => true
    | _, _ => false
    end in
  let case1 := if fill_date then set_incident_date case (incident_date result) else case in
  let fill_type :=
    match if_set (incident_type result) with
    | Some _ => negb (Py.truthy (Case.incident_type case1))
    | None => false
    end in
  let case2 :=
    match if_set (incident_type result) with
    | Some t => if fill_type then set_incident_type case1 t else case1
    | None => case1
    end in
  let changed_fields :=
    (if fill_date then ["incident_date"] else [])
    ++ (if fill_type then ["incident_type"] else []) in
  match changed_fields with
  | [] => ret tt
  | _ :: _ => save_case case2 (changed_fields ++ ["updated_at"])
  end.

Definition persist_party (case : Case.t) (communication : option ClientCommunication.t)
    (party_data : party_dict) : M unit :=
  ' (party, created) <-
    objects_get_or_create "OtherParty" intake_otherparty set_intake_otherparty
      (fun r => (OtherParty.case r =? Case.id case)
                && String.eqb (OtherParty.first_name r) (party_first_name party_data)
                && String.eqb (OtherParty.last_name r) (party_last_name party_data))
      (fun new_pk =>
         {| OtherParty.id := new_pk; OtherParty.case := Case.id case;
            OtherParty.first_name := party_first_name party_data;
            OtherParty.last_name := party_last_name party_data;
            OtherParty.company_name := party_company_name party_data;
            OtherParty.role := party_role party_data |}) ;;
  if created : bool
  then _cite communication "other_party" (party_citation party_data)
             (Some (AnOtherParty party)) "at-fault party"
  else ret tt.

Definition persist_medical (case : Case.t) (communication : option ClientCommunication.t)
    (mp_data : medical_dict) : M unit :=
  facility <-
    (if Py.truthy (med_facility_name mp_data) then
       ' (facility, _) <-
         objects_get_or_create "MedicalFacility" intake_medicalfacility set_intake_medicalfacility
           (fun r => String.eqb (MedicalFacility.name r) (med_facility_name mp_data))
           (fun new_pk => {| MedicalFacility.id := new_pk;
                             MedicalFacility.name := med_facility_name mp_data |}) ;;
       ret (Some (MedicalFacility.id facility))
     else ret None) ;;
  ' (provider, created) <-
    objects_get_or_create "MedicalProvider" intake_medicalprovider set_intake_medicalprovider
      (fun r => String.eqb (MedicalProvider.first_name r) (med_first_name mp_data)
                && String.eqb (MedicalProvider.last_name r) (med_last_name mp_data))
      (fun new_pk =>
         {| MedicalProvider.id := new_pk; MedicalProvider.facility := facility;
            MedicalProvider.first_name := med_first_name mp_data;
            MedicalProvider.last_name := med_last_name mp_data;
            MedicalProvider.specialty := med_specialty mp_data |}) ;;
  (if created : bool
   then _cite communication "medical_provider" (med_citation mp_data)
              (Some (AMedicalProvider provider)) "treating provider"
   else ret tt) ;;
  objects_get_or_create "Treatment" intake_treatment set_intake_treatment
    (fun r => (Treatment.case r =? Case.id case)
              && (Treatment.provider r =? MedicalProvider.id provider))
    (fun new_pk =>
       {| Treatment.id := new_pk; Treatment.case := Case.id case;
          Treatment.provider := MedicalProvider.id provider;
          Treatment.treatment_type := med_treatment_type mp_data;
          Treatment.diagnosis := med_diagnosis mp_data |}) ;;
  ret tt.

Definition persist_damage (case : Case.t) (communication : option ClientCommunication.t)
    (dmg_data : damage_dict) : M unit :=
  ' (damage, created) <-
    objects_get_or_create "Damage" intake_damage set_intake_damage
      (fun r => (Damage.case r =? Case.id case)
                && String.eqb (Damage.category r) (dmg_category dmg_data))
      (fun new_pk =>
         {| Damage.id := new_pk; Damage.case := Case.id case;
            Damage.category := dmg_category dmg_data;
            Damage.description := dmg_description dmg_data;
            Damage.estimated_amount := dmg_estimated_amount dmg_data |}) ;;
  if created : bool
  then _cite communication "financial_expense" (dmg_citation dmg_data) None ""
  else ret tt.

Definition persist (case : Case.t) (result : IntakeExtractionResult)
    (communication : option ClientCommunication.t) : M unit :=
  update_case_fields case result ;;
  for_each (other_parties result) (persist_party case communication) ;;
  for_each (medical_providers result) (persist_medical case communication) ;;
  for_each (damages result) (persist_damage case communication).

(** *** ingest: lines 205-315 *)

Definition or_empty (v : option string) : string :=
  match if_set v with Some s => s | None => "" end.

(** Step 4: [caller_name.strip().split(" ", 1)] and the two conditionals. *)
Definition caller_identity (meta : list (string * finding)) : string * string :=
  let caller_name := or_empty (meta_value meta "caller_name") in
  first_last (Py.strip caller_name).

Definition build_result (incident_info : incident_info_dict)
    (medical : list medical_dict) (insurance : list insurance_dict)
    (parties : list party_dict) (damages : list damage_dict)
    (flags : list string) : IntakeExtractionResult :=
  {| incident_date := info_incident_date incident_info;
     incident_type := info_incident_type incident_info;
     incident_location := info_incident_location incident_info;
     injuries := info_injuries incident_info;
     medical_providers := medical;
     insurance_carriers := insurance;
     other_parties := parties;
     damages := damages;
     confidence_scores := info_confidence_scores incident_info;
     raw_flags := flags |}.

(** [result.raw_flags = self._flag_risks(result)] *)
Definition flag (result : IntakeExtractionResult) : M IntakeExtractionResult :=
  st <- get_state ;;
  ret {| incident_date := incident_date result;
         incident_type := incident_type result;
         incident_location := incident_location result;
         injuries := injuries result;
         medical_providers := medical_providers result;
         insurance_carriers := insurance_carriers result;
         other_parties := other_parties result;
         damages := damages result;
         confidence_scores := confidence_scores result;
         raw_flags := _flag_risks st result |}.

Definition ingest (turns : turns_obj) (law_firm_id : option nat)
    : M (ClientCommunication.t * IntakeExtractionResult * bool) :=
  (* 1. Single LLM call *)
  findings <- _call_llm turns ;;
  (* 2. Index metadata findings by field *)
  let meta := meta_index findings in
  (* 3. LawFirm *)
  law_firm <-
    match law_firm_id with
    | Some wanted => objects_get "LawFirm" intake_lawfirm (fun r => LawFirm.id r =? wanted)
    | None =>
        let firm_name :=
          match if_set (meta_value meta "law_firm_name") with
          | Some n => n
          | None => "Unknown Law Firm"
          end in
        ' (law_firm, _) <-
          objects_get_or_create "LawFirm" intake_lawfirm set_intake_lawfirm
            (fun r => String.eqb (LawFirm.name r) firm_name)
            (fun new_pk => {| LawFirm.id := new_pk; LawFirm.name := firm_name |}) ;;
        ret law_firm
    end ;;
  (* 4. Caller identity and incident info *)
  let first_name := fst (caller_identity meta) in
  let last_name := snd (caller_identity meta) in
  incident_info <- _extract_incident_info turns ;;
  (* 5. Try to match an existing Client + Case before creating anything new *)
  existing <- _find_existing_case law_firm first_name last_name
                (info_incident_type incident_info)
                (info_incident_date incident_info)
                (info_incident_location incident_info) ;;
  ' (client, case, matched) <-
    match existing with
    | Some (client, case) => ret (client, case, true)
    | None =>
        ' (client, _) <-
          objects_get_or_create "Client" intake_client set_intake_client
            (fun r => (Client.law_firm r =? LawFirm.id law_firm)
                      && String.eqb (Client.first_name r) first_name
                      && String.eqb (Client.last_name r) last_name)
            (fun new_pk =>
               {| Client.id := new_pk; Client.law_firm := LawFirm.id law_firm;
                  Client.first_name := first_name; Client.last_name := last_name |}) ;;
        number <- uuid4 ;;
        case <- objects_create intake_case set_intake_case
          (fun new_pk =>
             {| Case.id := new_pk; Case.client := Client.id client;
                Case.case_number := number;
                Case.incident_type := or_empty (info_incident_type incident_info);
                Case.incident_date := info_incident_date incident_info;
                Case.incident_location :=
                  or_empty (info_incident_location incident_info) |}) ;;
        ret (client, case, false)
    end ;;
  (* 6. ClientCommunication *)
  communication <- objects_create intake_clientcommunication set_intake_clientcommunication
    (fun new_pk =>
       {| ClientCommunication.id := new_pk;
          ClientCommunication.client := Client.id client;
          ClientCommunication.case := Some (Case.id case);
          ClientCommunication.channel := "phone";
          ClientCommunication.raw_transcript := turns;
          ClientCommunication.parse_status := "processing" |}) ;;
  (* 6b. Metadata citations, only for newly created records *)
  (if matched : bool then ret tt
   else _write_metadata_citations communication meta client) ;;
  (* 7. Build IntakeExtractionResult *)
  medical <- _extract_medical turns ;;
  insurance <- _extract_insurance turns ;;
  parties <- _extract_parties turns ;;
  damages <- _extract_damages turns ;;
  (* 8. Flag risks *)
  result <- flag (build_result incident_info medical insurance parties damages []) ;;
  (* 9. Persist downstream records *)
  persist case result (Some communication) ;;
  (* 10. Mark done *)
  save_communication (set_parse_status communication "done")
                     ["parse_status"; "updated_at"] ;;
  (* 11. Return *)
  ret (set_parse_status communication "done", result, matched).

(** *** parse: lines 57-93 *)

Definition parse (communication : ClientCommunication.t) : M IntakeExtractionResult :=
  (* turns = communication.raw_transcript or [] *)
  turns <- match items (ClientCommunication.raw_transcript communication) with
           | [] => new_list
           | _ :: _ => ret (ClientCommunication.raw_transcript communication)
           end ;;
  incident_info <- _extract_incident_info turns ;;
  parties <- _extract_parties turns ;;
  medical <- _extract_medical turns ;;
  insurance <- _extract_insurance turns ;;
  damages <- _extract_damages turns ;;
  result <- flag (build_result incident_info medical insurance parties damages []) ;;
  save_communication (set_parse_status communication "done")
                     ["parse_status"; "updated_at"] ;;
  ret result.

(** *** The [parse] action of [ClientCommunicationViewSet]: views.py 172-199 *)

Inductive response : Type :=
  | HTTP_200_OK (result : IntakeExtractionResult)
  | HTTP_404_NOT_FOUND
  | HTTP_500_INTERNAL_SERVER_ERROR (detail : exn).

Definition ClientCommunicationViewSet_parse (wanted : nat) : M response :=
  d <- get_db ;;
  (* communication = self.get_object() *)
  match find (fun r => ClientCommunication.id r =? wanted) (intake_clientcommunication d) with
  | None => ret HTTP_404_NOT_FOUND
  | Some communication =>
      new_service ;;
      try_except
        (result <- parse communication ;;
         match ClientCommunication.case communication with
         | Some case_id =>
             case <- objects_get "Case" intake_case (fun r => Case.id r =? case_id) ;;
             persist case result (Some (set_parse_status communication "done"))
         | None => ret tt
         end ;;
         ret (HTTP_200_OK result))
        (fun exc => ret (HTTP_500_INTERNAL_SERVER_ERROR exc))
  end.

(** *** The extraction sub-steps of a pipeline run *)




End Service.

(** ** Vocabulary of the properties *)

(** From a state whose projection meets [Q], the step ends (returning or
    raising) in a state with the same projection. *)
Definition framed {T : Type} (proj : state -> T) (Q : T -> Prop) {A : Type} (m : M A)
    : Prop :=
  forall st, Q (proj st) -> proj (fst (m st)) = proj st.

Definition anything {T : Type} (_ : T) : Prop := True.

(** The part of the state the memoisation is about. *)
Definition memo (st : state) : option cache_entry * list string :=
  (_findings_cache st, llm_calls st).

(** The cache was filled for this very [turns] object. *)
Definition holds (turns : turns_obj) (p : option cache_entry * list string) : Prop :=
  match fst p with
  | Some c => turns_id c = obj_id turns
  | None => False
  end.

(** A configured key: [if not api_key] is false. *)
Definition configured (env : environment) : Prop :=
  exists k, OPENAPI_KEY env = Some k /\ k <> EmptyString.

(** The stored communications. *)
Definition comms (st : state) : list ClientCommunication.t := intake_clientcommunication (db st).

(** The stored status of the communication a request names. *)
Definition status_of (st : state) (wanted : nat) : option string :=
  option_map ClientCommunication.parse_status
    (find (fun r => ClientCommunication.id r =? wanted) (comms st)).

(** The rows [persist] cites: other parties, medical providers, damages. *)
Definition cited_rows (st : state) : nat :=
  length (intake_otherparty (db st)) + length (intake_medicalprovider (db st))
  + length (intake_damage (db st)).



(** The stored clients and the number of stored cases. *)
Definition records (st : state) : list Client.t * nat :=
  (intake_client (db st), length (intake_case (db st))).

(** ** Choices of the models: models.py *)


(** [Damage.DamageCategory], values and labels. *)
Definition Damage_DamageCategory : list (string * string) :=
  [("medical", "Medical Expenses"); ("lost_wages", "Lost Wages");
   ("pain_suffering", "Pain & Suffering"); ("property", "Property Damage");
   ("future_medical", "Future Medical Expenses");
   ("future_lost_wages", "Future Lost Wages"); ("other", "Other")].

(** ** Shapes of strings *)

(** Every character of the string meets [p]. *)
Fixpoint every (p : ascii -> bool) (s : string) : bool :=
  match s with
  | EmptyString => true
  | String c r => p c && every p r
  end.


(** The last character of the string is white space. *)
Fixpoint ends_in_space (s : string) : bool :=
  match s with
  | EmptyString => false
  | String c EmptyString => Py.isspace c
  | String _ r => ends_in_space r
  end.

(** The flags [_flag_risks] can raise, in the order it appends them. *)
Definition RISK_FLAGS : list string :=
  ["statute_of_limitations_risk"; "uninsured_motorist"; "multiple_defendants";
   "pre_existing_condition"; "liability_disputed"].

(** The text the keyword scan of [_flag_risks] reads. *)
Definition scanned_text (st : state) : string :=
  Py.lower (Py.join " "
    (map (fun f => jstr (value f) "")
         (match _findings_cache st with Some cached => data cached | None => [] end))).


(** The stored citations and references. *)
Definition citations (st : state) : list ClientCommunicationCitation.t :=
  intake_clientcommunicationcitation (db st).

Definition references (st : state) : list CitationReference.t :=
  intake_citationreference (db st).

(** The step only appends to the table, and what it appends meets [P]. *)
Definition grows_by {R : Type} (table : state -> list R) (P : R -> Prop) {A : Type}
    (m : M A) : Prop :=
  forall st, exists new, table (fst (m st)) = table st ++ new /\ Forall P new.

(** What a reference may point to, with the label it then carries. *)
Definition referenced (r : CitationReference.t) : Prop :=
  In (CitationReference.content_type r, CitationReference.relationship_label r)
     [("client", "identified caller"); ("otherparty", "at-fault party");
      ("medicalprovider", "treating provider")].

(** The rows [persist] refers to: other parties and medical providers. *)
Definition referenced_rows (st : state) : nat :=
  length (intake_otherparty (db st)) + length (intake_medicalprovider (db st)).

(** A stretch of [persist] under a storage that takes every write: as many
    citations as cited rows, as many references as referenced rows. *)
Definition balanced (st : state) {A : Type} (after : state * outcome A) : Prop :=
  length (citations (fst after)) + cited_rows st
    = length (citations st) + cited_rows (fst after)
  /\ length (references (fst after)) + referenced_rows st
     = length (references st) + referenced_rows (fst after).


(** Everything [persist] can add to: the counter of primary keys and the
    tables of the facts, citations and references. *)
Definition facts (st : state) :=
  (next_uuid (db st), intake_otherparty (db st), intake_medicalfacility (db st),
   intake_medicalprovider (db st), intake_treatment (db st), intake_damage (db st),
   citations st, references st).

(** The natural keys [persist] looks facts up by. *)
Definition party_key (case_id : nat) (p : party_dict) (r : OtherParty.t) : bool :=
  (OtherParty.case r =? case_id)
  && String.eqb (OtherParty.first_name r) (party_first_name p)
  && String.eqb (OtherParty.last_name r) (party_last_name p).

Definition damage_key (case_id : nat) (d : damage_dict) (r : Damage.t) : bool :=
  (Damage.case r =? case_id) && String.eqb (Damage.category r) (dmg_category d).

Definition provider_key (m : medical_dict) (r : MedicalProvider.t) : bool :=
  String.eqb (MedicalProvider.first_name r) (med_first_name m)
  && String.eqb (MedicalProvider.last_name r) (med_last_name m).

Definition treatment_key (case_id provider_id : nat) (r : Treatment.t) : bool :=
  (Treatment.case r =? case_id) && (Treatment.provider r =? provider_id).

(** The storage holds what [persist] would look up for an entity. *)
Definition party_stored (case_id : nat) (st : state) (p : party_dict) : Prop :=
  exists r, In r (intake_otherparty (db st)) /\ party_key case_id p r = true.

Definition damage_stored (case_id : nat) (st : state) (d : damage_dict) : Prop :=
  exists r, In r (intake_damage (db st)) /\ damage_key case_id d r = true.

Definition medical_stored (case_id : nat) (st : state) (m : medical_dict) : Prop :=
  (Py.truthy (med_facility_name m) = true ->
   exists f, In f (intake_medicalfacility (db st))
             /\ String.eqb (MedicalFacility.name f) (med_facility_name m) = true)
  /\ exists p, In p (intake_medicalprovider (db st)) /\ provider_key m p = true
       /\ exists t, In t (intake_treatment (db st))
            /\ treatment_key case_id (MedicalProvider.id p) t = true.


(** The result of an extraction that found nothing. *)
Definition empty_result : IntakeExtractionResult :=
  {| incident_date := None; incident_type := None; incident_location := None;
     injuries := []; medical_providers := []; insurance_carriers := [];
     other_parties := []; damages := []; confidence_scores := []; raw_flags := [] |}.

(** The cache holds the findings of [turns], and they are none. *)
Definition found_nothing (turns : turns_obj) (s : state) : Prop :=
  _findings_cache s = Some {| turns_id := obj_id turns; data := [] |}.


(** ** The [ingest] action of [ClientCommunicationViewSet]: views.py 124-170 *)

(** [request.data] as the action reads it: the [transcript] value when it is
    a list, and [law_firm_id] when it is given and not empty. *)
Record ingest_request : Type := {
  transcript : option turns_obj;
  law_firm_id : option nat
}.

(** The two answers with status 400. *)
Inductive bad_request : Type :=
  | TranscriptNotAList
  | LawFirmNotFound (law_firm_id : option nat).

(** The answers of the action.  The body of a 201 is built from the
    communication and the result; [law_firm_id] is read through the
    communication's client. *)
Inductive ingest_response : Type :=
  | HTTP_201_CREATED (matched : bool) (law_firm_id : option nat)
      (communication : ClientCommunication.t) (result : IntakeExtractionResult)
  | HTTP_400_BAD_REQUEST (detail : bad_request)
  | HTTP_500_SERVER_ERROR (detail : exn).

Section IngestView.

Variable env : environment.

(** [except LawFirm.DoesNotExist] before [except Exception]. *)
Definition ingest_failure (request : ingest_request) (exc : exn) : ingest_response :=
  match exc with
  | DoesNotExist model =>
      if String.eqb model "LawFirm"
      then HTTP_400_BAD_REQUEST (LawFirmNotFound (law_firm_id request))
      else HTTP_500_SERVER_ERROR exc
  | _ => HTTP_500_SERVER_ERROR exc
  end.

Definition ClientCommunicationViewSet_ingest (request : ingest_request)
    : M ingest_response :=
  match transcript request with
  | None => ret (HTTP_400_BAD_REQUEST TranscriptNotAList)
  | Some turns =>
      new_service ;;
      outcome <-
        try_except
          (done <- ingest env turns (law_firm_id request) ;; ret (inl done))
          (fun exc => ret (inr (ingest_failure request exc))) ;;
      match outcome with
      | inr answer => ret answer
      | inl (communication, result, matched) =>
          d <- get_db ;;
          ret (HTTP_201_CREATED matched
                 (option_map Client.law_firm
                    (find (fun c => Client.id c =? ClientCommunication.client communication)
                          (intake_client d)))
                 communication result)
      end
  end.

End IngestView.


(** ** Case analysis: services/case_analyzer.py and its two endpoints *)

Module Analyzer.

(** A JSON number that is not an integer, by what [int()] makes of it. *)
Inductive pyfloat : Type :=
  | Finite (truncated : Z)
  | Infinity
  | NaN.

(** What [json.loads] returns; an object is kept as its bindings. *)
Unset Elimination Schemes.
Inductive json : Type :=
  | JNull
  | JBool (b : bool)
  | JInt (n : Z)
  | JFloat (x : pyfloat)
  | JStr (s : string)
  | JList (l : list json)
  | JObject (members : list (string * json)).
Set Elimination Schemes.

(** The exceptions that occur. *)
Inductive error : Type :=
  | DoesNotExist
  | CaseAnalysisError (msg : string)
  | AttributeError (attr : string)
  | OverflowError.

Inductive outcome (A : Type) : Type :=
  | Return (a : A)
  | Raise (e : error).
Arguments Return {A} a.
Arguments Raise {A} e.

(** Outcome of [oai_client.chat.completions.create] followed by
    [json.loads]. *)
Inductive reply : Type :=
  | OpenAIError (exc : string)
  | NotJSON (raw : string)
  | JSON (report : json).

(** What the analysis reads: the key, the model behind the API, [int] on a
    string, and the stored cases through the message assembled for them:
    [user_message] is [_build_user_message] on the prefetched case with the
    given primary key, and [None] when there is none.  The text of the
    message is not looked into. *)
Record settings : Type := {
  OPENAPI_KEY : option string;
  user_message : nat -> option string;
  chat : nat -> string -> reply;
  int_of_str : string -> option Z
}.

(** What a call leaves behind: the messages sent to the model and the
    errors logged. *)
Record trace : Type := {
  requests : list string;
  errors_logged : list string
}.

Definition sent (t : trace) (message : string) : trace :=
  {| requests := requests t ++ [message]; errors_logged := errors_logged t |}.

Definition logger_error (t : trace) (msg : string) : trace :=
  {| requests := requests t; errors_logged := errors_logged t ++ [msg] |}.

(** [_na]: the value as a string, or N/A for [None] and the empty string. *)
Definition _na (value : option string) : string :=
  match value with
  | None | Some EmptyString => "N/A"
  | Some s => s
  end.

(** [d[key] = v] *)
Fixpoint dict_set {V : Type} (d : list (string * V)) (key : string) (v : V)
    : list (string * V) :=
  match d with
  | [] => [(key, v)]
  | (k, x) :: rest =>
      if String.eqb k key then (k, v) :: rest else (k, x) :: dict_set rest key v
  end.

Definition required : list string :=
  ["incident_summary"; "damages_summary"; "liability_summary"; "insurance_summary";
   "case_viability"].

(** [isinstance(score, int)]; [bool] is a subclass of [int]. *)
Definition is_int (score : option json) : bool :=
  match score with
  | Some (JInt _) | Some (JBool _) => true
  | _ => false
  end.

(** How [int(score)] ends. *)
Inductive int_result : Type :=
  | Int (n : Z)
  | TypeError
  | ValueError
  | Overflow.

Section Service.

Variable cfg : settings.

Definition int (score : option json) : int_result :=
  match score with
  | None | Some JNull => TypeError
  | Some (JBool b) => Int (if b then 1 else 0)
  | Some (JInt n) => Int n
  | Some (JFloat (Finite n)) => Int n
  | Some (JFloat Infinity) => Overflow
  | Some (JFloat NaN) => ValueError
  | Some (JStr s) =>
      match int_of_str cfg s with
      | Some n => Int n
      | None => ValueError
      end
  | Some (JList _) | Some (JObject _) => TypeError
  end.

(** "Enforce viability_score is an integer 0-100": lines 400-407. *)
Definition enforce_score (viability : list (string * json))
    : outcome (option (list (string * json))) :=
  let score := dict_get viability "viability_score" in
  if is_int score then Return None
  else
    match int score with
    | Int n => Return (Some (dict_set viability "viability_score"
                               (JInt (Z.max 0 (Z.min 100 n)))))
    | TypeError | ValueError =>
        Return (Some (dict_set viability "viability_score" (JInt 0)))
    | Overflow => Raise OverflowError
    end.

Definition analyze_case (case_id : nat) (t : trace) : trace * outcome json :=
  match user_message cfg case_id with
  | None => (t, Raise DoesNotExist)
  | Some message =>
      match OPENAPI_KEY cfg with
      | None | Some EmptyString => (t, Raise (CaseAnalysisError "OPENAPI_KEY is not set."))
      | Some _ =>
          let t1 := sent t message in
          match chat cfg (length (requests t)) message with
          | OpenAIError exc =>
              (logger_error t1 "OpenAI API call failed in analyze_case",
               Raise (CaseAnalysisError ("LLM call failed: " ++ exc)))
          | NotJSON raw =>
              (logger_error t1 "analyze_case: could not parse LLM response as JSON",
               Raise (CaseAnalysisError "LLM returned non-JSON response"))
          | JSON (JObject members) =>
              (* missing = required - report.keys() *)
              match filter (fun k => match dict_get members k with
                                     | Some _ => false
                                     | None => true
                                     end) required with
              | _ :: _ =>
                  (logger_error t1 "analyze_case: LLM response missing required sections",
                   Raise (CaseAnalysisError "LLM response missing required sections"))
              | [] =>
                  (* viability = report.get("case_viability", {}) *)
                  match dict_get members "case_viability" with
                  | Some (JObject viability) =>
                      match enforce_score viability with
                      | Return None => (t1, Return (JObject members))
                      | Return (Some enforced) =>
                          (t1, Return (JObject (dict_set members "case_viability"
                                                  (JObject enforced))))
                      | Raise e => (t1, Raise e)
                      end
                  | Some _ => (t1, Raise (AttributeError "get"))
                  | None => (t1, Return (JObject members))
                  end
              end
          | JSON _ => (t1, Raise (AttributeError "keys"))
          end
      end
  end.

(** The [analyze] action of [CaseViewSet]: views.py 66-83.  An exception it
    does not catch leaves the action. *)
Inductive response : Type :=
  | HTTP_200_OK (report : json)
  | HTTP_404_NOT_FOUND
  | HTTP_500_INTERNAL_SERVER_ERROR (detail : string).



End Service.

End Analyzer.


(** The stored cases by primary key and client. *)
Definition case_links (st : state) : list (nat * nat) :=
  map (fun c => (Case.id c, Case.client c)) (intake_case (db st)).

(** ** Concrete records used as inputs below *)

Module Scenario.


Definition firm : LawFirm.t := {| LawFirm.id := 1; LawFirm.name := "Hart & Lowe" |}.

Definition jane : Client.t :=
  {| Client.id := 2; Client.law_firm := 1;
     Client.first_name := "Jane"; Client.last_name := "Smith" |}.

Definition march_3 : date := {| toordinal := 738948 |}.

(** An older case with the incident's date, at another address. *)
Definition dated_case : Case.t :=
  {| Case.id := 3; Case.client := 2; Case.case_number := 30;
     Case.incident_type := "slip_fall"; Case.incident_date := Some march_3;
     Case.incident_location := "Harbor Mall, Springfield" |}.

(** A newer case without a date, of the supplied type and location. *)
Definition located_case : Case.t :=
  {| Case.id := 4; Case.client := 2; Case.case_number := 40;
     Case.incident_type := "auto"; Case.incident_date := None;
     Case.incident_location := "Elm St" |}.

(** A storage with the firm, the client and her two cases. *)
Definition two_cases : database :=
  set_intake_case
    (set_intake_client
       (set_intake_lawfirm (set_next_uuid empty_database 5) [firm])
       [jane])
    [dated_case; located_case].

Definition with_db (d : database) : state :=
  {| _findings_cache := None; db := d; llm_calls := []; log := []; next_obj_id := 1 |}.

(** A one-turn transcript, as one list object. *)
Definition turns : turns_obj :=
  {| obj_id := 7;
     items := [{| speaker := Str "Caller"; text := Str "I was rear-ended." |}] |}.

(** A stored communication waiting to be parsed. *)
Definition pending : ClientCommunication.t :=
  {| ClientCommunication.id := 9; ClientCommunication.client := 2;
     ClientCommunication.case := Some 4; ClientCommunication.channel := "phone";
     ClientCommunication.raw_transcript := turns;
     ClientCommunication.parse_status := "pending" |}.

(** The same storage with that communication. *)
Definition one_pending : database :=
  set_intake_clientcommunication (set_next_uuid two_cases 10) [pending].

(** [date.fromisoformat] on the dates used here. *)
Definition iso (s : string) : option date :=
  if String.eqb s "2024-03-03" then Some march_3
  else if String.eqb s "2024-05-05" then Some {| toordinal := 739011 |}
  else if String.eqb s "2024-07-07" then Some {| toordinal := 739074 |}
  else None.

(** An environment around a fixed reply of the model, with a storage that
    takes every write. *)
Definition replying (reply : llm_reply) : environment :=
  {| OPENAPI_KEY := Some "sk-test";
     llm := fun _ _ => reply;
     today := {| toordinal := 739000 |};
     fromisoformat := iso;
     citation_write_fails := fun _ => false;
     reference_write_fails := fun _ => false |}.


(** An environment in which [OPENAPI_KEY] is not set. *)
Definition unconfigured : environment :=
  {| OPENAPI_KEY := None;
     llm := fun _ _ => JSON (Object (AList []));
     today := {| toordinal := 739000 |};
     fromisoformat := iso;
     citation_write_fails := fun _ => false;
     reference_write_fails := fun _ => false |}.

Definition cited (quoted : string) : citation_meta :=
  {| _cited_text := quoted; _turn_index := Some 0%Z; _confidence := Some "high" |}.

(** An extraction result with one other party and one damage. *)
Definition party_and_damage : IntakeExtractionResult :=
  {| incident_date := None; incident_type := Some "auto"; incident_location := None;
     injuries := [];
     medical_providers := [];
     insurance_carriers := [];
     other_parties :=
       [{| party_first_name := ""; party_last_name := "";
           party_company_name := "Acme Trucking LLC"; party_role := "at-fault party";
           party_citation := cited "Acme Trucking LLC" |}];
     damages :=
       [{| dmg_category := "medical"; dmg_description := "my medical bills are piling up";
           dmg_estimated_amount := None;
           dmg_citation := cited "my medical bills are piling up" |}];
     confidence_scores := [];
     raw_flags := ["uninsured_motorist"] |}.

(** A finding as the model reports it. *)
Definition said (kind name text : string) : item :=
  Dict {| finding_type := Str kind; field := name; value := Str text;
          transcript_index := Some 0%Z; quote := Missing; confidence := Str "high" |}.

(** The findings of an intake call by [caller] about an accident on
    the day [on]. *)
Definition intake_on (caller on : string) : list item :=
  [said "metadata" "caller_name" caller;
   said "metadata" "case_type" "auto_accident";
   said "metadata" "accident_date" on].

Definition intake (caller : string) : list item := intake_on caller "2024-03-03".

(** Four calls in a row: Jane Smith about March 3rd, "jane smith" about
    May 5th, and twice Jane Smith about July 7th. *)
Definition four_calls : environment :=
  {| OPENAPI_KEY := Some "sk-test";
     llm := fun n _ =>
       JSON (Object (AList
         (match n with
          | 0 => intake_on "Jane Smith" "2024-03-03"
          | 1 => intake_on "jane smith" "2024-05-05"
          | _ => intake_on "Jane Smith" "2024-07-07"
          end)));
     today := {| toordinal := 739100 |};
     fromisoformat := iso;
     citation_write_fails := fun _ => false;
     reference_write_fails := fun _ => false |}.

(** The list object of the [n]-th request. *)
Definition request (n : nat) : turns_obj := {| obj_id := 20 + n; items := items turns |}.

(** The same transcript content as another list object, as a second request
    delivers it. *)
Definition turns_again : turns_obj := {| obj_id := 8; items := items turns |}.

(** A client of the same firm, created later, whose name differs from
    Jane Smith's in letter case only. *)
Definition jane_lower : Client.t :=
  {| Client.id := 5; Client.law_firm := 1;
     Client.first_name := "jane"; Client.last_name := "smith" |}.

(** A storage with the firm and these two clients, and no case. *)
Definition two_spellings : database :=
  set_intake_client
    (set_intake_lawfirm (set_next_uuid empty_database 10) [firm])
    [jane; jane_lower].

(** The state in which a second request finds the storage a first [ingest]
    left: the service instance is a new one. *)
Definition next_request
    (after : state * outcome (ClientCommunication.t * IntakeExtractionResult * bool))
    : state :=
  fst (new_service (fst after)).

Definition matched_flag
    (after : state * outcome (ClientCommunication.t * IntakeExtractionResult * bool))
    : option bool :=
  match snd after with
  | Return (_, _, matched) => Some matched
  | Raise _ => None
  end.

(** The first [n] of the four calls, each ingested by its own request into
    the storage the one before left, starting from an empty storage. *)
Fixpoint ingested (n : nat)
    : state * outcome (ClientCommunication.t * IntakeExtractionResult * bool) :=
  match n with
  | 0 => ingest four_calls (request 0) None (with_db empty_database)
  | S k => ingest four_calls (request n) None (next_request (ingested k))
  end.

End Scenario.


(** ** Further inputs: a call that names parties, providers and expenses *)

Module Sample.

(** What the model reports for the call. *)
Definition findings : list item :=
  [Scenario.said "metadata" "caller_name" "Jane Smith";
   Scenario.said "metadata" "case_type" "auto_accident";
   Scenario.said "individual" "other_party" "Acme Trucking LLC";
   Scenario.said "individual" "other_party" "Bob Jones";
   Scenario.said "individual" "medical_provider" "Mercy Hospital";
   Scenario.said "individual" "medical_provider" "Dr. Lee Wong";
   Scenario.said "individual" "financial_expense" "medical bills of $4,500"].

Definition env : environment := Scenario.replying (JSON (Object (AList findings))).

Definition acme : party_dict :=
  {| party_first_name := ""; party_last_name := "";
     party_company_name := "Acme Trucking LLC"; party_role := "at-fault party";
     party_citation := Scenario.cited "Acme Trucking LLC" |}.

Definition bob : party_dict :=
  {| party_first_name := "Bob"; party_last_name := "Jones";
     party_company_name := ""; party_role := "at-fault party";
     party_citation := Scenario.cited "Bob Jones" |}.

Definition mercy : medical_dict :=
  {| med_first_name := ""; med_last_name := ""; med_facility_name := "Mercy Hospital";
     med_specialty := ""; med_treatment_type := ""; med_diagnosis := "";
     med_citation := Scenario.cited "Mercy Hospital" |}.

Definition wong : medical_dict :=
  {| med_first_name := "Lee"; med_last_name := "Wong"; med_facility_name := "";
     med_specialty := ""; med_treatment_type := ""; med_diagnosis := "";
     med_citation := Scenario.cited "Dr. Lee Wong" |}.

(** A second company, and a second facility. *)
Definition zenith : party_dict :=
  {| party_first_name := ""; party_last_name := "";
     party_company_name := "Zenith Logistics Inc"; party_role := "at-fault party";
     party_citation := Scenario.cited "Zenith Logistics Inc" |}.

Definition clinic : medical_dict :=
  {| med_first_name := ""; med_last_name := ""; med_facility_name := "Elm Street Clinic";
     med_specialty := ""; med_treatment_type := ""; med_diagnosis := "";
     med_citation := Scenario.cited "Elm Street Clinic" |}.

(** The provider row that stands for a facility, and a storage with it. *)
Definition facility_provider : MedicalProvider.t :=
  {| MedicalProvider.id := 10; MedicalProvider.facility := None;
     MedicalProvider.first_name := ""; MedicalProvider.last_name := "";
     MedicalProvider.specialty := "" |}.

Definition with_provider : database :=
  set_intake_medicalprovider (set_next_uuid Scenario.one_pending 11) [facility_provider].

(** A stored communication without transcript turns, and a request with an
    empty transcript. *)
Definition silent : ClientCommunication.t :=
  {| ClientCommunication.id := 9; ClientCommunication.client := 2;
     ClientCommunication.case := Some 4; ClientCommunication.channel := "phone";
     ClientCommunication.raw_transcript := {| obj_id := 30; items := [] |};
     ClientCommunication.parse_status := "pending" |}.

Definition no_turns : turns_obj := {| obj_id := 31; items := [] |}.

(** A reply with an entry that is no object and a finding without a value
    among the findings. *)
Definition noisy : list item :=
  NotADict
  :: Dict {| finding_type := Str "individual"; field := "other_party"; value := Null;
             transcript_index := None; quote := Missing; confidence := Missing |}
  :: findings.

(** The metadata index of the call. *)
Definition meta : list (string * finding) := meta_index (valid_findings findings).

End Sample.


(** ** Further inputs: an analysis *)

Module Analysed.

Import Analyzer.

(** A report with the five sections whose score is [score]. *)
Definition report_with (score : json) : list (string * json) :=
  [("incident_summary", JStr "Rear-end collision on Elm St.");
   ("damages_summary", JList []);
   ("liability_summary", JObject [("liable_party", JStr "Acme Trucking LLC")]);
   ("insurance_summary", JList []);
   ("case_viability",
    JObject [("recommendation", JStr "yes"); ("viability_score", score)])].

(** Settings around a fixed reply: a key, case 4 alone in store. *)
Definition replying (answer : reply) : settings :=
  {| OPENAPI_KEY := Some "sk-test";
     user_message := fun case_id =>
       if case_id =? 4 then Some "CASE ANALYSIS REQUEST" else None;
     chat := fun _ _ => answer;
     int_of_str := fun s => if String.eqb s "185" then Some 185%Z else None |}.

Definition fresh : trace := {| requests := []; errors_logged := [] |}.

End Analysed.

(** ** The claims in the specification's own words, where they differ *)

Module Claimed.

(** "the stored case location contains, as a case-insensitive substring,
    the first 40 characters of the supplied location" *)
Definition type_loc (incident_type incident_location : string) (c : Case.t) : bool :=
  String.eqb (Case.incident_type c) incident_type
  && icontains (Case.incident_location c) (Py.slice_to 40 incident_location).

(** "splits only on the first space": the caller name itself is split. *)
Definition caller_identity (caller_name : string) : string * string :=
  first_last caller_name.

End Claimed.

(** * Properties *)

Local Open Scope py_scope.

(** ** Risk flags *)

Section RiskFlags.

Variable env : environment.

Lemma in_optional_flag (b : bool) (g f : string) :
  In f (if b then [g] else []) <-> b = true /\ g = f.
Proof.
  destruct b; simpl; intuition congruence.
Qed.

(** The five groups [_flag_risks] appends, in their fixed order. *)
Lemma flag_risks_groups (st : state) (result : IntakeExtractionResult) (f : string) :
  In f (_flag_risks env st result) ->
  f = "statute_of_limitations_risk" \/ f = "uninsured_motorist"
  \/ f = "multiple_defendants" \/ f = "pre_existing_condition"
  \/ f = "liability_disputed".
Proof.
  unfold _flag_risks. rewrite !in_app_iff.
  intros [H | [H | [H | [H | H]]]].
  - destruct (incident_date result); [| contradiction].
    cbv zeta in H. apply in_optional_flag in H. intuition.
  - destruct (incident_type result); [| contradiction].
    destruct (insurance_carriers result); [| contradiction].
    apply in_optional_flag in H. intuition.
  - apply in_optional_flag in H. intuition.
  - apply in_optional_flag in H. intuition.
  - apply in_optional_flag in H. intuition.
Qed.

(** C8. [statute_of_limitations_risk] is among the flags exactly when the
    incident date is set and more than 600 days lie between it and the
    evaluation date; an incident exactly 600 days back is not flagged, one
    601 days back is. *)
Theorem statute_of_limitations_risk_iff (st : state) (result : IntakeExtractionResult) :
  (In "statute_of_limitations_risk" (_flag_risks env st result) <->
   exists d, incident_date result = Some d
             /\ (toordinal (today env) - toordinal d > 600)%Z)
  /\ (forall d, incident_date result = Some d ->
        (toordinal (today env) - toordinal d = 600)%Z ->
        ~ In "statute_of_limitations_risk" (_flag_risks env st result))
  /\ (forall d, incident_date result = Some d ->
        (toordinal (today env) - toordinal d = 601)%Z ->
        In "statute_of_limitations_risk" (_flag_risks env st result)).
Proof.
  assert (Hiff : In "statute_of_limitations_risk" (_flag_risks env st result) <->
                 exists d, incident_date result = Some d
                           /\ (toordinal (today env) - toordinal d > 600)%Z).
  { unfold _flag_risks. rewrite !in_app_iff. split.
    - intros [H | [H | [H | [H | H]]]].
      + destruct (incident_date result) as [d |]; [| contradiction].
        cbv zeta in H. apply in_optional_flag in H. destruct H as [H _].
        exists d. split; [reflexivity |]. apply Z.ltb_lt in H. lia.
      + destruct (incident_type result); [| contradiction].
        destruct (insurance_carriers result); [| contradiction].
        apply in_optional_flag in H. destruct H as [_ H]. discriminate H.
      + apply in_optional_flag in H. destruct H as [_ H]. discriminate H.
      + apply in_optional_flag in H. destruct H as [_ H]. discriminate H.
      + apply in_optional_flag in H. destruct H as [_ H]. discriminate H.
    - intros [d [Hd Hdays]]. left. rewrite Hd. cbv zeta.
      apply in_optional_flag. split; [| reflexivity].
      apply Z.ltb_lt. lia. }
  split; [exact Hiff |]. split.
  - intros d Hd Hdays Hin. apply Hiff in Hin.
    destruct Hin as [d' [Hd' Hgt]]. rewrite Hd in Hd'. injection Hd' as <-. lia.
  - intros d Hd Hdays. apply Hiff. exists d. split; [assumption | lia].
Qed.

(** C9. [uninsured_motorist] is among the flags exactly when the incident
    type is ["auto"] and no insurance carrier was extracted; for any other
    incident type it is absent, whatever the insurance data. *)
Theorem uninsured_motorist_iff (st : state) (result : IntakeExtractionResult) :
  (In "uninsured_motorist" (_flag_risks env st result) <->
   incident_type result = Some "auto" /\ insurance_carriers result = [])
  /\ (incident_type result <> Some "auto" ->
      ~ In "uninsured_motorist" (_flag_risks env st result)).
Proof.
  assert (Hiff : In "uninsured_motorist" (_flag_risks env st result) <->
                 incident_type result = Some "auto" /\ insurance_carriers result = []).
  { unfold _flag_risks. rewrite !in_app_iff. split.
    - intros [H | [H | [H | [H | H]]]].
      + destruct (incident_date result); [| contradiction].
        cbv zeta in H. apply in_optional_flag in H. destruct H as [_ H]. discriminate H.
      + destruct (incident_type result) as [t |]; [| contradiction].
        destruct (insurance_carriers result); [| contradiction].
        apply in_optional_flag in H. destruct H as [H _].
        apply String.eqb_eq in H. subst t. split; reflexivity.
      + apply in_optional_flag in H. destruct H as [_ H]. discriminate H.
      + apply in_optional_flag in H. destruct H as [_ H]. discriminate H.
      + apply in_optional_flag in H. destruct H as [_ H]. discriminate H.
    - intros [Ht Hins]. right. left. rewrite Ht, Hins. simpl. left. reflexivity. }
  split; [exact Hiff |].
  intros Hty Hin. apply Hiff in Hin. tauto.
Qed.

End RiskFlags.

(** ** Sequencing *)

Lemma bind_assoc {A B C : Type} (m : M A) (k1 : A -> M B) (k2 : B -> M C) (st : state) :
  bind (bind m k1) k2 st = bind m (fun a => bind (k1 a) k2) st.
Proof.
  unfold bind. destruct (m st) as [st1 [a | e]]; reflexivity.
Qed.

(** ** What a step leaves alone *)

Section Frame.

Context {T : Type} (proj : state -> T) (Q : T -> Prop).

Lemma framed_ret {A : Type} (a : A) : framed proj Q (ret a).
Proof. intros st _. reflexivity. Qed.

Lemma framed_raise {A : Type} (e : exn) : framed proj Q (@raise A e).
Proof. intros st _. reflexivity. Qed.

Lemma framed_bind {A B : Type} (m : M A) (k : A -> M B) :
  framed proj Q m -> (forall a, framed proj Q (k a)) -> framed proj Q (bind m k).
Proof.
  intros Hm Hk st HQ. unfold bind.
  specialize (Hm st HQ). destruct (m st) as [st1 [a | e]]; simpl in *.
  - rewrite <- Hm in HQ. rewrite (Hk a st1 HQ). exact Hm.
  - exact Hm.
Qed.

Lemma framed_for_each {A : Type} (xs : list A) (body : A -> M unit) :
  (forall x, framed proj Q (body x)) -> framed proj Q (for_each xs body).
Proof.
  intros Hbody. induction xs as [| x rest IH]; simpl.
  - apply framed_ret.
  - apply framed_bind; [apply Hbody | intros _; exact IH].
Qed.

Lemma framed_try_except {A : Type} (body : M A) (handler : exn -> M A) :
  framed proj Q body -> (forall e, framed proj Q (handler e)) ->
  framed proj Q (try_except body handler).
Proof.
  intros Hb Hh st HQ. unfold try_except.
  specialize (Hb st HQ). destruct (body st) as [st1 [a | e]]; simpl in *.
  - exact Hb.
  - rewrite <- Hb in HQ. rewrite (Hh e st1 HQ). exact Hb.
Qed.

(** A framed step followed by more steps: either it returns and the rest
    runs from a state with the same projection, or the whole raises in such
    a state. *)
Lemma framed_bind_cases {A B : Type} (m : M A) (k : A -> M B) (st : state) :
  framed proj Q m -> Q (proj st) ->
  (exists st1 a, proj st1 = proj st /\ m st = (st1, Return a)
                 /\ bind m k st = k a st1)
  \/ (exists st1 e, proj st1 = proj st /\ bind m k st = (st1, Raise e)).
Proof.
  intros Hm HQ. specialize (Hm st HQ). unfold bind.
  destruct (m st) as [st1 [a | e]]; simpl in Hm.
  - left. exists st1, a. auto.
  - right. exists st1, e. auto.
Qed.

End Frame.

(** Splits a goal [framed proj Q m] along the shape of [m]; what is left are
    the primitive steps. *)
Ltac framed_split :=
  repeat match goal with
         | |- framed _ _ (ret _) => apply framed_ret
         | |- framed _ _ (raise _) => apply framed_raise
         | |- framed _ _ (bind _ _) => apply framed_bind; [| intros ]
         | |- framed _ _ (for_each _ _) => apply framed_for_each; intros
         | |- framed _ _ (try_except _ _) => apply framed_try_except; [| intros ]
         | |- framed _ _ (match ?x with _ => _ end) => destruct x
         | |- framed _ _ (if ?x then _ else _) => destruct x
         end.

(** A primitive step, by running it on a symbolic state. *)
Ltac framed_prim :=
  let st := fresh "st" in
  intros st _;
  cbv [get_state get_db put_db put_cache record_llm_call logger new_list new_service
       uuid4 objects_create objects_get objects_get_or_create save_case
       save_communication bind ret raise];
  repeat match goal with
         | |- context [match ?x with _ => _ end] => destruct x
         end;
  first [ reflexivity | unfold records; simpl; rewrite ?length_map; reflexivity ].

(** Opens the service's own functions, the extraction call apart, in a goal
    [framed proj Q m]. *)
Ltac framed_open :=
  unfold _extract_incident_info, _extract_parties, _extract_medical,
    _extract_insurance, _extract_damages, flag,
    persist, persist_party, persist_medical, persist_damage, update_case_fields,
    _cite, _cite_meta, create_citation, create_reference, reference_if_allowed,
    _write_metadata_citations, _find_existing_case.

(** For a projection no step of the extraction call changes. *)
Ltac framed_auto :=
  repeat (progress (framed_open; unfold _call_llm, chat_completions_create, set_cache;
                    framed_split));
  framed_prim.

(** ** The extraction call and its cache *)

Section Extraction.

Variable env : environment.

Lemma holds_lookup (turns : turns_obj) (st : state) :
  holds turns (memo st) -> exists cached, cache_lookup st turns = Some cached.
Proof.
  unfold holds, memo, cache_lookup. simpl.
  destruct (_findings_cache st) as [c |]; [| contradiction].
  intros ->. rewrite Nat.eqb_refl. eauto.
Qed.

Lemma lookup_holds (turns : turns_obj) (st : state) (cached : list finding) :
  cache_lookup st turns = Some cached -> holds turns (memo st).
Proof.
  unfold holds, memo, cache_lookup. simpl.
  destruct (_findings_cache st) as [c |]; [| discriminate].
  destruct (Nat.eqb_spec (turns_id c) (obj_id turns)); [auto | discriminate].
Qed.

(** A cache hit changes nothing and sends nothing. *)
Lemma call_llm_hit (turns : turns_obj) (st : state) (cached : list finding) :
  cache_lookup st turns = Some cached ->
  _call_llm env turns st = (st, Return cached).
Proof.
  intros Hhit. unfold _call_llm, bind, get_state. rewrite Hhit. reflexivity.
Qed.

Lemma quiet_call_llm (turns : turns_obj) :
  framed memo (holds turns) (_call_llm env turns).
Proof.
  intros st Hq. destruct (holds_lookup _ _ Hq) as [cached Hhit].
  rewrite (call_llm_hit _ _ Hhit). reflexivity.
Qed.














(** Responses the extractor rejects with a [RuntimeError]: a failed
    request, content that is not JSON, and a [findings] value that is not a
    list.  Nothing is cached for them. *)
Lemma call_llm_rejects (turns : turns_obj) (st : state) :
  cache_lookup st turns = None -> items turns <> [] -> configured env ->
  match llm env (length (llm_calls st)) (user_content (items turns)) with
  | OpenAIError _ | NotJSON _ | JSON (Object NotAList) =>
      (exists msg, snd (_call_llm env turns st) = Raise (RuntimeError msg))
      /\ _findings_cache (fst (_call_llm env turns st)) = _findings_cache st
  | _ => True
  end.
Proof.
  intros Hmiss Hne [k [Hk Hk']].
  unfold _call_llm, bind, get_state. rewrite Hmiss.
  destruct (items turns) as [| t rest] eqn:Hitems; [contradiction |].
  rewrite Hk. destruct k as [| c k]; [contradiction |].
  unfold chat_completions_create, bind, get_state, record_llm_call, ret. simpl.
  destruct (llm env (length (llm_calls st)) (user_content (t :: rest)))
    as [exc | raw | [| [| | l]]]; simpl; eauto.
Qed.

(** C1 (the code departs from it). A decoded object with no [findings] key
    is not rejected: the default of [parsed.get("findings", [])] is a list,
    so the call returns no findings and caches them. *)
Theorem call_llm_absent_findings_key (turns : turns_obj) (st : state) :
  cache_lookup st turns = None -> items turns <> [] -> configured env ->
  llm env (length (llm_calls st)) (user_content (items turns)) = JSON (Object KeyAbsent) ->
  snd (_call_llm env turns st) = Return []
  /\ _findings_cache (fst (_call_llm env turns st))
       = Some {| turns_id := obj_id turns; data := [] |}.
Proof.
  intros Hmiss Hne [k [Hk Hk']] Hreply.
  unfold _call_llm, bind, get_state. rewrite Hmiss.
  destruct (items turns) as [| t rest] eqn:Hitems; [contradiction |].
  rewrite Hk. destruct k as [| c k]; [contradiction |].
  unfold chat_completions_create, bind, get_state, record_llm_call, ret. simpl.
  rewrite Hreply. simpl. split; reflexivity.
Qed.

End Extraction.

(** ** The case/client matcher *)

Section Matcher.

Lemma hd_filter_some {A : Type} (p : A -> bool) (l : list A) (c : A) :
  hd_error (filter p l) = Some c -> In c l /\ p c = true.
Proof.
  induction l as [| x rest IH]; simpl; [discriminate |].
  destruct (p x) eqn:Hx; simpl.
  - intros [= ->]. auto.
  - intros H. destruct (IH H). auto.
Qed.

Lemma hd_filter_none {A : Type} (p : A -> bool) (l : list A) :
  hd_error (filter p l) = None <-> forall x, In x l -> p x = false.
Proof.
  induction l as [| x rest IH]; simpl.
  - split; [intros _ y [] | reflexivity].
  - destruct (p x) eqn:Hx; simpl.
    + split; [discriminate |]. intros H. specialize (H x (or_introl eq_refl)). congruence.
    + rewrite IH. split.
      * intros H y [<- | Hy]; auto.
      * intros H y Hy. auto.
Qed.

Lemma hd_filter_exists {A : Type} (p : A -> bool) (l : list A) (x : A) :
  In x l -> p x = true -> exists c, hd_error (filter p l) = Some c.
Proof.
  intros Hin Hp. destruct (hd_error (filter p l)) as [c |] eqn:H; [eauto |].
  rewrite hd_filter_none in H. specialize (H x Hin). congruence.
Qed.

Variables (law_firm : LawFirm.t) (first_name last_name : string).
Variables (st : state) (client : Client.t).

Hypothesis matched_client :
  most_recent (client_qs (db st) law_firm first_name last_name) = Some client.

(** C6. When the matched client has a case whose incident date is the
    supplied one, the matcher returns a case with that date, whatever
    matches by type and location; a case returned with another date means
    that no case of the client has the supplied date. *)
Theorem date_match_preferred (incident_type incident_location : option string)
    (day : date) :
  let found := snd (_find_existing_case law_firm first_name last_name
                      incident_type (Some day) incident_location st) in
  (forall dated, In dated (case_set (db st) client) -> has_date day dated = true ->
     exists c, found = Return (Some (client, c))
               /\ has_date day c = true /\ In c (case_set (db st) client))
  /\ (forall c, found = Return (Some (client, c)) -> has_date day c = false ->
        forall other, In other (case_set (db st) client) -> has_date day other = false).
Proof.
  cbv zeta. unfold _find_existing_case, bind, get_db. simpl.
  rewrite matched_client. split.
  - intros dated Hin Hdate.
    destruct (hd_filter_exists (has_date day) _ _ Hin Hdate) as [c Hc].
    destruct (case_set (db st) client) as [| c0 rest] eqn:Hset; [contradiction |].
    rewrite Hc. simpl. exists c. split; [reflexivity |].
    apply hd_filter_some in Hc. tauto.
  - intros c Hfound Hother.
    destruct (case_set (db st) client) as [| c0 rest] eqn:Hset; [intros ? [] |].
    destruct (hd_error (filter (has_date day) (c0 :: rest))) as [c' |] eqn:Hc.
    + simpl in Hfound. injection Hfound as <-.
      apply hd_filter_some in Hc. destruct Hc as [_ Hc]. congruence.
    + apply hd_filter_none. exact Hc.
Qed.



End Matcher.

(** The inputs of C6: the client's newer case matches by type and location,
    the older one by date; the older one is returned. *)
Lemma date_match_preferred_witness :
  type_loc "auto" (location_anchor "Elm St") Scenario.located_case = true
  /\ exists c,
       snd (_find_existing_case Scenario.firm "jane" "SMITH" (Some "auto")
              (Some Scenario.march_3) (Some "Elm St")
              (Scenario.with_db Scenario.two_cases))
       = Return (Some (Scenario.jane, c))
       /\ has_date Scenario.march_3 c = true
       /\ In c (case_set Scenario.two_cases Scenario.jane).
Proof.
  split; [reflexivity |].
  apply (proj1 (@date_match_preferred Scenario.firm "jane" "SMITH"
                  (Scenario.with_db Scenario.two_cases) Scenario.jane eq_refl
                  (Some "auto") (Some "Elm St") Scenario.march_3)
               Scenario.dated_case).
  - right. left. reflexivity.
  - reflexivity.
Defined.



(** ** Parse status *)

Section ParseStatus.

Variable env : environment.

Lemma comms_extract_incident_info turns :
  framed comms anything (_extract_incident_info env turns).
Proof. framed_auto. Qed.

Lemma comms_extract_parties turns : framed comms anything (_extract_parties env turns).
Proof. framed_auto. Qed.

Lemma comms_extract_medical turns : framed comms anything (_extract_medical env turns).
Proof. framed_auto. Qed.

Lemma comms_extract_insurance turns : framed comms anything (_extract_insurance env turns).
Proof. framed_auto. Qed.

Lemma comms_extract_damages turns : framed comms anything (_extract_damages env turns).
Proof. framed_auto. Qed.

Lemma comms_flag result : framed comms anything (flag env result).
Proof. framed_auto. Qed.

Lemma comms_persist case result communication :
  framed comms anything (persist env case result communication).
Proof. framed_auto. Qed.

Lemma find_map_same {A : Type} (p : A -> bool) (f : A -> A) (l : list A) :
  (forall x, p (f x) = p x) -> find p (map f l) = option_map f (find p l).
Proof.
  intros Hp. induction l as [| x rest IH]; simpl; [reflexivity |].
  rewrite Hp. destruct (p x); [reflexivity | exact IH].
Qed.

(** Runs the first step of the computation in the goal, given that it
    leaves the communications alone. *)
Ltac keep_step st1 H :=
  match goal with
  | |- context [bind ?m ?k ?st] =>
      let Hm := fresh "Hm" in
      assert (Hm : framed comms anything m)
        by first [ apply comms_extract_incident_info | apply comms_extract_parties
                 | apply comms_extract_medical | apply comms_extract_insurance
                 | apply comms_extract_damages | apply comms_flag | framed_auto ];
      let a := fresh "a" in
      let e := fresh "e" in
      destruct (@framed_bind_cases _ comms anything _ _ m k st Hm I)
        as [[st1 [a [H [_ ->]]]] | [st1 [e [H ->]]]];
      clear Hm
  end.

(** What [parse] does to the stored communications: set the status of its
    communication to done when it returns, nothing when it raises. *)
Lemma parse_comms (communication : ClientCommunication.t) (st : state) :
  match parse env communication st with
  | (st', Return _) =>
      comms st' =
      map (fun r => if ClientCommunication.id r =? ClientCommunication.id communication
                    then set_parse_status r "done" else r)
          (comms st)
  | (st', Raise _) => comms st' = comms st
  end.
Proof.
  unfold parse.
  keep_step st1 H1; [| exact H1].
  keep_step st2 H2; [| congruence].
  keep_step st3 H3; [| congruence].
  keep_step st4 H4; [| congruence].
  keep_step st5 H5; [| congruence].
  keep_step st6 H6; [| congruence].
  keep_step st7 H7; [| congruence].
  cbv [bind save_communication get_db put_db ret]. simpl.
  unfold comms in *. simpl.
  assert (Hsame : intake_clientcommunication (db st7) = intake_clientcommunication (db st))
    by congruence.
  rewrite Hsame. apply map_ext. intros r.
  destruct (ClientCommunication.id r =? ClientCommunication.id communication);
    [destruct r |]; reflexivity.
Qed.

(** C3 (amended). After the [parse] action on a stored communication, its
    status is done when [parse] returned and is what it was before when
    [parse] raised; a raise is answered with status 500.  The status is
    never set to failed. *)
Theorem parse_status_after_request (st : state) (wanted : nat)
    (communication : ClientCommunication.t) :
  find (fun r => ClientCommunication.id r =? wanted) (comms st) = Some communication ->
  let parsed := snd (parse env communication (fst (new_service st))) in
  let after := ClientCommunicationViewSet_parse env wanted st in
  status_of (fst after) wanted
    = Some (match parsed with
            | Return _ => "done"
            | Raise _ => ClientCommunication.parse_status communication
            end)
  /\ (forall e, parsed = Raise e ->
        snd after = Return (HTTP_500_INTERNAL_SERVER_ERROR e))
  /\ (status_of (fst after) wanted = Some "failed" ->
        ClientCommunication.parse_status communication = "failed").
Proof.
  intros Hfind. cbv zeta.
  assert (Hid : ClientCommunication.id communication = wanted).
  { apply find_some in Hfind. destruct Hfind as [_ H]. apply Nat.eqb_eq in H. exact H. }
  assert (Hstatus :
            status_of (fst (ClientCommunicationViewSet_parse env wanted st)) wanted
            = Some (match snd (parse env communication (fst (new_service st))) with
                    | Return _ => "done"
                    | Raise _ => ClientCommunication.parse_status communication
                    end)
            /\ (forall e, snd (parse env communication (fst (new_service st))) = Raise e ->
                  snd (ClientCommunicationViewSet_parse env wanted st)
                  = Return (HTTP_500_INTERNAL_SERVER_ERROR e))).
  { set (st0 := fst (new_service st)).
    assert (H0 : comms st0 = comms st) by reflexivity.
    set (rest := fun result : IntakeExtractionResult =>
           bind (match ClientCommunication.case communication with
                 | Some case_id =>
                     bind (objects_get "Case" intake_case (fun r => Case.id r =? case_id))
                          (fun case => persist env case result
                             (Some (set_parse_status communication "done")))
                 | None => ret tt
                 end) (fun _ => ret (HTTP_200_OK result))).
    assert (Hview : ClientCommunicationViewSet_parse env wanted st
                    = match parse env communication st0 with
                      | (st1, Return result) =>
                          match rest result st1 with
                          | (st2, Return a) => (st2, Return a)
                          | (st2, Raise e) => (st2, Return (HTTP_500_INTERNAL_SERVER_ERROR e))
                          end
                      | (st1, Raise e) => (st1, Return (HTTP_500_INTERNAL_SERVER_ERROR e))
                      end).
    { unfold ClientCommunicationViewSet_parse.
      unfold bind at 1. unfold get_db at 1. cbv beta iota.
      unfold comms in Hfind. rewrite Hfind.
      unfold bind at 1.
      change (new_service st) with (st0, Return tt). cbv beta iota.
      unfold try_except. unfold bind at 1. fold st0.
      destruct (parse env communication st0) as [st1 [result | e]]; [| reflexivity].
      cbv beta iota. fold (rest result).
      destruct (rest result st1) as [st2 [a | e]]; reflexivity. }
    rewrite Hview.
    pose proof (parse_comms communication st0) as Hparse.
    destruct (parse env communication st0) as [st1 [result | e]].
    - assert (Hrest : framed comms anything (rest result)).
      { unfold rest. framed_split; try framed_prim. apply comms_persist. }
      specialize (Hrest st1 I).
      destruct (rest result st1) as [st2 [resp | e]]; simpl in Hrest; simpl;
        (split; [| intros ? ?; discriminate]);
        unfold status_of; rewrite Hrest, Hparse, H0;
        (rewrite find_map_same;
         [ rewrite Hfind; simpl; rewrite Hid, Nat.eqb_refl; reflexivity
         | intros r; destruct (ClientCommunication.id r =? ClientCommunication.id communication);
           reflexivity ]).
    - simpl. split.
      + unfold status_of. rewrite Hparse, H0, Hfind. reflexivity.
      + intros e' [= ->]. reflexivity. }
  destruct Hstatus as [Hstatus Hraise].
  split; [exact Hstatus | split; [exact Hraise |]].
  rewrite Hstatus. destruct (snd (parse env communication (fst (new_service st)))).
  - discriminate.
  - intros [= H]. exact H.
Qed.

End ParseStatus.

(** C3 as stated fails: the model answers with text that is not JSON, the
    request is answered with status 500, and the communication is still
    pending. *)
Lemma parse_failure_leaves_status :
  snd (ClientCommunicationViewSet_parse (Scenario.replying (NotJSON "I am sorry")) 9
         (Scenario.with_db Scenario.one_pending))
  = Return (HTTP_500_INTERNAL_SERVER_ERROR (RuntimeError "LLM returned non-JSON response"))
  /\ status_of (fst (ClientCommunicationViewSet_parse
                       (Scenario.replying (NotJSON "I am sorry")) 9
                       (Scenario.with_db Scenario.one_pending))) 9
     = Some "pending".
Proof.
  split; vm_compute; reflexivity.
Qed.

(** The inputs of C3 (amended): the pending communication, parsed with a
    model that finds nothing. *)
Lemma parse_status_after_request_witness :
  status_of (fst (ClientCommunicationViewSet_parse
                    (Scenario.replying (JSON (Object (AList [])))) 9
                    (Scenario.with_db Scenario.one_pending))) 9
  = Some "done".
Proof.
  exact (proj1 (@parse_status_after_request
                  (Scenario.replying (JSON (Object (AList []))))
                  (Scenario.with_db Scenario.one_pending) 9 Scenario.pending eq_refl)).
Defined.

(** ** Citation failures during persist *)

Section CitationFailure.

Variable env : environment.

(** The storage refuses every citation write. *)
Hypothesis refused : forall c, citation_write_fails env c = true.

Variables (case : Case.t) (communication : ClientCommunication.t).








End CitationFailure.



(** ** Caller identity *)

(** Runs the first step of the computation in hypothesis [H], given that it
    leaves the projection [proj] alone; a raise contradicts [H]. *)
Ltac step_in H proj st1 a Hp Hrun :=
  match type of H with
  | context [bind ?m ?k ?st] =>
      let Hm := fresh "Hm" in
      let Hk := fresh "Hk" in
      let e := fresh "e" in
      assert (Hm : framed proj (fun _ => True) m) by framed_auto;
      destruct (@framed_bind_cases _ proj (fun _ => True) _ _ m k st Hm I)
        as [[st1 [a [Hp [Hrun Hk]]]] | [st1 [e [Hp Hk]]]];
      rewrite Hk in H; clear Hk Hm; [cbv beta in H | discriminate H]
  end.

Ltac step_anon H proj :=
  let st1 := fresh "st" in
  let a := fresh "a" in
  let Hp := fresh "Hp" in
  let Hrun := fresh "Hrun" in
  step_in H proj st1 a Hp Hrun; clear Hrun.

Section Identity.

Variable env : environment.






Lemma objects_create_row {R : Type} (table : database -> list R)
    (set_table : database -> list R -> database) (row : nat -> R)
    (st st1 : state) (r : R) :
  objects_create table set_table row st = (st1, Return r) ->
  r = row (next_uuid (db st)).
Proof.
  unfold objects_create, uuid4, bind, get_db, put_db, ret. simpl.
  intros [= _ <-]. reflexivity.
Qed.


End Identity.

(** The part of C5 the code keeps: an [ingest] that reports a match has
    created neither a client nor a case. *)
Lemma matched_ingest_creates_nothing (env : environment) (turns : turns_obj)
    (law_firm_id : option nat) (st st' : state)
    (communication : ClientCommunication.t) (result : IntakeExtractionResult) :
  ingest env turns law_firm_id st = (st', Return (communication, result, true)) ->
  intake_client (db st') = intake_client (db st)
  /\ length (intake_case (db st')) = length (intake_case (db st)).
Proof.
  intros H. unfold ingest in H.
  step_in H records st1 found Hr1 Hcall.
  step_in H records st2 law_firm Hr2 Hfirm.
  step_in H records st3 info Hr3 Hinfo.
  step_in H records st4 existing Hr4 Hexisting.
  destruct existing as [[client case] |].
  - step_in H records st5 triple Hr5 Htriple.
    injection Htriple as <- <-. cbv beta iota in H.
    do 9 step_anon H records.
    unfold ret in H. injection H as <- _ _.
    match goal with
    | |- intake_client (db ?s) = _ /\ _ =>
        assert (Hall : records s = records st) by congruence
    end.
    unfold records in Hall. injection Hall as Hclients Hcases. auto.
  - exfalso.
    rewrite bind_assoc in H. unfold bind at 1 in H.
    destruct (objects_get_or_create "Client" intake_client set_intake_client _ _ st4)
      as [st5 [[client created] | e]]; [| discriminate H].
    cbv beta iota in H.
    rewrite bind_assoc in H. unfold bind at 1 in H.
    destruct (uuid4 st5) as [st6 [number | e]]; [| discriminate H].
    rewrite bind_assoc in H. unfold bind at 1 in H.
    destruct (objects_create intake_case set_intake_case _ st6) as [st7 [case | e]];
      [| discriminate H].
    unfold bind at 1 in H. unfold ret at 1 in H. cbv beta iota in H.
    do 9 step_anon H records.
    unfold ret in H. discriminate H.
Qed.



(** The inputs of C1: a one-turn transcript answered with the JSON object
    that has no [findings] key. *)
Lemma call_llm_absent_findings_key_witness :
  snd (_call_llm (Scenario.replying (JSON (Object KeyAbsent))) Scenario.turns
         (Scenario.with_db empty_database)) = Return []
  /\ _findings_cache (fst (_call_llm (Scenario.replying (JSON (Object KeyAbsent)))
                             Scenario.turns (Scenario.with_db empty_database)))
     = Some {| turns_id := 7; data := [] |}.
Proof.
  apply (@call_llm_absent_findings_key (Scenario.replying (JSON (Object KeyAbsent)))
           Scenario.turns (Scenario.with_db empty_database)).
  - reflexivity.
  - discriminate.
  - exists "sk-test". split; [reflexivity | discriminate].
  - reflexivity.
Defined.



(** ** Re-ingesting the same call *)

(** Ingesting a call twice into an empty storage: the second request
    matches, and there is one client and one case. *)
Example reingest_from_empty :
  Scenario.matched_flag
    (ingest (Scenario.replying (JSON (Object (AList (Scenario.intake "Jane Smith")))))
       Scenario.turns_again None
       (Scenario.next_request
          (ingest (Scenario.replying (JSON (Object (AList (Scenario.intake "Jane Smith")))))
             Scenario.turns None (Scenario.with_db empty_database))))
  = Some true
  /\ length (intake_client (db (fst
       (ingest (Scenario.replying (JSON (Object (AList (Scenario.intake "Jane Smith")))))
          Scenario.turns_again None
          (Scenario.next_request
             (ingest (Scenario.replying (JSON (Object (AList (Scenario.intake "Jane Smith")))))
                Scenario.turns None (Scenario.with_db empty_database))))))) = 1
  /\ length (intake_case (db (fst
       (ingest (Scenario.replying (JSON (Object (AList (Scenario.intake "Jane Smith")))))
          Scenario.turns_again None
          (Scenario.next_request
             (ingest (Scenario.replying (JSON (Object (AList (Scenario.intake "Jane Smith")))))
                Scenario.turns None (Scenario.with_db empty_database))))))) = 1.
Proof.
  repeat split; vm_compute; reflexivity.
Qed.

(** C5 (the code departs from it). The firm has two clients whose names
    differ in letter case only, the older one spelled as the caller spells
    it.  The first ingest finds no case, fetches the older client by the
    exact name and creates a case for it.  The second ingest of the same
    call looks at the newer client alone, finds no case again, reports no
    match and creates a second case for the same client and date. *)
Theorem reingest_creates_second_case :
  Scenario.matched_flag
    (ingest (Scenario.replying (JSON (Object (AList (Scenario.intake "Jane Smith")))))
       Scenario.turns_again (Some 1)
       (Scenario.next_request
          (ingest (Scenario.replying (JSON (Object (AList (Scenario.intake "Jane Smith")))))
             Scenario.turns (Some 1) (Scenario.with_db Scenario.two_spellings))))
  = Some false
  /\ map (fun c => (Case.client c, Case.incident_date c))
         (intake_case (db (fst
            (ingest (Scenario.replying (JSON (Object (AList (Scenario.intake "Jane Smith")))))
               Scenario.turns_again (Some 1)
               (Scenario.next_request
                  (ingest (Scenario.replying
                             (JSON (Object (AList (Scenario.intake "Jane Smith")))))
                     Scenario.turns (Some 1)
                     (Scenario.with_db Scenario.two_spellings)))))))
     = [(2, Some Scenario.march_3); (2, Some Scenario.march_3)].
Proof.
  split; vm_compute; reflexivity.
Qed.

(** The storage of C5 comes about through [ingest] alone.  After the calls
    of Jane Smith (March 3rd) and of "jane smith" (May 5th) there are two
    clients; the July 7th call of Jane Smith creates a case for the older
    one, and its repetition reports no match and creates that case again. *)
Example reingest_after_respelled_caller :
  map (fun c => (Client.id c, Client.first_name c, Client.last_name c))
      (intake_client (db (fst (Scenario.ingested 3))))
  = [(2, "Jane", "Smith"); (10, "jane", "smith")]
  /\ Scenario.matched_flag (Scenario.ingested 2) = Some false
  /\ Scenario.matched_flag (Scenario.ingested 3) = Some false
  /\ map (fun c => (Case.client c, Case.incident_date c))
         (intake_case (db (fst (Scenario.ingested 3))))
     = [(2, Some Scenario.march_3); (10, Some {| toordinal := 739011 |});
        (2, Some {| toordinal := 739074 |}); (2, Some {| toordinal := 739074 |})].
Proof.
  repeat split; vm_compute; reflexivity.
Qed.

(** ** The remaining risk flags *)

Section OtherFlags.

Variable env : environment.

(** X1. The flags come out in one fixed order and none comes twice: the
    list is the five known flags with some of them left out. *)
Theorem flag_risks_fixed_order (st : state) (result : IntakeExtractionResult) :
  exists keep : string -> bool,
    _flag_risks env st result = filter keep RISK_FLAGS.
Proof.
  exists (fun f => existsb (String.eqb f) (_flag_risks env st result)).
  unfold _flag_risks, RISK_FLAGS.
  destruct (incident_date result) as [d |];
    [cbv zeta; destruct (600 <? toordinal (today env) - toordinal d)%Z |];
    (destruct (incident_type result) as [t |];
     [destruct (insurance_carriers result); [destruct (String.eqb t "auto") |] |]);
    destruct (1 <? length (other_parties result));
    destruct (Py.any_in ["pre-existing"; "prior injury"; "previous condition"; "prior condition"] _);
    destruct (Py.any_in ["disputed"; "dispute"; "denied liability"; "deny liability"; "not at fault"] _);
    reflexivity.
Qed.

(** X2. [multiple_defendants] is among the flags exactly when more than one
    other party was extracted; a single other party is not flagged. *)
Theorem multiple_defendants_iff (st : state) (result : IntakeExtractionResult) :
  In "multiple_defendants" (_flag_risks env st result)
  <-> 2 <= length (other_parties result).
Proof.
  unfold _flag_risks. rewrite !in_app_iff. split.
  - intros [H | [H | [H | [H | H]]]].
    + destruct (incident_date result); [| contradiction].
      cbv zeta in H. apply in_optional_flag in H. destruct H as [_ H]. discriminate H.
    + destruct (incident_type result); [| contradiction].
      destruct (insurance_carriers result); [| contradiction].
      apply in_optional_flag in H. destruct H as [_ H]. discriminate H.
    + apply in_optional_flag in H. destruct H as [H _]. apply Nat.ltb_lt in H. lia.
    + apply in_optional_flag in H. destruct H as [_ H]. discriminate H.
    + apply in_optional_flag in H. destruct H as [_ H]. discriminate H.
  - intros Hlen. right. right. left. apply in_optional_flag.
    split; [apply Nat.ltb_lt; lia | reflexivity].
Qed.

(** X3. The two keyword flags depend on the cached findings alone:
    [pre_existing_condition] and [liability_disputed] are raised exactly
    when one of their keywords occurs in the lower-cased values of the cache,
    joined by blanks; a service without a cache raises neither. *)
Theorem keyword_flags_iff (st : state) (result : IntakeExtractionResult) :
  (In "pre_existing_condition" (_flag_risks env st result)
   <-> Py.any_in ["pre-existing"; "prior injury"; "previous condition"; "prior condition"]
         (scanned_text st) = true)
  /\ (In "liability_disputed" (_flag_risks env st result)
      <-> Py.any_in ["disputed"; "dispute"; "denied liability"; "deny liability";
                     "not at fault"] (scanned_text st) = true)
  /\ (_findings_cache st = None ->
      ~ In "pre_existing_condition" (_flag_risks env st result)
      /\ ~ In "liability_disputed" (_flag_risks env st result)).
Proof.
  assert (Hpre : In "pre_existing_condition" (_flag_risks env st result)
                 <-> Py.any_in ["pre-existing"; "prior injury"; "previous condition";
                                "prior condition"] (scanned_text st) = true).
  { unfold _flag_risks, scanned_text. rewrite !in_app_iff. split.
    - intros [H | [H | [H | [H | H]]]].
      + destruct (incident_date result); [| contradiction].
        cbv zeta in H. apply in_optional_flag in H. destruct H as [_ H]. discriminate H.
      + destruct (incident_type result); [| contradiction].
        destruct (insurance_carriers result); [| contradiction].
        apply in_optional_flag in H. destruct H as [_ H]. discriminate H.
      + apply in_optional_flag in H. destruct H as [_ H]. discriminate H.
      + apply in_optional_flag in H. destruct H as [H _]. exact H.
      + apply in_optional_flag in H. destruct H as [_ H]. discriminate H.
    - intros H. right. right. right. left. apply in_optional_flag. split; [exact H | reflexivity]. }
  assert (Hdis : In "liability_disputed" (_flag_risks env st result)
                 <-> Py.any_in ["disputed"; "dispute"; "denied liability"; "deny liability";
                                "not at fault"] (scanned_text st) = true).
  { unfold _flag_risks, scanned_text. rewrite !in_app_iff. split.
    - intros [H | [H | [H | [H | H]]]].
      + destruct (incident_date result); [| contradiction].
        cbv zeta in H. apply in_optional_flag in H. destruct H as [_ H]. discriminate H.
      + destruct (incident_type result); [| contradiction].
        destruct (insurance_carriers result); [| contradiction].
        apply in_optional_flag in H. destruct H as [_ H]. discriminate H.
      + apply in_optional_flag in H. destruct H as [_ H]. discriminate H.
      + apply in_optional_flag in H. destruct H as [_ H]. discriminate H.
      + apply in_optional_flag in H. destruct H as [H _]. exact H.
    - intros H. right. right. right. right. apply in_optional_flag.
      split; [exact H | reflexivity]. }
  split; [exact Hpre | split; [exact Hdis |]].
  intros Hnone. rewrite Hpre, Hdis. unfold scanned_text. rewrite Hnone.
  split; intros H; discriminate H.
Qed.

End OtherFlags.

(** ** Damages: category and amount *)

Section Damages.

(** X4. The category a damage is given is always one of the choices of
    [Damage.DamageCategory], and never [pain_suffering] or
    [future_lost_wages]; a value that mentions wages is [lost_wages]
    whatever else it mentions. *)
Theorem category_of_is_a_choice (value_lower : string) :
  In (category_of value_lower) (map fst Damage_DamageCategory)
  /\ category_of value_lower <> "pain_suffering"
  /\ category_of value_lower <> "future_lost_wages"
  /\ (Py.contains "wage" value_lower = true -> category_of value_lower = "lost_wages").
Proof.
  unfold category_of.
  repeat split.
  - repeat match goal with
           | |- context [if ?b then _ else _] => destruct b
           end; simpl; tauto.
  - repeat match goal with
           | |- context [if ?b then _ else _] => destruct b
           end; discriminate.
  - repeat match goal with
           | |- context [if ?b then _ else _] => destruct b
           end; discriminate.
  - intros H. unfold Py.any_in. cbn [existsb]. rewrite H. reflexivity.
Qed.









End Damages.



(** ** Shapes of the extracted entities *)

Section Shapes.

Variable env : environment.

Lemma lstrip_head (s : string) :
  match Py.lstrip s with
  | EmptyString => True
  | String c _ => Py.isspace c = false
  end.
Proof.
  induction s as [| c r IH]; simpl; [exact I |].
  destruct (Py.isspace c) eqn:Hc; [exact IH | exact Hc].
Qed.

Lemma rstrip_head (c : ascii) (r : string) :
  Py.isspace c = false -> exists r', Py.rstrip (String c r) = String c r'.
Proof.
  intros Hc. simpl. destruct (Py.rstrip r); rewrite ?Hc; eauto.
Qed.

Lemma rstrip_end (s : string) : ends_in_space (Py.rstrip s) = false.
Proof.
  induction s as [| c r IH]; simpl; [reflexivity |].
  destruct (Py.rstrip r) as [| d r'] eqn:Hr.
  - destruct (Py.isspace c) eqn:Hc; simpl; [reflexivity | exact Hc].
  - exact IH.
Qed.

(** A stripped string neither starts nor ends with white space. *)
Lemma strip_shape (s : string) :
  match Py.strip s with
  | EmptyString => True
  | String c _ => Py.isspace c = false
  end
  /\ ends_in_space (Py.strip s) = false.
Proof.
  unfold Py.strip. split; [| apply rstrip_end].
  pose proof (lstrip_head s) as H.
  destruct (Py.lstrip s) as [| c r]; [exact I |].
  destruct (rstrip_head c r H) as [r1 ->]. exact H.
Qed.

Lemma ends_in_space_app (a : string) (c : ascii) :
  ends_in_space (a ++ String c "") = Py.isspace c.
Proof.
  induction a as [| d r IH]; [reflexivity |].
  change (ends_in_space (String d (r ++ String c ""))
          = Py.isspace c).
  cbn [ends_in_space]. destruct (r ++ String c "")%string eqn:Hr; [| exact IH].
  destruct r; discriminate Hr.
Qed.

Lemma split_once_parts (s a b : string) :
  Py.split_once " " s = Some (a, b) ->
  s = (a ++ String " " b)%string /\ Py.contains " " a = false.
Proof.
  revert a. induction s as [| c r IH]; intros a; [discriminate |].
  cbn [Py.split_once].
  destruct (Ascii.eqb c " ") eqn:Hc.
  - intros [= <- <-]. apply Ascii.eqb_eq in Hc. subst c. split; reflexivity.
  - destruct (Py.split_once " " r) as [[a' b'] |]; [| discriminate].
    intros [= <- <-]. destruct (IH a' eq_refl) as [-> Ha]. split; [reflexivity |].
    cbn [Py.contains Py.startswith]. rewrite andb_true_r, Ascii.eqb_sym, Hc. exact Ha.
Qed.

Lemma split_once_none_inv (s : string) :
  Py.split_once " " s = None -> Py.contains " " s = false.
Proof.
  induction s as [| d t IH]; [reflexivity |].
  cbn [Py.split_once Py.contains Py.startswith]. rewrite andb_true_r.
  rewrite (Ascii.eqb_sym " " d).
  destruct (Ascii.eqb d " "); [discriminate |].
  destruct (Py.split_once " " t) as [[] |]; [discriminate |]. simpl. auto.
Qed.

(** The two names read from a stripped, non-empty name: a last name that is
    not empty, and a first name without a blank that is empty only when the
    whole name has no blank. *)
Lemma first_last_of_stripped (s : string) :
  Py.truthy (Py.strip s) = true ->
  snd (first_last (Py.strip s)) <> ""
  /\ Py.contains " " (fst (first_last (Py.strip s))) = false
  /\ (fst (first_last (Py.strip s)) = "" ->
      snd (first_last (Py.strip s)) = Py.strip s /\ Py.contains " " (Py.strip s) = false).
Proof.
  intros Hv. destruct (strip_shape s) as [Hhead Hend].
  destruct (Py.strip s) as [| c r] eqn:Hs; [discriminate |].
  unfold first_last, Py.split1.
  destruct (Py.split_once " " (String c r)) as [[a b] |] eqn:Hsplit; simpl.
  - destruct (split_once_parts _ Hsplit) as [Heq Ha].
    split; [| split; [exact Ha |]].
    + intros ->. rewrite Heq in Hend.
      rewrite (ends_in_space_app a " ") in Hend. discriminate Hend.
    + intros ->. simpl in Heq. injection Heq as -> _. discriminate Hhead.
  - split; [discriminate | split; [reflexivity |]]. intros _. split; [reflexivity |].
    exact (split_once_none_inv _ Hsplit).
Qed.

(** The findings of a family carry their stripped value, and it is not
    empty. *)
Lemma family_values (fld : string) (findings : list finding) (f : finding) (v : string) :
  In (f, v) (family fld findings) ->
  In f findings /\ field f = fld /\ v = Py.strip (jstr (value f) "")
  /\ Py.truthy v = true.
Proof.
  unfold family. rewrite in_flat_map. intros [g [Hg Hin]].
  destruct (is_individual g && String.eqb (field g) fld) eqn:Hfam; [| contradiction].
  apply andb_true_iff in Hfam. destruct Hfam as [_ Hfld]. apply String.eqb_eq in Hfld.
  cbv zeta in Hin.
  destruct (Py.truthy (Py.strip (jstr (value g) ""))) eqn:Hv; [| contradiction].
  destruct Hin as [[= <- <-] | []]. auto.
Qed.

Lemma cited_text_of (f : finding) (v : string) :
  Py.truthy v = true -> _cited_text (citation_of f v) <> "".
Proof.
  intros Hv. unfold citation_of, if_set. simpl.
  destruct (jget (quote f)) as [q |]; [destruct (Py.truthy q) eqn:Hq |];
    intros Heq; rewrite Heq in *; discriminate.
Qed.

(** X7. Every other party the extraction returns is either a company, with
    its name in [company_name] and both person names empty, or a person,
    with no company name, a last name that is not empty and a first name
    without a blank; its role is the at-fault party, and the text it cites
    is not empty. *)
Theorem extracted_party_shape (turns : turns_obj) (st st' : state)
    (parties : list party_dict) :
  _extract_parties env turns st = (st', Return parties) ->
  forall p, In p parties ->
    party_role p = "at-fault party"
    /\ _cited_text (party_citation p) <> ""
    /\ ((party_company_name p <> "" /\ party_first_name p = "" /\ party_last_name p = "")
        \/ (party_company_name p = "" /\ party_last_name p <> ""
            /\ Py.contains " " (party_first_name p) = false)).
Proof.
  unfold _extract_parties, bind, ret.
  destruct (_call_llm env turns st) as [st1 [findings | e]]; [| discriminate].
  intros [= _ <-] p Hp. apply in_map_iff in Hp. destruct Hp as [[f v] [<- Hin]].
  apply family_values in Hin. destruct Hin as [_ [_ [Hv Htruthy]]].
  match goal with
  | |- context [if ?b then _ else _] => destruct b
  end; cbn [party_role party_citation party_company_name party_first_name party_last_name].
  - split; [reflexivity |]. split; [apply cited_text_of; exact Htruthy |].
    left. split; [| split; reflexivity].
    intros ->. discriminate Htruthy.
  - split; [reflexivity |]. split; [apply cited_text_of; exact Htruthy |].
    right. split; [reflexivity |]. subst v.
    destruct (first_last_of_stripped _ Htruthy) as [Hlast [Hfirst _]]. auto.
Qed.

End Shapes.

Section Honorific.

Variable env : environment.

Lemma append_assoc (a b c : string) : ((a ++ b) ++ c = a ++ (b ++ c))%string.
Proof. induction a as [| x a IH]; simpl; [| rewrite IH]; reflexivity. Qed.

Lemma substring_suffix (n : nat) (s : string) (m : nat) :
  String.length s <= m -> exists pre, s = (pre ++ String.substring n m s)%string.
Proof.
  revert s m. induction n as [| n IH]; intros s m Hlen.
  - exists "". simpl. revert m Hlen. induction s as [| c r IHs]; intros m Hlen.
    + destruct m; reflexivity.
    + destruct m as [| m]; [simpl in Hlen; lia |].
      simpl. rewrite <- IHs; [reflexivity | simpl in Hlen; lia].
  - destruct s as [| c r].
    + exists "". reflexivity.
    + simpl in Hlen. destruct (IH r m ltac:(lia)) as [pre Hpre].
      exists (String c pre). simpl. rewrite <- Hpre. reflexivity.
Qed.

Lemma after_prefix_ci_suffix (p s r : string) :
  after_prefix_ci p s = Some r -> exists pre, s = (pre ++ r)%string.
Proof.
  unfold after_prefix_ci.
  destruct (Py.startswith p (Py.lower (Py.slice_to (String.length p) s))); [| discriminate].
  intros [= <-]. apply substring_suffix. lia.
Qed.

Lemma ends_in_space_suffix (pre t : string) :
  t <> "" -> ends_in_space (pre ++ t) = ends_in_space t.
Proof.
  intros Ht. induction pre as [| c r IH]; [reflexivity |].
  change (ends_in_space (String c (r ++ t)) = ends_in_space t).
  cbn [ends_in_space]. destruct (r ++ t)%string eqn:Hr; [| exact IH].
  destruct r; [simpl in Hr; contradiction | discriminate Hr].
Qed.

Lemma inked (t : string) :
  t <> "" -> ends_in_space t = false -> every Py.isspace t = false.
Proof.
  induction t as [| c r IH]; [contradiction |].
  intros _ Hend. simpl. destruct r as [| d r'].
  - simpl in Hend. rewrite Hend. reflexivity.
  - rewrite IH; [apply andb_false_r | discriminate | exact Hend].
Qed.

Lemma strip_inked (t : string) :
  every Py.isspace t = false -> Py.truthy (Py.strip t) = true.
Proof.
  unfold Py.strip. induction t as [| c r IH]; [discriminate |].
  simpl. destruct (Py.isspace c) eqn:Hc; simpl.
  - exact IH.
  - intros _. destruct (Py.rstrip r); rewrite ?Hc; reflexivity.
Qed.

Lemma lstrip_inked (t : string) :
  every Py.isspace t = false -> every Py.isspace (Py.lstrip t) = false.
Proof.
  induction t as [| c r IH]; [discriminate |].
  simpl. destruct (Py.isspace c) eqn:Hc; simpl; [exact IH | rewrite Hc; reflexivity].
Qed.

(** What is left after the blanks that follow an honorific, when the whole
    does not end in white space, has a character that is not white space. *)
Lemma after_spaces_inked (pre r rest : string) :
  ends_in_space (pre ++ r) = false -> after_spaces r = Some rest ->
  every Py.isspace rest = false.
Proof.
  unfold after_spaces. destruct r as [| c r']; [discriminate |].
  destruct (Py.isspace c) eqn:Hc; [| discriminate].
  intros Hend [= <-]. apply lstrip_inked.
  rewrite ends_in_space_suffix in Hend by discriminate.
  destruct r' as [| d r'']; [simpl in Hend; congruence |].
  apply inked; [discriminate | exact Hend].
Qed.

(** The name of an individual provider, honorific removed, is not empty. *)
Lemma provider_name_inked (s : string) :
  Py.truthy (Py.strip s) = true ->
  Py.truthy (Py.strip (sub_honorific (Py.strip s))) = true.
Proof.
  intros Hv. destruct (strip_shape s) as [_ Hend].
  set (v := Py.strip s) in *.
  assert (Hself : Py.truthy (Py.strip v) = true).
  { apply strip_inked. apply inked; [| exact Hend].
    intros Heq. rewrite Heq in Hv. discriminate Hv. }
  assert (Hrest : forall p r rest,
             after_prefix_ci p v = Some r -> after_spaces r = Some rest ->
             Py.truthy (Py.strip rest) = true).
  { intros p r rest Hp Hsp. apply after_prefix_ci_suffix in Hp. destruct Hp as [pre Hpre].
    apply strip_inked. apply (after_spaces_inked pre r); [rewrite <- Hpre; exact Hend | exact Hsp]. }
  assert (Hdot : forall p r rest,
             after_prefix_ci p v = Some (String "." r) -> after_spaces r = Some rest ->
             Py.truthy (Py.strip rest) = true).
  { intros p r rest Hp Hsp. apply after_prefix_ci_suffix in Hp. destruct Hp as [pre Hpre].
    apply strip_inked. apply (after_spaces_inked (pre ++ ".") r); [| exact Hsp].
    rewrite append_assoc. simpl. rewrite <- Hpre. exact Hend. }
  unfold sub_honorific.
  destruct (after_prefix_ci "dr" v) as [r |] eqn:Hdr.
  - assert (Hcase : forall got, match r with
                                | String "." r' => after_spaces r'
                                | _ => after_spaces r
                                end = Some got -> Py.truthy (Py.strip got) = true).
    { intros got Hgot. destruct r as [| c r']; [discriminate Hgot |].
      destruct (Ascii.eqb c ".") eqn:Hc.
      - apply Ascii.eqb_eq in Hc. subst c. exact (Hdot _ _ _ Hdr Hgot).
      - assert (Hsame : after_spaces (String c r') = Some got).
        { destruct c as [[] [] [] [] [] [] [] []]; try exact Hgot. discriminate Hc. }
        exact (Hrest _ _ _ Hdr Hsame). }
    destruct (match r with
              | String "." r' => after_spaces r'
              | _ => after_spaces r
              end) as [got |] eqn:Hgot.
    + exact (Hcase got eq_refl).
    + destruct (after_prefix_ci "doctor" v) as [r2 |] eqn:Hdoc; [| exact Hself].
      destruct (after_spaces r2) as [rest |] eqn:Hsp; [| exact Hself].
      exact (Hrest _ _ _ Hdoc Hsp).
  - destruct (after_prefix_ci "doctor" v) as [r2 |] eqn:Hdoc; [| exact Hself].
    destruct (after_spaces r2) as [rest |] eqn:Hsp; [| exact Hself].
    exact (Hrest _ _ _ Hdoc Hsp).
Qed.

(** X8. Every medical provider the extraction returns is either a facility,
    with its name in [facility_name] and both person names empty, or an
    individual, with no facility name, a last name that is not empty and a
    first name without a blank; specialty, treatment type and diagnosis are
    always empty. *)
Theorem extracted_provider_shape (turns : turns_obj) (st st' : state)
    (medical : list medical_dict) :
  _extract_medical env turns st = (st', Return medical) ->
  forall m, In m medical ->
    med_specialty m = "" /\ med_treatment_type m = "" /\ med_diagnosis m = ""
    /\ _cited_text (med_citation m) <> ""
    /\ ((med_facility_name m <> "" /\ med_first_name m = "" /\ med_last_name m = "")
        \/ (med_facility_name m = "" /\ med_last_name m <> ""
            /\ Py.contains " " (med_first_name m) = false)).
Proof.
  unfold _extract_medical, bind, ret.
  destruct (_call_llm env turns st) as [st1 [findings | e]]; [| discriminate].
  intros [= _ <-] m Hm. apply in_map_iff in Hm. destruct Hm as [[f v] [<- Hin]].
  apply family_values in Hin. destruct Hin as [_ [_ [Hv Htruthy]]].
  match goal with
  | |- context [if ?b then _ else _] => destruct b
  end; cbv zeta;
    cbn [med_specialty med_treatment_type med_diagnosis med_citation med_facility_name
         med_first_name med_last_name].
  - repeat (split; [reflexivity |]). split; [apply cited_text_of; exact Htruthy |].
    left. split; [| split; reflexivity].
    intros ->. discriminate Htruthy.
  - repeat (split; [reflexivity |]). split; [apply cited_text_of; exact Htruthy |].
    right. split; [reflexivity |]. subst v.
    pose proof (provider_name_inked _ Htruthy) as Hname.
    destruct (first_last_of_stripped _ Hname) as [Hlast [Hfirst _]]. auto.
Qed.

End Honorific.

(** ** What a step adds to a table *)

Section Growth.

Context {R : Type} (table : state -> list R) (P : R -> Prop).

Lemma grows_framed {A : Type} (m : M A) : framed table anything m -> grows_by table P m.
Proof.
  intros H st. exists []. rewrite app_nil_r. split; [apply H; exact I | constructor].
Qed.

Lemma grows_ret {A : Type} (a : A) : grows_by table P (ret a).
Proof. apply grows_framed, framed_ret. Qed.

Lemma grows_raise {A : Type} (e : exn) : grows_by table P (@raise A e).
Proof. apply grows_framed, framed_raise. Qed.

Lemma grows_bind {A B : Type} (m : M A) (k : A -> M B) :
  grows_by table P m -> (forall a, grows_by table P (k a)) -> grows_by table P (bind m k).
Proof.
  intros Hm Hk st. unfold bind. destruct (Hm st) as [new1 [H1 HP1]].
  destruct (m st) as [st1 [a | e]]; simpl in *.
  - destruct (Hk a st1) as [new2 [H2 HP2]]. exists (new1 ++ new2).
    rewrite H2, H1, app_assoc. split; [reflexivity | apply Forall_app; auto].
  - exists new1. auto.
Qed.

Lemma grows_for_each {A : Type} (xs : list A) (body : A -> M unit) :
  (forall x, grows_by table P (body x)) -> grows_by table P (for_each xs body).
Proof.
  intros Hbody. induction xs as [| x rest IH]; simpl.
  - apply grows_ret.
  - apply grows_bind; [apply Hbody | intros _; exact IH].
Qed.

Lemma grows_try_except {A : Type} (body : M A) (handler : exn -> M A) :
  grows_by table P body -> (forall e, grows_by table P (handler e)) ->
  grows_by table P (try_except body handler).
Proof.
  intros Hb Hh st. unfold try_except. destruct (Hb st) as [new1 [H1 HP1]].
  destruct (body st) as [st1 [a | e]]; simpl in *.
  - exists new1. auto.
  - destruct (Hh e st1) as [new2 [H2 HP2]]. exists (new1 ++ new2).
    rewrite H2, H1, app_assoc. split; [reflexivity | apply Forall_app; auto].
Qed.

End Growth.

(** Splits a goal [grows_by table P m] along the shape of [m]. *)
Ltac grows_split :=
  repeat match goal with
         | |- grows_by _ _ (ret _) => apply grows_ret
         | |- grows_by _ _ (raise _) => apply grows_raise
         | |- grows_by _ _ (bind _ _) => apply grows_bind; [| intros ]
         | |- grows_by _ _ (for_each _ _) => apply grows_for_each; intros
         | |- grows_by _ _ (try_except _ _) => apply grows_try_except; [| intros ]
         | |- grows_by _ _ (match ?x with _ => _ end) => destruct x
         | |- grows_by _ _ (if ?x then _ else _) => destruct x
         end.

(** A step that leaves the table alone adds nothing to it. *)
Ltac grows_quiet := apply grows_framed; framed_auto.

Section Citing.

Variable env : environment.

Lemma confidence_score_of_range (c : option string) :
  In (confidence_score_of c) [4; 7; 10].
Proof.
  unfold confidence_score_of, _CONF, dict_get.
  repeat match goal with
         | |- context [if ?b then _ else _] => destruct b
         end; simpl; tauto.
Qed.

Lemma create_citation_grows (P : ClientCommunicationCitation.t -> Prop)
    (communication : ClientCommunication.t) (key quoted : string)
    (turn_index : option Z) (score : nat) :
  (forall new_pk,
      P {| ClientCommunicationCitation.id := new_pk;
           ClientCommunicationCitation.communication := ClientCommunication.id communication;
           ClientCommunicationCitation.citation_key := key;
           ClientCommunicationCitation.cited_text := quoted;
           ClientCommunicationCitation.turn_index := turn_index;
           ClientCommunicationCitation.confidence_score := score |}) ->
  grows_by citations P (create_citation env communication key quoted turn_index score).
Proof.
  intros HP st.
  unfold create_citation, objects_create, uuid4, bind, get_db, put_db, ret, raise, citations.
  cbv beta iota zeta.
  destruct (citation_write_fails env _); simpl.
  - exists []. rewrite app_nil_r. split; [reflexivity | constructor].
  - eexists. split; [reflexivity |]. constructor; [apply HP | constructor].
Qed.

Lemma create_reference_grows (P : CitationReference.t -> Prop)
    (cit : ClientCommunicationCitation.t) (obj : model_obj) (label : string) :
  (forall new_pk,
      P {| CitationReference.id := new_pk;
           CitationReference.citation := ClientCommunicationCitation.id cit;
           CitationReference.content_type := ct_model obj;
           CitationReference.object_id := pk obj;
           CitationReference.relationship_label := label |}) ->
  grows_by references P (create_reference env cit obj label).
Proof.
  intros HP st.
  unfold create_reference, objects_create, uuid4, bind, get_db, put_db, ret, raise, references.
  cbv beta iota zeta.
  destruct (reference_write_fails env _); simpl.
  - exists []. rewrite app_nil_r. split; [reflexivity | constructor].
  - eexists. split; [reflexivity |]. constructor; [apply HP | constructor].
Qed.

(** X9. [persist] only appends to the stored citations.  Each citation it
    appends belongs to the communication it was given, has the key of an
    other party, a medical provider or a financial expense, and a confidence
    of 0.4, 0.7 or 1.0; without a communication it appends none. *)
Theorem persist_citations (case : Case.t) (result : IntakeExtractionResult)
    (communication : option ClientCommunication.t) (st : state) :
  exists new,
    citations (fst (persist env case result communication st)) = citations st ++ new
    /\ Forall (fun c =>
         exists comm, communication = Some comm
           /\ ClientCommunicationCitation.communication c = ClientCommunication.id comm
           /\ In (ClientCommunicationCitation.citation_key c)
                 ["other_party"; "medical_provider"; "financial_expense"]
           /\ In (ClientCommunicationCitation.confidence_score c) [4; 7; 10]) new.
Proof.
  revert st.
  change (grows_by citations
            (fun c =>
               exists comm, communication = Some comm
                 /\ ClientCommunicationCitation.communication c = ClientCommunication.id comm
                 /\ In (ClientCommunicationCitation.citation_key c)
                       ["other_party"; "medical_provider"; "financial_expense"]
                 /\ In (ClientCommunicationCitation.confidence_score c) [4; 7; 10])
            (persist env case result communication)).
  unfold persist.
  apply grows_bind; [grows_quiet | intros _].
  assert (Hcite : forall key data obj label,
             In key ["other_party"; "medical_provider"; "financial_expense"] ->
             grows_by citations
               (fun c =>
                  exists comm, communication = Some comm
                    /\ ClientCommunicationCitation.communication c = ClientCommunication.id comm
                    /\ In (ClientCommunicationCitation.citation_key c)
                          ["other_party"; "medical_provider"; "financial_expense"]
                    /\ In (ClientCommunicationCitation.confidence_score c) [4; 7; 10])
               (_cite env communication key data obj label)).
  { intros key data obj label Hkey. unfold _cite.
    destruct communication as [comm |]; [| apply grows_ret].
    apply grows_bind.
    - apply create_citation_grows. intros new_pk. exists comm. simpl.
      repeat split; [exact Hkey | apply confidence_score_of_range].
    - intros cit. grows_quiet. }
  apply grows_bind; [| intros _; apply grows_bind; [| intros _]].
  - apply grows_for_each. intros p. unfold persist_party.
    apply grows_bind; [grows_quiet | intros [party created]].
    destruct created; [apply Hcite; simpl; tauto | apply grows_ret].
  - apply grows_for_each. intros m. unfold persist_medical.
    apply grows_bind; [grows_quiet | intros facility].
    apply grows_bind; [grows_quiet | intros [provider created]].
    apply grows_bind; [| intros _; grows_quiet].
    destruct created; [apply Hcite; simpl; tauto | apply grows_ret].
  - apply grows_for_each. intros d. unfold persist_damage.
    apply grows_bind; [grows_quiet | intros [damage created]].
    destruct created; [apply Hcite; simpl; tauto | apply grows_ret].
Qed.

End Citing.

Section Referencing.

Variable env : environment.

Lemma reference_if_allowed_grows (cit : ClientCommunicationCitation.t)
    (obj : option model_obj) (label : string) :
  (forall o, obj = Some o ->
     In (ct_model o, label)
        [("client", "identified caller"); ("otherparty", "at-fault party");
         ("medicalprovider", "treating provider")]) ->
  grows_by references referenced (reference_if_allowed env cit obj label).
Proof.
  intros Hobj. unfold reference_if_allowed.
  destruct obj as [o |]; [| apply grows_ret].
  destruct (existsb _ _); [| apply grows_ret].
  apply create_reference_grows. intros new_pk. unfold referenced. simpl.
  exact (Hobj o eq_refl).
Qed.

Lemma cite_references (communication : option ClientCommunication.t) (key : string)
    (data : citation_meta) (obj : option model_obj) (label : string) :
  (forall o, obj = Some o ->
     In (ct_model o, label)
        [("client", "identified caller"); ("otherparty", "at-fault party");
         ("medicalprovider", "treating provider")]) ->
  grows_by references referenced (_cite env communication key data obj label).
Proof.
  intros Hobj. unfold _cite. destruct communication as [comm |]; [| apply grows_ret].
  apply grows_bind; [grows_quiet | intros cit].
  apply reference_if_allowed_grows. exact Hobj.
Qed.

Lemma cite_meta_references (communication : ClientCommunication.t) (key : string)
    (found : option finding) (obj : option model_obj) (label : string) :
  (forall o, obj = Some o ->
     In (ct_model o, label)
        [("client", "identified caller"); ("otherparty", "at-fault party");
         ("medicalprovider", "treating provider")]) ->
  grows_by references referenced (_cite_meta env communication key found obj label).
Proof.
  intros Hobj. unfold _cite_meta. destruct found as [f |]; [| apply grows_ret].
  apply grows_bind; [grows_quiet | intros cit].
  apply reference_if_allowed_grows. exact Hobj.
Qed.

Lemma persist_references (case : Case.t) (result : IntakeExtractionResult)
    (communication : option ClientCommunication.t) :
  grows_by references referenced (persist env case result communication).
Proof.
  unfold persist.
  apply grows_bind; [grows_quiet | intros _].
  apply grows_bind; [| intros _; apply grows_bind; [| intros _]].
  - apply grows_for_each. intros p. unfold persist_party.
    apply grows_bind; [grows_quiet | intros [party created]].
    destruct created; [| apply grows_ret].
    apply cite_references. intros o [= <-]. simpl. tauto.
  - apply grows_for_each. intros m. unfold persist_medical.
    apply grows_bind; [grows_quiet | intros facility].
    apply grows_bind; [grows_quiet | intros [provider created]].
    apply grows_bind; [| intros _; grows_quiet].
    destruct created; [| apply grows_ret].
    apply cite_references. intros o [= <-]. simpl. tauto.
  - apply grows_for_each. intros d. unfold persist_damage.
    apply grows_bind; [grows_quiet | intros [damage created]].
    destruct created; [| apply grows_ret].
    apply cite_references. intros o Ho. discriminate Ho.
Qed.

Lemma write_metadata_references (communication : ClientCommunication.t)
    (meta : list (string * finding)) (client : Client.t) :
  grows_by references referenced (_write_metadata_citations env communication meta client).
Proof.
  unfold _write_metadata_citations.
  repeat (apply grows_bind; [| intros _]);
    apply cite_meta_references; intros o Ho;
    [injection Ho as <-; simpl; tauto | discriminate Ho ..].
Qed.

(** X10. [ingest] only appends to the stored references, and every reference
    it appends points to a client as the identified caller, to an other
    party as the at-fault party or to a medical provider as the treating
    provider: never to a case, a damage or a treatment. *)
Theorem ingest_references (turns : turns_obj) (law_firm_id : option nat) (st : state) :
  exists new,
    references (fst (ingest env turns law_firm_id st)) = references st ++ new
    /\ Forall (fun r =>
         In (CitationReference.content_type r, CitationReference.relationship_label r)
            [("client", "identified caller"); ("otherparty", "at-fault party");
             ("medicalprovider", "treating provider")]) new.
Proof.
  revert st. change (grows_by references referenced (ingest env turns law_firm_id)).
  unfold ingest.
  grows_split;
    first [ apply persist_references | apply write_metadata_references | grows_quiet ].
Qed.

End Referencing.

Section Accepting.

Variable env : environment.

(** The storage takes every citation and every reference. *)
Hypothesis citations_taken : forall c, citation_write_fails env c = false.
Hypothesis references_taken : forall r, reference_write_fails env r = false.

Variables (case : Case.t) (communication : ClientCommunication.t).

Lemma balanced_bind {A : Type} (m : M unit) (k : M A) (st : state) :
  balanced st (m st) -> (forall st1, balanced st1 (k st1)) ->
  balanced st (bind m (fun _ => k) st).
Proof.
  unfold balanced, bind. intros [Hc Hr] Hk.
  destruct (m st) as [st1 [[] | e]]; simpl in *; [| auto].
  destruct (Hk st1) as [Hc1 Hr1]. split; lia.
Qed.

Lemma balanced_for_each {A : Type} (xs : list A) (body : A -> M unit) :
  (forall x st, balanced st (body x st)) ->
  forall st, balanced st (for_each xs body st).
Proof.
  intros Hbody. induction xs as [| x rest IH]; intros st; simpl.
  - split; reflexivity.
  - apply balanced_bind; [apply Hbody | exact IH].
Qed.

Lemma balanced_party (p : party_dict) (st : state) :
  balanced st (persist_party env case (Some communication) p st).
Proof.
  unfold balanced, persist_party, objects_get_or_create, objects_create, uuid4, _cite,
    create_citation, reference_if_allowed, create_reference, bind, get_db, put_db, ret,
    raise, cited_rows, referenced_rows, citations, references.
  cbv beta iota zeta.
  destruct (filter _ (intake_otherparty (db st))) as [| r [| r' rest]]; simpl;
    try (split; reflexivity).
  rewrite citations_taken. simpl. rewrite references_taken. simpl.
  rewrite !length_app. simpl. split; lia.
Qed.

Lemma balanced_damage (d : damage_dict) (st : state) :
  balanced st (persist_damage env case (Some communication) d st).
Proof.
  unfold balanced, persist_damage, objects_get_or_create, objects_create, uuid4, _cite,
    create_citation, reference_if_allowed, create_reference, bind, get_db, put_db, ret,
    raise, cited_rows, referenced_rows, citations, references.
  cbv beta iota zeta.
  destruct (filter _ (intake_damage (db st))) as [| r [| r' rest]]; simpl;
    try (split; reflexivity).
  rewrite citations_taken. simpl.
  rewrite !length_app. simpl. split; lia.
Qed.

Lemma balanced_medical (m : medical_dict) (st : state) :
  balanced st (persist_medical env case (Some communication) m st).
Proof.
  unfold balanced, persist_medical, objects_get_or_create, objects_create, uuid4, _cite,
    create_citation, reference_if_allowed, create_reference, bind, get_db, put_db, ret,
    raise, cited_rows, referenced_rows, citations, references.
  cbv beta iota zeta.
  destruct (Py.truthy (med_facility_name m)); simpl;
    repeat match goal with
           | |- context [match filter ?p ?l with _ => _ end] =>
               destruct (filter p l) as [| ? [| ? ?]]; simpl
           | |- context [citation_write_fails env ?c] => rewrite (citations_taken c); simpl
           | |- context [reference_write_fails env ?c] => rewrite (references_taken c); simpl
           end;
    rewrite ?length_app; simpl; (split; lia).
Qed.

Lemma balanced_update_case_fields (result : IntakeExtractionResult) (st : state) :
  balanced st (update_case_fields case result st).
Proof.
  unfold balanced, update_case_fields, save_case, bind, get_db, put_db, ret, cited_rows,
    referenced_rows, citations, references.
  destruct (incident_date result), (Case.incident_date case),
    (if_set (incident_type result)); simpl;
    try destruct (Py.truthy (Case.incident_type _)); simpl; split; reflexivity.
Qed.

(** X11. Under a storage that takes every write, [persist] with a
    communication writes one citation for each other party, medical provider
    and damage it creates, and one reference for each other party and
    medical provider it creates, however it ends; facts it finds stored
    get neither. *)
Theorem one_citation_per_created_fact (result : IntakeExtractionResult) (st : state) :
  let after := persist env case result (Some communication) st in
  length (citations (fst after)) + cited_rows st
    = length (citations st) + cited_rows (fst after)
  /\ length (references (fst after)) + referenced_rows st
     = length (references st) + referenced_rows (fst after).
Proof.
  cbv zeta. change (balanced st (persist env case result (Some communication) st)).
  unfold persist.
  apply balanced_bind; [apply balanced_update_case_fields |]. intros st1.
  apply balanced_bind; [apply balanced_for_each; apply balanced_party |]. intros st2.
  apply balanced_bind; [apply balanced_for_each; apply balanced_medical |]. intros st3.
  apply balanced_for_each. apply balanced_damage.
Qed.

End Accepting.

Section MetadataCitations.

Variable env : environment.

Hypothesis citations_taken : forall c, citation_write_fails env c = false.
Hypothesis references_taken : forall r, reference_write_fails env r = false.

(** X12. Under a storage that takes every write, [_write_metadata_citations]
    returns after writing one citation for each of the caller name, the
    accident date, the case type and the incident location that the
    findings hold, in this order and for the given communication.  The
    caller-name citation alone gets a reference, which points to the
    client. *)
Theorem metadata_citations_written (communication : ClientCommunication.t)
    (meta : list (string * finding)) (client : Client.t) (st : state) :
  let after := _write_metadata_citations env communication meta client st in
  snd after = Return tt
  /\ exists new,
       citations (fst after) = citations st ++ new
       /\ map (fun c => (ClientCommunicationCitation.citation_key c,
                         ClientCommunicationCitation.communication c)) new
          = map (fun key => (key, ClientCommunication.id communication))
                (filter (fun key => match dict_get meta key with
                                    | Some _ => true
                                    | None => false
                                    end)
                        ["caller_name"; "accident_date"; "case_type"; "incident_location"])
       /\ match dict_get meta "caller_name" with
          | Some _ =>
              exists c rest r,
                new = c :: rest
                /\ references (fst after) = references st ++ [r]
                /\ CitationReference.citation r = ClientCommunicationCitation.id c
                /\ CitationReference.content_type r = "client"
                /\ CitationReference.object_id r = Client.id client
                /\ CitationReference.relationship_label r = "identified caller"
          | None => references (fst after) = references st
          end.
Proof.
  cbv zeta.
  unfold _write_metadata_citations, _cite_meta, create_citation, reference_if_allowed,
    create_reference, objects_create, uuid4, bind, get_db, put_db, ret, raise,
    citations, references.
  cbv beta iota zeta.
  cbn [filter].
  destruct (dict_get meta "caller_name") as [f1 |];
    destruct (dict_get meta "accident_date") as [f2 |];
    destruct (dict_get meta "case_type") as [f3 |];
    destruct (dict_get meta "incident_location") as [f4 |];
    simpl;
    repeat match goal with
           | |- context [citation_write_fails env ?c] => rewrite (citations_taken c); simpl
           | |- context [reference_write_fails env ?c] => rewrite (references_taken c); simpl
           end;
    (split; [reflexivity |]);
    rewrite <- ?app_assoc; simpl;
    eexists; (split; [try reflexivity; symmetry; apply app_nil_r |]);
    (split; [reflexivity |]);
    try reflexivity;
    do 3 eexists; repeat split.
Qed.

End MetadataCitations.

(** ** Persisting the same result again *)

Section Upsert.

Variable env : environment.

(** The three ways [get_or_create] ends. *)
Lemma goc_cases {R : Type} (model : string) (table : database -> list R)
    (set_table : database -> list R -> database) (lookup : R -> bool) (row : nat -> R)
    (st : state) :
  (forall d l, table (set_table d l) = l) ->
  (forall d n, table (set_next_uuid d n) = table d) ->
  match filter lookup (table (db st)) with
  | [] =>
      exists st1,
        objects_get_or_create model table set_table lookup row st
          = (st1, Return (row (next_uuid (db st)), true))
        /\ table (db st1) = table (db st) ++ [row (next_uuid (db st))]
  | [r] =>
      objects_get_or_create model table set_table lookup row st = (st, Return (r, false))
  | _ :: _ :: _ =>
      objects_get_or_create model table set_table lookup row st
        = (st, Raise (MultipleObjectsReturned model))
  end.
Proof.
  intros Hget Huuid.
  unfold objects_get_or_create, objects_create, uuid4, bind, get_db, put_db, ret, raise.
  cbv beta iota.
  destruct (filter lookup (table (db st))) as [| r [| r' rest]]; simpl; try reflexivity.
  eexists. split; [reflexivity |]. simpl. rewrite Hget, Huuid. reflexivity.
Qed.

Lemma goc_appends {R : Type} (model : string) (table : database -> list R)
    (set_table : database -> list R -> database) (lookup : R -> bool) (row : nat -> R) :
  (forall d l, table (set_table d l) = l) ->
  (forall d n, table (set_next_uuid d n) = table d) ->
  grows_by (fun st => table (db st)) (fun _ => True)
    (objects_get_or_create model table set_table lookup row).
Proof.
  intros Hget Huuid st.
  pose proof (goc_cases model table set_table lookup row st Hget Huuid) as H.
  destruct (filter lookup (table (db st))) as [| r [| r' rest]].
  - destruct H as [st1 [-> Htab]]. simpl. rewrite Htab. eexists. split; [reflexivity |].
    repeat constructor.
  - rewrite H. exists []. rewrite app_nil_r. split; [reflexivity | constructor].
  - rewrite H. exists []. rewrite app_nil_r. split; [reflexivity | constructor].
Qed.

(** Splits a goal about what a step of [persist] appends to a table; the
    lookups on the table itself are left to [goc_appends]. *)
Ltac appends_auto :=
  unfold persist_party, persist_medical, persist_damage;
  grows_split;
  first [ apply goc_appends; intros; reflexivity
        | apply grows_framed; framed_auto ].

Lemma party_appends case communication p :
  grows_by (fun st => intake_otherparty (db st)) (fun _ => True)
    (persist_party env case communication p).
Proof. appends_auto. Qed.

Lemma medical_keeps_parties case communication m :
  grows_by (fun st => intake_otherparty (db st)) (fun _ => True)
    (persist_medical env case communication m).
Proof. appends_auto. Qed.

Lemma damage_keeps_parties case communication d :
  grows_by (fun st => intake_otherparty (db st)) (fun _ => True)
    (persist_damage env case communication d).
Proof. appends_auto. Qed.

Lemma medical_appends_facilities case communication m :
  grows_by (fun st => intake_medicalfacility (db st)) (fun _ => True)
    (persist_medical env case communication m).
Proof. appends_auto. Qed.

Lemma medical_appends_providers case communication m :
  grows_by (fun st => intake_medicalprovider (db st)) (fun _ => True)
    (persist_medical env case communication m).
Proof. appends_auto. Qed.

Lemma medical_appends_treatments case communication m :
  grows_by (fun st => intake_treatment (db st)) (fun _ => True)
    (persist_medical env case communication m).
Proof. appends_auto. Qed.

Lemma damage_keeps_facilities case communication d :
  grows_by (fun st => intake_medicalfacility (db st)) (fun _ => True)
    (persist_damage env case communication d).
Proof. appends_auto. Qed.

Lemma damage_keeps_providers case communication d :
  grows_by (fun st => intake_medicalprovider (db st)) (fun _ => True)
    (persist_damage env case communication d).
Proof. appends_auto. Qed.

Lemma damage_keeps_treatments case communication d :
  grows_by (fun st => intake_treatment (db st)) (fun _ => True)
    (persist_damage env case communication d).
Proof. appends_auto. Qed.

Lemma damage_appends case communication d :
  grows_by (fun st => intake_damage (db st)) (fun _ => True)
    (persist_damage env case communication d).
Proof. appends_auto. Qed.

(** What is stored stays stored while the tables only grow. *)
Lemma party_stored_kept {A : Type} (m : M A) (case_id : nat) (st : state) (p : party_dict) :
  grows_by (fun st => intake_otherparty (db st)) (fun _ => True) m ->
  party_stored case_id st p -> party_stored case_id (fst (m st)) p.
Proof.
  intros Hm [r [Hin Hkey]]. destruct (Hm st) as [new [Heq _]].
  exists r. split; [| exact Hkey]. rewrite Heq. apply in_or_app. left. exact Hin.
Qed.

Lemma damage_stored_kept {A : Type} (m : M A) (case_id : nat) (st : state) (d : damage_dict) :
  grows_by (fun st => intake_damage (db st)) (fun _ => True) m ->
  damage_stored case_id st d -> damage_stored case_id (fst (m st)) d.
Proof.
  intros Hm [r [Hin Hkey]]. destruct (Hm st) as [new [Heq _]].
  exists r. split; [| exact Hkey]. rewrite Heq. apply in_or_app. left. exact Hin.
Qed.

Lemma medical_stored_kept {A : Type} (m : M A) (case_id : nat) (st : state)
    (mp : medical_dict) :
  grows_by (fun st => intake_medicalfacility (db st)) (fun _ => True) m ->
  grows_by (fun st => intake_medicalprovider (db st)) (fun _ => True) m ->
  grows_by (fun st => intake_treatment (db st)) (fun _ => True) m ->
  medical_stored case_id st mp -> medical_stored case_id (fst (m st)) mp.
Proof.
  intros Hf Hp Ht [Hfac [p [Hin [Hkey [t [Htin Htkey]]]]]].
  destruct (Hf st) as [newf [Heqf _]]. destruct (Hp st) as [newp [Heqp _]].
  destruct (Ht st) as [newt [Heqt _]].
  split.
  - intros Hname. destruct (Hfac Hname) as [f [Hfin Hfname]].
    exists f. split; [| exact Hfname]. rewrite Heqf. apply in_or_app. left. exact Hfin.
  - exists p. split; [rewrite Heqp; apply in_or_app; left; exact Hin |].
    split; [exact Hkey |].
    exists t. split; [rewrite Heqt; apply in_or_app; left; exact Htin | exact Htkey].
Qed.

(** A loop whose steps store their entity and keep what is stored has
    stored all of them when it returns. *)
Lemma for_each_keeps {A B : Type} (stored : state -> B -> Prop) (body : A -> M unit) :
  (forall x y st, stored st y -> stored (fst (body x st)) y) ->
  forall xs y st, stored st y -> stored (fst (for_each xs body st)) y.
Proof.
  intros Hkeep xs y. induction xs as [| x rest IH]; intros st Hy; simpl; [exact Hy |].
  unfold bind. specialize (Hkeep x y st Hy).
  destruct (body x st) as [st1 [[] | e]]; simpl in *; [apply IH; exact Hkeep | exact Hkeep].
Qed.

Lemma for_each_settles {A : Type} (stored : state -> A -> Prop) (body : A -> M unit) :
  (forall x st st1, body x st = (st1, Return tt) -> stored st1 x) ->
  (forall x y st, stored st y -> stored (fst (body x st)) y) ->
  forall xs st st1, for_each xs body st = (st1, Return tt) ->
    forall x, In x xs -> stored st1 x.
Proof.
  intros Hsettle Hkeep xs. induction xs as [| a rest IH]; intros st st1 Hrun x Hx;
    [contradiction |].
  simpl in Hrun. unfold bind in Hrun.
  destruct (body a st) as [st' [[] | e]] eqn:Hbody; [| discriminate Hrun].
  destruct Hx as [<- | Hx].
  - pose proof (for_each_keeps stored body Hkeep rest a st' (Hsettle _ _ _ Hbody)) as H.
    rewrite Hrun in H. exact H.
  - exact (IH st' st1 Hrun x Hx).
Qed.

(** A loop over entities that are all stored changes nothing. *)
Lemma for_each_idle {A : Type} (stored : state -> A -> Prop) (body : A -> M unit) :
  (forall x st, stored st x -> fst (body x st) = st) ->
  forall xs st, (forall x, In x xs -> stored st x) -> fst (for_each xs body st) = st.
Proof.
  intros Hidle xs. induction xs as [| a rest IH]; intros st Hall; simpl; [reflexivity |].
  unfold bind. pose proof (Hidle a st (Hall a (or_introl eq_refl))) as Ha.
  destruct (body a st) as [st' [[] | e]]; simpl in Ha; subst st'; [| reflexivity].
  apply IH. intros x Hx. apply Hall. right. exact Hx.
Qed.

Lemma party_settles case communication p st st1 :
  persist_party env case communication p st = (st1, Return tt) ->
  party_stored (Case.id case) st1 p.
Proof.
  unfold persist_party, bind.
  match goal with
  | |- context [objects_get_or_create ?m ?t ?s ?l ?r st] =>
      pose proof (goc_cases m t s l r st (fun _ _ => eq_refl) (fun _ _ => eq_refl)) as H;
      destruct (filter l (t (db st))) as [| x [| y rest]] eqn:Hf
  end.
  - destruct H as [st' [-> Htab]]. cbv beta iota. intros Hcite.
    assert (Hsame : framed (fun s => intake_otherparty (db s)) anything
                      (_cite env communication "other_party" (party_citation p)
                         (Some (AnOtherParty
                            {| OtherParty.id := next_uuid (db st);
                               OtherParty.case := Case.id case;
                               OtherParty.first_name := party_first_name p;
                               OtherParty.last_name := party_last_name p;
                               OtherParty.company_name := party_company_name p;
                               OtherParty.role := party_role p |}))
                         "at-fault party")) by framed_auto.
    specialize (Hsame st' I). rewrite Hcite in Hsame. simpl in Hsame.
    eexists. split.
    + rewrite Hsame, Htab. apply in_or_app. right. left. reflexivity.
    + unfold party_key. simpl. rewrite Nat.eqb_refl, !String.eqb_refl. reflexivity.
  - rewrite H. intros [= <-]. exists x.
    assert (Hin : In x (filter (party_key (Case.id case) p) (intake_otherparty (db st))))
      by (unfold party_key; rewrite Hf; left; reflexivity).
    apply filter_In in Hin. exact Hin.
  - rewrite H. discriminate.
Qed.

Lemma party_idle case communication p st :
  party_stored (Case.id case) st p -> fst (persist_party env case communication p st) = st.
Proof.
  intros [r0 [Hin Hkey]]. unfold persist_party, bind.
  match goal with
  | |- context [objects_get_or_create ?m ?t ?s ?l ?r st] =>
      pose proof (goc_cases m t s l r st (fun _ _ => eq_refl) (fun _ _ => eq_refl)) as H;
      assert (Hfound : In r0 (filter l (t (db st))))
        by (apply filter_In; split; [exact Hin | exact Hkey]);
      destruct (filter l (t (db st))) as [| x [| y rest]]
  end.
  - contradiction.
  - rewrite H. reflexivity.
  - rewrite H. reflexivity.
Qed.

Lemma damage_settles case communication d st st1 :
  persist_damage env case communication d st = (st1, Return tt) ->
  damage_stored (Case.id case) st1 d.
Proof.
  unfold persist_damage, bind.
  match goal with
  | |- context [objects_get_or_create ?m ?t ?s ?l ?r st] =>
      pose proof (goc_cases m t s l r st (fun _ _ => eq_refl) (fun _ _ => eq_refl)) as H;
      destruct (filter l (t (db st))) as [| x [| y rest]] eqn:Hf
  end.
  - destruct H as [st' [-> Htab]]. cbv beta iota. intros Hcite.
    assert (Hsame : framed (fun s => intake_damage (db s)) anything
                      (_cite env communication "financial_expense" (dmg_citation d) None ""))
      by framed_auto.
    specialize (Hsame st' I). rewrite Hcite in Hsame. simpl in Hsame.
    eexists. split.
    + rewrite Hsame, Htab. apply in_or_app. right. left. reflexivity.
    + unfold damage_key. simpl. rewrite Nat.eqb_refl, String.eqb_refl. reflexivity.
  - rewrite H. intros [= <-]. exists x.
    assert (Hin : In x (filter (damage_key (Case.id case) d) (intake_damage (db st))))
      by (unfold damage_key; rewrite Hf; left; reflexivity).
    apply filter_In in Hin. exact Hin.
  - rewrite H. discriminate.
Qed.

Lemma damage_idle case communication d st :
  damage_stored (Case.id case) st d -> fst (persist_damage env case communication d st) = st.
Proof.
  intros [r0 [Hin Hkey]]. unfold persist_damage, bind.
  match goal with
  | |- context [objects_get_or_create ?m ?t ?s ?l ?r st] =>
      pose proof (goc_cases m t s l r st (fun _ _ => eq_refl) (fun _ _ => eq_refl)) as H;
      assert (Hfound : In r0 (filter l (t (db st))))
        by (apply filter_In; split; [exact Hin | exact Hkey]);
      destruct (filter l (t (db st))) as [| x [| y rest]]
  end.
  - contradiction.
  - rewrite H. reflexivity.
  - rewrite H. reflexivity.
Qed.


Lemma goc_returned {R : Type} (model : string) (table : database -> list R)
    (set_table : database -> list R -> database) (lookup : R -> bool) (row : nat -> R)
    (st st1 : state) (r : R) (created : bool) :
  (forall d l, table (set_table d l) = l) ->
  (forall d n, table (set_next_uuid d n) = table d) ->
  objects_get_or_create model table set_table lookup row st = (st1, Return (r, created)) ->
  In r (table (db st1)) /\ (lookup r = true \/ r = row (next_uuid (db st))).
Proof.
  intros Hget Huuid Hrun.
  pose proof (goc_cases model table set_table lookup row st Hget Huuid) as H.
  destruct (filter lookup (table (db st))) as [| x [| y rest]] eqn:Hf.
  - destruct H as [st' [H Htab]]. rewrite H in Hrun. injection Hrun as <- <- <-.
    split; [| right; reflexivity]. rewrite Htab. apply in_or_app. right. left. reflexivity.
  - rewrite H in Hrun. injection Hrun as <- <- <-.
    assert (Hin : In x (filter lookup (table (db st)))) by (rewrite Hf; left; reflexivity).
    apply filter_In in Hin. tauto.
  - rewrite H in Hrun. discriminate Hrun.
Qed.

(** With a row that meets the lookup in store, [get_or_create] changes
    nothing: it hands back the one such row, or raises when there are more. *)
Lemma goc_found {R : Type} (model : string) (table : database -> list R)
    (set_table : database -> list R -> database) (lookup : R -> bool) (row : nat -> R)
    (st : state) (r0 : R) :
  In r0 (table (db st)) -> lookup r0 = true ->
  (exists r, filter lookup (table (db st)) = [r]
             /\ objects_get_or_create model table set_table lookup row st
                = (st, Return (r, false)))
  \/ objects_get_or_create model table set_table lookup row st
     = (st, Raise (MultipleObjectsReturned model)).
Proof.
  intros Hin Hkey.
  assert (Hfound : In r0 (filter lookup (table (db st))))
    by (apply filter_In; split; assumption).
  unfold objects_get_or_create, bind, get_db. cbv beta iota.
  destruct (filter lookup (table (db st))) as [| x [| y rest]].
  - contradiction.
  - left. exists x. split; reflexivity.
  - right. reflexivity.
Qed.

Lemma bind_run {A B : Type} (m : M A) (k : A -> M B) (st st1 : state) (a : A) :
  m st = (st1, Return a) -> bind m k st = k a st1.
Proof. intros H. unfold bind. rewrite H. reflexivity. Qed.

Lemma bind_raise {A B : Type} (m : M A) (k : A -> M B) (st st1 : state) (e : exn) :
  m st = (st1, Raise e) -> bind m k st = (st1, Raise e).
Proof. intros H. unfold bind. rewrite H. reflexivity. Qed.

Lemma medical_idle case communication m st :
  medical_stored (Case.id case) st m ->
  fst (persist_medical env case communication m st) = st.
Proof.
  intros [Hfac [p [Hin [Hkey [t [Htin Htkey]]]]]].
  unfold persist_medical.
  assert (Hrest : forall facility,
             fst (bind
                    (objects_get_or_create "MedicalProvider" intake_medicalprovider
                       set_intake_medicalprovider
                       (fun r => String.eqb (MedicalProvider.first_name r) (med_first_name m)
                                 && String.eqb (MedicalProvider.last_name r) (med_last_name m))
                       (fun new_pk =>
                          {| MedicalProvider.id := new_pk; MedicalProvider.facility := facility;
                             MedicalProvider.first_name := med_first_name m;
                             MedicalProvider.last_name := med_last_name m;
                             MedicalProvider.specialty := med_specialty m |}))
                    (fun x => match x with
                              | (provider, created) =>
                                  bind (if created : bool
                                        then _cite env communication "medical_provider"
                                               (med_citation m)
                                               (Some (AMedicalProvider provider))
                                               "treating provider"
                                        else ret tt)
                                    (fun _ =>
                                       bind (objects_get_or_create "Treatment" intake_treatment
                                               set_intake_treatment
                                               (fun r => (Treatment.case r =? Case.id case)
                                                         && (Treatment.provider r
                                                             =? MedicalProvider.id provider))
                                               (fun new_pk =>
                                                  {| Treatment.id := new_pk;
                                                     Treatment.case := Case.id case;
                                                     Treatment.provider :=
                                                       MedicalProvider.id provider;
                                                     Treatment.treatment_type :=
                                                       med_treatment_type m;
                                                     Treatment.diagnosis := med_diagnosis m |}))
                                            (fun _ => ret tt))
                              end) st) = st).
  { intros facility.
    match goal with
    | |- context [bind (objects_get_or_create ?mo ?ta ?se ?lo ?ro) ?k st] =>
        destruct (goc_found mo ta se lo ro st p Hin Hkey) as [[found [Hone Hrun]] | Hrun];
        [rewrite (@bind_run _ _ _ k _ _ _ Hrun) | rewrite (@bind_raise _ _ _ k _ _ _ Hrun); reflexivity]
    end.
    assert (Hp : found = p).
    { assert (H : In p (filter (provider_key m) (intake_medicalprovider (db st))))
        by (apply filter_In; split; assumption).
      unfold provider_key in H. rewrite Hone in H. destruct H as [H | []]. exact H. }
    subst found. cbv beta iota.
    unfold bind at 1. unfold ret at 1. cbv beta iota.
    match goal with
    | |- context [bind (objects_get_or_create ?mo ?ta ?se ?lo ?ro) ?k st] =>
        destruct (goc_found mo ta se lo ro st t Htin Htkey) as [[found [_ Hrun2]] | Hrun2];
        [rewrite (@bind_run _ _ _ k _ _ _ Hrun2) | rewrite (@bind_raise _ _ _ k _ _ _ Hrun2)];
        reflexivity
    end. }
  destruct (Py.truthy (med_facility_name m)) eqn:Hname.
  - destruct (Hfac eq_refl) as [f [Hfin Hfname]].
    match goal with
    | |- fst (bind (bind (objects_get_or_create ?mo ?ta ?se ?lo ?ro) ?k1) ?k2 st) = st =>
        rewrite bind_assoc;
        destruct (goc_found mo ta se lo ro st f Hfin Hfname) as [[found [_ Hrun]] | Hrun];
        [rewrite (@bind_run _ _ _ _ _ _ _ Hrun) | rewrite (@bind_raise _ _ _ _ _ _ _ Hrun); reflexivity]
    end.
    cbv beta iota. unfold bind at 1. unfold ret at 1. cbv beta iota. apply Hrest.
  - unfold bind at 1. unfold ret at 1. cbv beta iota. apply Hrest.
Qed.


(** What a returned step left in a table it does not write to. *)
Ltac kept proj H Hn :=
  match type of H with
  | ?m ?s = (?s1, _) =>
      let F := fresh "F" in
      assert (F : framed proj (fun _ => True) m) by framed_auto;
      pose proof (F s I) as Hn; rewrite H in Hn; simpl in Hn; clear F
  end.

Lemma medical_settles case communication m st st1 :
  persist_medical env case communication m st = (st1, Return tt) ->
  medical_stored (Case.id case) st1 m.
Proof.
  unfold persist_medical. intros H.
  unfold bind at 1 in H.
  match type of H with
  | context [match ?step st with _ => _ end] =>
      destruct (step st) as [sa [facility | e]] eqn:Hfacility; [| discriminate H]
  end.
  unfold bind at 1 in H.
  match type of H with
  | context [match objects_get_or_create ?mo ?ta ?se ?lo ?ro sa with _ => _ end] =>
      destruct (objects_get_or_create mo ta se lo ro sa) as [sb [[provider created] | e]]
        eqn:Hprov; [| discriminate H]
  end.
  unfold bind at 1 in H.
  match type of H with
  | context [match ?step sb with _ => _ end] =>
      destruct (step sb) as [sc [[] | e]] eqn:Hcite; [| discriminate H]
  end.
  unfold bind at 1 in H.
  match type of H with
  | context [match objects_get_or_create ?mo ?ta ?se ?lo ?ro sc with _ => _ end] =>
      destruct (objects_get_or_create mo ta se lo ro sc) as [sd [[treatment made] | e]]
        eqn:Htreat; [| discriminate H]
  end.
  unfold ret in H. injection H as <-.
  kept (fun s => intake_medicalfacility (db s)) Hprov Hf1.
  kept (fun s => intake_medicalfacility (db s)) Hcite Hf2.
  kept (fun s => intake_medicalfacility (db s)) Htreat Hf3.
  kept (fun s => intake_medicalprovider (db s)) Hcite Hp2.
  kept (fun s => intake_medicalprovider (db s)) Htreat Hp3.
  apply goc_returned in Hprov; [| reflexivity ..].
  apply goc_returned in Htreat; [| reflexivity ..].
  destruct Hprov as [Hpin Hpkey]. destruct Htreat as [Htin Htkey].
  split.
  - intros Hname. rewrite Hname in Hfacility.
    unfold bind in Hfacility.
    match type of Hfacility with
    | context [match objects_get_or_create ?mo ?ta ?se ?lo ?ro st with _ => _ end] =>
        destruct (objects_get_or_create mo ta se lo ro st) as [s0 [[f c] | e]] eqn:Hfac;
          [| discriminate Hfacility]
    end.
    unfold ret in Hfacility. injection Hfacility as <- _.
    apply goc_returned in Hfac; [| reflexivity ..]. destruct Hfac as [Hfin Hfkey].
    exists f. split; [rewrite Hf3, Hf2, Hf1; exact Hfin |].
    destruct Hfkey as [Hfkey | ->]; [exact Hfkey | apply String.eqb_refl].
  - exists provider. split; [rewrite Hp3, Hp2; exact Hpin |]. split.
    + destruct Hpkey as [Hpkey | ->]; [exact Hpkey |].
      unfold provider_key. simpl. rewrite !String.eqb_refl. reflexivity.
    + exists treatment. split; [exact Htin |].
      destruct Htkey as [Htkey | ->]; [exact Htkey |].
      unfold treatment_key. simpl. rewrite !Nat.eqb_refl. reflexivity.
Qed.

(** X13. Persisting a result a second time adds nothing.  After a pass of
    [persist] that returned, another pass for a case with the same primary
    key and the same result, with or without a communication, creates no
    other party, facility, provider, treatment or damage, writes no citation
    and no reference, and takes no new primary key. *)
Theorem persist_again_adds_nothing (case case' : Case.t) (result : IntakeExtractionResult)
    (communication communication' : option ClientCommunication.t) (st st1 : state) :
  Case.id case' = Case.id case ->
  persist env case result communication st = (st1, Return tt) ->
  facts (fst (persist env case' result communication' st1)) = facts st1.
Proof.
  intros Hid Hrun.
  (* what the first pass has stored *)
  assert (Hstored : (forall p, In p (other_parties result) ->
                       party_stored (Case.id case) st1 p)
                    /\ (forall m, In m (medical_providers result) ->
                          medical_stored (Case.id case) st1 m)
                    /\ (forall d, In d (damages result) ->
                          damage_stored (Case.id case) st1 d)).
  { unfold persist in Hrun.
    unfold bind at 1 in Hrun.
    destruct (update_case_fields case result st) as [sa [[] | e]]; [| discriminate Hrun].
    unfold bind at 1 in Hrun.
    destruct (for_each (other_parties result) (persist_party env case communication) sa)
      as [sb [[] | e]] eqn:Hparties; [| discriminate Hrun].
    unfold bind at 1 in Hrun.
    destruct (for_each (medical_providers result) (persist_medical env case communication) sb)
      as [sc [[] | e]] eqn:Hmedical; [| discriminate Hrun].
    split; [| split].
    - intros p Hp.
      assert (Hb : party_stored (Case.id case) sb p).
      { revert p Hp.
        apply (@for_each_settles _ (party_stored (Case.id case))
                 (persist_party env case communication)
                 (fun x s s1 => @party_settles case communication x s s1)
                 (fun x y s => @party_stored_kept _ _ (Case.id case) s y
                                 (party_appends case communication x)) _ _ _ Hparties). }
      assert (Hc : party_stored (Case.id case) sc p).
      { pose proof (@for_each_keeps _ _ (party_stored (Case.id case))
                      (persist_medical env case communication)
                      (fun x y s => @party_stored_kept _ _ (Case.id case) s y
                                      (medical_keeps_parties case communication x))
                      (medical_providers result) p sb Hb) as H.
        rewrite Hmedical in H. exact H. }
      pose proof (@for_each_keeps _ _ (party_stored (Case.id case))
                    (persist_damage env case communication)
                    (fun x y s => @party_stored_kept _ _ (Case.id case) s y
                                    (damage_keeps_parties case communication x))
                    (damages result) p sc Hc) as H.
      rewrite Hrun in H. exact H.
    - intros m Hm.
      assert (Hc : medical_stored (Case.id case) sc m).
      { revert m Hm.
        apply (@for_each_settles _ (medical_stored (Case.id case))
                 (persist_medical env case communication)
                 (fun x s s1 => @medical_settles case communication x s s1)
                 (fun x y s => @medical_stored_kept _ _ (Case.id case) s y
                                 (medical_appends_facilities case communication x)
                                 (medical_appends_providers case communication x)
                                 (medical_appends_treatments case communication x))
                 _ _ _ Hmedical). }
      pose proof (@for_each_keeps _ _ (medical_stored (Case.id case))
                    (persist_damage env case communication)
                    (fun x y s => @medical_stored_kept _ _ (Case.id case) s y
                                    (damage_keeps_facilities case communication x)
                                    (damage_keeps_providers case communication x)
                                    (damage_keeps_treatments case communication x))
                    (damages result) m sc Hc) as H.
      rewrite Hrun in H. exact H.
    - apply (@for_each_settles _ (damage_stored (Case.id case))
               (persist_damage env case communication)
               (fun x s s1 => @damage_settles case communication x s s1)
               (fun x y s => @damage_stored_kept _ _ (Case.id case) s y
                               (damage_appends case communication x)) _ _ _ Hrun). }
  destruct Hstored as [Hparties [Hmedical Hdamages]].
  rewrite <- Hid in Hparties, Hmedical, Hdamages.
  (* the second pass *)
  unfold persist. unfold bind at 1.
  assert (Hcase : framed facts (fun _ => True) (update_case_fields case' result))
    by framed_auto.
  specialize (Hcase st1 I).
  destruct (update_case_fields case' result st1) as [s0 [[] | e]]; simpl in Hcase;
    [| exact Hcase].
  rewrite <- Hcase.
  assert (Hp0 : forall p, In p (other_parties result) -> party_stored (Case.id case') s0 p).
  { intros p Hp. destruct (Hparties p Hp) as [r [Hin Hkey]]. exists r.
    split; [| exact Hkey]. unfold facts in Hcase. injection Hcase as _ -> _ _ _ _ _ _.
    exact Hin. }
  assert (Hm0 : forall m, In m (medical_providers result) ->
                  medical_stored (Case.id case') s0 m).
  { intros m Hm. destruct (Hmedical m Hm) as [Hfac [p [Hin [Hkey [t [Htin Htkey]]]]]].
    unfold facts in Hcase. injection Hcase as _ _ Hf Hp Ht _ _ _.
    split.
    - intros Hname. destruct (Hfac Hname) as [f [Hfin Hfname]]. exists f.
      rewrite Hf. auto.
    - exists p. rewrite Hp. split; [exact Hin | split; [exact Hkey |]].
      exists t. rewrite Ht. auto. }
  assert (Hd0 : forall d, In d (damages result) -> damage_stored (Case.id case') s0 d).
  { intros d Hd. destruct (Hdamages d Hd) as [r [Hin Hkey]]. exists r.
    split; [| exact Hkey]. unfold facts in Hcase. injection Hcase as _ _ _ _ _ -> _ _.
    exact Hin. }
  clear Hcase.
  unfold bind at 1.
  pose proof (@for_each_idle _ (party_stored (Case.id case'))
                (persist_party env case' communication')
                (fun x s => @party_idle case' communication' x s)
                (other_parties result) s0 Hp0) as H1.
  destruct (for_each (other_parties result) (persist_party env case' communication') s0)
    as [s1 [[] | e]]; simpl in H1; subst s1; [| reflexivity].
  unfold bind at 1.
  pose proof (@for_each_idle _ (medical_stored (Case.id case'))
                (persist_medical env case' communication')
                (fun x s => @medical_idle case' communication' x s)
                (medical_providers result) s0 Hm0) as H2.
  destruct (for_each (medical_providers result) (persist_medical env case' communication') s0)
    as [s2 [[] | e]]; simpl in H2; subst s2; [| reflexivity].
  rewrite (@for_each_idle _ (damage_stored (Case.id case'))
             (persist_damage env case' communication')
             (fun x s => @damage_idle case' communication' x s)
             (damages result) s0 Hd0).
  reflexivity.
Qed.

End Upsert.

Section SameKey.

Variable env : environment.

(** X14. Other parties are stored by case, first name and last name, and
    damages by case and category; what else an entity says plays no part.
    Once [persist] has handled a party, a later party of the same case with
    the same two names changes nothing: no row, no citation, and its company
    name and role are not recorded.  So of the companies named in one call,
    which all have empty names, only the first is stored.  In the same way a
    later damage of the same category is dropped with its description and
    amount. *)
Theorem later_entity_of_same_key_dropped (case : Case.t)
    (communication communication' : option ClientCommunication.t) :
  (forall p1 p2 st st1,
      party_first_name p2 = party_first_name p1 ->
      party_last_name p2 = party_last_name p1 ->
      persist_party env case communication p1 st = (st1, Return tt) ->
      fst (persist_party env case communication' p2 st1) = st1)
  /\ (forall d1 d2 st st1,
        dmg_category d2 = dmg_category d1 ->
        persist_damage env case communication d1 st = (st1, Return tt) ->
        fst (persist_damage env case communication' d2 st1) = st1).
Proof.
  split.
  - intros p1 p2 st st1 Hfirst Hlast Hrun.
    apply party_settles in Hrun. apply party_idle.
    destruct Hrun as [r [Hin Hkey]]. exists r. split; [exact Hin |].
    unfold party_key in *. rewrite Hfirst, Hlast. exact Hkey.
  - intros d1 d2 st st1 Hcat Hrun.
    apply damage_settles in Hrun. apply damage_idle.
    destruct Hrun as [r [Hin Hkey]]. exists r. split; [exact Hin |].
    unfold damage_key in *. rewrite Hcat. exact Hkey.
Qed.

(** X15. Medical providers are stored by first and last name alone, across
    all cases.  When a provider with the names of an extracted one is in
    store, [persist_medical] creates no provider and writes no citation and
    no reference, for whichever case and facility: the treatment it adds
    points to a provider already there.  Facilities are extracted with empty
    names, so all of them share the provider row of the first. *)
Theorem provider_of_same_name_reused (case : Case.t)
    (communication : option ClientCommunication.t) (m : medical_dict) (st : state)
    (stored : MedicalProvider.t) :
  In stored (intake_medicalprovider (db st)) ->
  MedicalProvider.first_name stored = med_first_name m ->
  MedicalProvider.last_name stored = med_last_name m ->
  let after := persist_medical env case communication m st in
  intake_medicalprovider (db (fst after)) = intake_medicalprovider (db st)
  /\ citations (fst after) = citations st
  /\ references (fst after) = references st
  /\ forall t, In t (intake_treatment (db (fst after))) ->
       In t (intake_treatment (db st))
       \/ (Treatment.case t = Case.id case
           /\ exists p, In p (intake_medicalprovider (db st))
                /\ Treatment.provider t = MedicalProvider.id p
                /\ MedicalProvider.first_name p = med_first_name m
                /\ MedicalProvider.last_name p = med_last_name m).
Proof.
  intros Hin Hfirst Hlast. cbv zeta.
  set (kept := fun s : state =>
         (intake_medicalprovider (db s), intake_treatment (db s), citations s, references s)).
  assert (Hkey : provider_key m stored = true).
  { unfold provider_key. rewrite Hfirst, Hlast, !String.eqb_refl. reflexivity. }
  pattern (persist_medical env case communication m st).
  match goal with |- ?P _ => set (Q := P) end.
  assert (Hquiet : forall s (o : outcome unit), kept s = kept st -> Q (s, o)).
  { intros s o Hs. unfold kept in Hs. injection Hs as Hp Ht Hc Hr.
    unfold Q. cbn [fst]. rewrite Hp, Ht, Hc, Hr. repeat split; auto. }
  unfold persist_medical. unfold bind at 1.
  match goal with
  | |- context [match ?step st with _ => _ end] =>
      assert (Hfac : framed kept (fun _ => True) step) by framed_auto;
      specialize (Hfac st I);
      destruct (step st) as [sa [facility | e]]
  end; cbn [fst] in Hfac; [| apply Hquiet; exact Hfac].
  assert (Hin' : In stored (intake_medicalprovider (db sa))).
  { unfold kept in Hfac. injection Hfac as -> _ _ _. exact Hin. }
  match goal with
  | |- context [bind (objects_get_or_create ?mo ?ta ?se ?lo ?ro) ?k sa] =>
      destruct (goc_found mo ta se lo ro sa stored Hin' Hkey) as [[found [Hone Hrun]] | Hrun];
      [rewrite (@bind_run _ _ _ k _ _ _ Hrun)
      | rewrite (@bind_raise _ _ _ k _ _ _ Hrun); apply Hquiet; exact Hfac]
  end.
  cbv beta iota. unfold bind at 1. unfold ret at 1. cbv beta iota.
  assert (Hfound : In found (intake_medicalprovider (db sa))
                   /\ provider_key m found = true).
  { assert (H : In found (filter (provider_key m) (intake_medicalprovider (db sa))))
      by (unfold provider_key; rewrite Hone; left; reflexivity).
    apply filter_In in H. exact H. }
  destruct Hfound as [Hfin Hfkey].
  unfold provider_key in Hfkey. apply andb_true_iff in Hfkey.
  destruct Hfkey as [Hf1 Hf2]. apply String.eqb_eq in Hf1, Hf2.
  unfold bind.
  match goal with
  | |- context [objects_get_or_create ?mo ?ta ?se ?lo ?ro sa] =>
      assert (Hgrow : grows_by (fun s => intake_treatment (db s))
                        (fun t => Treatment.case t = Case.id case
                                  /\ Treatment.provider t = MedicalProvider.id found)
                        (objects_get_or_create mo ta se lo ro));
      [| assert (Hsame : framed (fun s => (intake_medicalprovider (db s), citations s,
                                           references s))
                           (fun _ => True) (objects_get_or_create mo ta se lo ro))
           by framed_auto;
         specialize (Hsame sa I); destruct (Hgrow sa) as [new [Hnew Hall]];
         destruct (objects_get_or_create mo ta se lo ro sa) as [sb [[t c] | e]] ]
  end.
  - intros s.
    pose proof (@goc_cases _ "Treatment" intake_treatment set_intake_treatment
                  (fun r => (Treatment.case r =? Case.id case)
                            && (Treatment.provider r =? MedicalProvider.id found))
                  (fun new_pk =>
                     {| Treatment.id := new_pk; Treatment.case := Case.id case;
                        Treatment.provider := MedicalProvider.id found;
                        Treatment.treatment_type := med_treatment_type m;
                        Treatment.diagnosis := med_diagnosis m |})
                  s (fun _ _ => eq_refl) (fun _ _ => eq_refl)) as H.
    destruct (filter _ (intake_treatment (db s))) as [| x [| y rest]].
    + destruct H as [s1 [-> Htab]]. cbn [fst]. rewrite Htab. eexists. split; [reflexivity |].
      constructor; [split; reflexivity | constructor].
    + rewrite H. exists []. rewrite app_nil_r. split; [reflexivity | constructor].
    + rewrite H. exists []. rewrite app_nil_r. split; [reflexivity | constructor].
  - cbn [fst] in *. unfold kept in Hfac. injection Hfac as Hp Ht Hc Hr.
    injection Hsame as Hp' Hc' Hr'.
    unfold Q, ret. cbn [fst].
    rewrite Hp', Hc', Hr', Hp, Hc, Hr. repeat split.
    intros t' Ht'. rewrite Hnew, Ht in Ht'. apply in_app_or in Ht'.
    destruct Ht' as [Hold | Hadded]; [left; exact Hold | right].
    rewrite Forall_forall in Hall. destruct (Hall t' Hadded) as [Hcase Hprov].
    split; [exact Hcase |]. exists found. rewrite <- Hp. auto.
  - cbn [fst] in *. unfold kept in Hfac. injection Hfac as Hp Ht Hc Hr.
    injection Hsame as Hp' Hc' Hr'.
    unfold Q. cbn [fst].
    rewrite Hp', Hc', Hr', Hp, Hc, Hr. repeat split.
    intros t' Ht'. rewrite Hnew, Ht in Ht'. apply in_app_or in Ht'.
    destruct Ht' as [Hold | Hadded]; [left; exact Hold | right].
    rewrite Forall_forall in Hall. destruct (Hall t' Hadded) as [Hcase Hprov].
    split; [exact Hcase |]. exists found. rewrite <- Hp. auto.
Qed.

End SameKey.

(** ** Filling the blank fields of the case *)

Section CaseFields.

Variable env : environment.

Lemma Forall2_same {A : Type} (R : A -> A -> Prop) (l : list A) :
  (forall x, R x x) -> Forall2 R l l.
Proof. intros H. induction l; constructor; auto. Qed.

Lemma Forall2_map_r {A B : Type} (R : A -> B -> Prop) (f : A -> B) (l : list A) :
  (forall x, R x (f x)) -> Forall2 R l (map f l).
Proof. intros H. induction l; simpl; constructor; auto. Qed.

(** X16. [persist] changes the stored cases in two fields of the rows with
    the primary key of the given case, and in nothing else.  The incident
    date of such a row changes only when the given instance has none and the
    result has one, and then becomes the result's; the incident type only
    when the instance's is empty and the result has one.  A date or type the
    instance already has is never overwritten. *)
Theorem persist_fills_blank_case_fields (case : Case.t) (result : IntakeExtractionResult)
    (communication : option ClientCommunication.t) (st : state) :
  Forall2
    (fun before after =>
       Case.id after = Case.id before
       /\ Case.client after = Case.client before
       /\ Case.case_number after = Case.case_number before
       /\ Case.incident_location after = Case.incident_location before
       /\ (Case.id before <> Case.id case -> after = before)
       /\ (Case.incident_date after = Case.incident_date before
           \/ (Case.incident_date case = None
               /\ incident_date result <> None
               /\ Case.incident_date after = incident_date result))
       /\ (Case.incident_type after = Case.incident_type before
           \/ (Case.incident_type case = ""
               /\ Case.incident_type after <> ""
               /\ incident_type result = Some (Case.incident_type after))))
    (intake_case (db st))
    (intake_case (db (fst (persist env case result communication st)))).
Proof.
  unfold persist. unfold bind at 1.
  match goal with
  | |- context [match update_case_fields case result st with _ => _ end] =>
      destruct (update_case_fields case result st) as [s1 [[] | e]] eqn:Hupdate
  end.
  - match goal with
    | |- context [fst (?rest s1)] =>
        assert (Hrest : framed (fun s => intake_case (db s)) (fun _ => True) rest)
          by framed_auto;
        rewrite (Hrest s1 I)
    end.
    clear Hrest. apply (f_equal fst) in Hupdate. simpl in Hupdate. subst s1.
    unfold update_case_fields, save_case, bind, get_db, put_db, ret.
    destruct (incident_date result) as [d |] eqn:Hdate;
      destruct (Case.incident_date case) as [d0 |] eqn:Hcase;
      destruct (if_set (incident_type result)) as [t |] eqn:Htype;
      cbv beta iota zeta; cbn [Case.incident_type set_incident_date];
      try destruct (Py.truthy (Case.incident_type case)) eqn:Hblank;
      cbn [negb app fst db intake_case set_intake_case];
      try (apply Forall2_same; intros x; repeat split; auto; fail);
      apply Forall2_map_r; intros x; cbv beta;
      cbn [updates existsb String.eqb Ascii.eqb Bool.eqb orb andb Case.id Case.client
           Case.case_number Case.incident_location Case.incident_date Case.incident_type
           set_incident_type set_incident_date];
      destruct (Nat.eqb_spec (Case.id x) (Case.id case)) as [Hsame | Hother];
      cbn [Case.id Case.client Case.case_number Case.incident_location Case.incident_date
           Case.incident_type];
      repeat split; auto; try contradiction.
    all: try (right; repeat split; auto; discriminate).
    all: try (right; unfold if_set in Htype;
              destruct (incident_type result) as [t' |]; [| discriminate Htype];
              destruct (Py.truthy t') eqn:Ht'; [| discriminate Htype];
              injection Htype as ->;
              destruct (Case.incident_type case); [| discriminate Hblank];
              repeat split; auto; intros Heq; rewrite Heq in Ht'; discriminate Ht').
  - simpl.
    unfold update_case_fields, save_case, bind, get_db, put_db, ret in Hupdate.
    repeat match type of Hupdate with
           | context [match ?x with _ => _ end] => destruct x
           | context [if ?x then _ else _] => destruct x
           end; discriminate Hupdate.
Qed.

End CaseFields.

(** ** Ingest: the law firm *)

Section IngestFirm.

Variable env : environment.



End IngestFirm.


(** ** Ingest: the communication *)

Section IngestCommunication.

Variable env : environment.

Lemma map_same {A : Type} (f : A -> A) (l : list A) :
  (forall x, In x l -> f x = x) -> map f l = l.
Proof.
  induction l as [| a rest IH]; intros H; simpl; [reflexivity |].
  rewrite (H a (or_introl eq_refl)), IH; [reflexivity |].
  intros x Hx. apply H. right. exact Hx.
Qed.

(** X18. An [ingest] that returns has stored its communication: the
    returned communication is the last stored one, a phone call with the
    given transcript, linked to a case and marked done; the communications
    stored before are as they were (a row is touched only if it has the new
    primary key, which a fresh key excludes). *)
Theorem ingest_stores_communication (turns : turns_obj) (law_firm_id : option nat)
    (st st' : state) (communication : ClientCommunication.t)
    (result : IntakeExtractionResult) (matched : bool) :
  ingest env turns law_firm_id st = (st', Return (communication, result, matched)) ->
  ClientCommunication.parse_status communication = "done"
  /\ ClientCommunication.channel communication = "phone"
  /\ ClientCommunication.raw_transcript communication = turns
  /\ ClientCommunication.case communication <> None
  /\ comms st'
     = map (fun r => if ClientCommunication.id r =? ClientCommunication.id communication
                     then set_parse_status r "done" else r)
           (comms st)
       ++ [communication]
  /\ ((forall r, In r (comms st) ->
         ClientCommunication.id r <> ClientCommunication.id communication) ->
      comms st' = comms st ++ [communication]).
Proof.
  intros H. unfold ingest in H.
  step_in H comms st1 found Hc1 Hcall. clear Hcall.
  step_in H comms st2 law_firm Hc2 Hfirm. clear Hfirm.
  step_in H comms st3 info Hc3 Hinfo. clear Hinfo.
  step_in H comms st4 existing Hc4 Hexisting. clear Hexisting.
  step_in H comms st5 triple Hc5 Htriple. clear Htriple.
  destruct triple as [[client case] matched']. cbv beta iota in H.
  unfold bind at 1 in H.
  match type of H with
  | context [match objects_create ?ta ?se ?ro st5 with _ => _ end] =>
      assert (Hcreate : objects_create ta se ro st5
                        = (fst (objects_create ta se ro st5), Return (ro (next_uuid (db st5))))
                        /\ comms (fst (objects_create ta se ro st5))
                           = comms st5 ++ [ro (next_uuid (db st5))])
        by (split; reflexivity);
      destruct Hcreate as [Hcreate Hc6];
      rewrite Hcreate in H;
      set (made := fst (objects_create ta se ro st5)) in *;
      set (row := ro (next_uuid (db st5))) in *
  end.
  clearbody made. cbv beta iota in H.
  do 7 step_anon H comms.
  unfold bind at 1 in H.
  match type of H with
  | context [match save_communication ?c ?f ?s with _ => _ end] =>
      assert (Hsave : save_communication c f s
                      = (fst (save_communication c f s), Return tt)
                      /\ comms (fst (save_communication c f s))
                         = map (fun r => if ClientCommunication.id r =? ClientCommunication.id c
                                         then set_parse_status r "done" else r)
                               (comms s));
      [| destruct Hsave as [Hsave Hc7]; rewrite Hsave in H;
         set (saved := fst (save_communication c f s)) in * ]
  end.
  { split; [reflexivity |].
    unfold save_communication, bind, get_db, put_db, comms. simpl.
    apply map_ext. intros r.
    destruct (ClientCommunication.id r =? next_uuid (db st5)); [destruct r |]; reflexivity. }
  clearbody saved. unfold ret in H. injection H as <- <- _ _.
  assert (Hall : comms saved
                 = map (fun r => if ClientCommunication.id r
                                    =? ClientCommunication.id (set_parse_status row "done")
                                 then set_parse_status r "done" else r)
                       (comms st)
                   ++ [set_parse_status row "done"]).
  { rewrite Hc7.
    match goal with
    | |- map _ (comms ?s) = _ => replace (comms s) with (comms st ++ [row]) by congruence
    end.
    rewrite map_app. simpl. unfold row at 2. simpl. rewrite Nat.eqb_refl. reflexivity. }
  repeat split.
  - discriminate.
  - exact Hall.
  - intros Hfresh. rewrite Hall. f_equal. apply map_same. intros r Hr.
    destruct (Nat.eqb_spec (ClientCommunication.id r)
                (ClientCommunication.id (set_parse_status row "done")));
      [| reflexivity].
    exfalso. exact (Hfresh r Hr e).
Qed.

End IngestCommunication.

(** ** Empty transcripts *)

Section EmptyTranscript.

Variable env : environment.

(** An empty transcript is answered from no request: nothing is found,
    whether or not a key is configured. *)
Lemma call_llm_empty (turns : turns_obj) (st : state) :
  items turns = [] -> cache_lookup st turns = None ->
  _call_llm env turns st
  = (fst (set_cache turns [] st), Return []).
Proof.
  intros Hitems Hmiss. unfold _call_llm, bind, get_state. rewrite Hmiss, Hitems.
  reflexivity.
Qed.

(** X19. [parse] on a communication without transcript turns sends no
    request to the model and needs no key: it returns the empty result,
    without any risk flag, logs nothing and marks the communication done. *)
Theorem parse_empty_transcript (communication : ClientCommunication.t) (st : state) :
  items (ClientCommunication.raw_transcript communication) = [] ->
  _findings_cache st = None ->
  let after := parse env communication st in
  snd after = Return empty_result
  /\ llm_calls (fst after) = llm_calls st
  /\ log (fst after) = log st
  /\ comms (fst after)
     = map (fun r => if ClientCommunication.id r =? ClientCommunication.id communication
                     then set_parse_status r "done" else r)
           (comms st).
Proof.
  intros Hitems Hcache. cbv zeta.
  assert (Hrun : exists st2,
             parse env communication st = (st2, Return empty_result)
             /\ llm_calls st2 = llm_calls st /\ log st2 = log st
             /\ comms st2
                = map (fun r => if ClientCommunication.id r
                                   =? ClientCommunication.id communication
                                then set_parse_status r "done" else r)
                      (comms st)).
  { unfold parse. rewrite Hitems.
    unfold bind at 1. unfold new_list at 1. cbv beta iota.
    set (turns := {| obj_id := next_obj_id st; items := [] |}).
    set (st0 := {| _findings_cache := _findings_cache st; db := db st;
                   llm_calls := llm_calls st; log := log st;
                   next_obj_id := S (next_obj_id st) |}).
    assert (Hfirst : _call_llm env turns st0 = (fst (set_cache turns [] st0), Return [])).
    { apply call_llm_empty; [reflexivity |].
      unfold cache_lookup, st0. simpl. rewrite Hcache. reflexivity. }
    set (st1 := fst (set_cache turns [] st0)) in *.
    assert (Hhit : _call_llm env turns st1 = (st1, Return [])).
    { apply call_llm_hit. unfold cache_lookup, st1, set_cache, put_cache. simpl.
      rewrite Nat.eqb_refl. reflexivity. }
    unfold _extract_incident_info, _extract_parties, _extract_medical, _extract_insurance,
      _extract_damages.
    rewrite bind_assoc. rewrite (@bind_run _ _ _ _ _ _ _ Hfirst).
    cbv beta zeta. cbn [meta_index filter map rev app meta_value dict_get if_set].
    unfold bind at 1. unfold ret at 1. cbv beta iota.
    unfold bind at 1. unfold ret at 1. cbv beta iota.
    rewrite bind_assoc. rewrite (@bind_run _ _ _ _ _ _ _ Hhit).
    unfold bind at 1. unfold ret at 1. cbv beta iota.
    rewrite bind_assoc. rewrite (@bind_run _ _ _ _ _ _ _ Hhit).
    unfold bind at 1. unfold ret at 1. cbv beta iota.
    rewrite bind_assoc. rewrite (@bind_run _ _ _ _ _ _ _ Hhit).
    unfold bind at 1. unfold ret at 1. cbv beta iota.
    rewrite bind_assoc. rewrite (@bind_run _ _ _ _ _ _ _ Hhit).
    unfold bind at 1. unfold ret at 1. cbv beta iota.
    cbn [family flat_map map].
    unfold flag, save_communication, bind, get_state, get_db, put_db, ret.
    cbv beta iota.
    eexists. split; [reflexivity |]. repeat split. }
  destruct Hrun as [st2 [-> [Hcalls [Hlog Hcomms]]]]. simpl. auto.
Qed.


Variable turns : turns_obj.

Lemma call_llm_nothing (s : state) : found_nothing turns s -> _call_llm env turns s = (s, Return []).
Proof.
  intros Hs. apply call_llm_hit. unfold cache_lookup. rewrite Hs. simpl.
  rewrite Nat.eqb_refl. reflexivity.
Qed.

Lemma incident_info_nothing (s : state) :
  found_nothing turns s ->
  _extract_incident_info env turns s
  = (s, Return {| info_incident_date := None; info_incident_type := None;
                  info_incident_location := None; info_injuries := [];
                  info_confidence_scores := [] |}).
Proof.
  intros Hs. unfold _extract_incident_info.
  rewrite (@bind_run _ _ _ _ _ _ _ (call_llm_nothing Hs)). reflexivity.
Qed.

Lemma medical_nothing (s : state) :
  found_nothing turns s -> _extract_medical env turns s = (s, Return []).
Proof.
  intros Hs. unfold _extract_medical.
  rewrite (@bind_run _ _ _ _ _ _ _ (call_llm_nothing Hs)). reflexivity.
Qed.

Lemma insurance_nothing (s : state) :
  found_nothing turns s -> _extract_insurance env turns s = (s, Return []).
Proof.
  intros Hs. unfold _extract_insurance.
  rewrite (@bind_run _ _ _ _ _ _ _ (call_llm_nothing Hs)). reflexivity.
Qed.

Lemma parties_nothing (s : state) :
  found_nothing turns s -> _extract_parties env turns s = (s, Return []).
Proof.
  intros Hs. unfold _extract_parties.
  rewrite (@bind_run _ _ _ _ _ _ _ (call_llm_nothing Hs)). reflexivity.
Qed.

Lemma damages_nothing (s : state) :
  found_nothing turns s -> _extract_damages env turns s = (s, Return []).
Proof.
  intros Hs. unfold _extract_damages.
  rewrite (@bind_run _ _ _ _ _ _ _ (call_llm_nothing Hs)). reflexivity.
Qed.

(** Without a date, a type and a location the matcher finds no case. *)
Lemma find_existing_case_blank (law_firm : LawFirm.t) (first_name last_name : string)
    (s : state) :
  _find_existing_case law_firm first_name last_name None None None s = (s, Return None).
Proof.
  unfold _find_existing_case, bind, get_db. cbv beta iota.
  destruct (most_recent (client_qs (db s) law_firm first_name last_name)); [| reflexivity].
  destruct (case_set (db s) _); reflexivity.
Qed.


(** X20. An empty transcript is not turned away.  [ingest] sends no request
    to the model for it and needs no key; when it returns, it reports no
    match and an empty result without any risk flag, and it has created a
    case. *)
Theorem ingest_empty_transcript (law_firm_id : option nat) (st : state) :
  items turns = [] -> cache_lookup st turns = None ->
  let after := ingest env turns law_firm_id st in
  llm_calls (fst after) = llm_calls st
  /\ forall communication result matched,
       snd after = Return (communication, result, matched) ->
       matched = false /\ result = empty_result
       /\ length (intake_case (db (fst after))) = S (length (intake_case (db st))).
Proof.
  intros Hitems Hmiss. cbv zeta.
  pose proof (call_llm_empty turns st Hitems Hmiss) as Hfirst.
  set (st1 := fst (set_cache turns [] st)) in *.
  assert (H1 : found_nothing turns st1) by reflexivity.
  split.
  - (* no request *)
    unfold ingest. rewrite (@bind_run _ _ _ _ _ _ _ Hfirst).
    match goal with
    | |- llm_calls (fst (?rest st1)) = _ =>
        assert (Hquiet : framed memo (holds turns) rest)
          by (repeat (progress (framed_open; framed_split));
              first [ apply quiet_call_llm | framed_prim ]);
        assert (Hm : memo (fst (rest st1)) = memo st1)
          by (apply Hquiet; unfold holds, memo; simpl; reflexivity)
    end.
    apply (f_equal snd) in Hm. exact Hm.
  - intros communication result matched H.
    destruct (ingest env turns law_firm_id st) as [st' out] eqn:Hrun.
    simpl in H. subst out. simpl.
    unfold ingest in Hrun. rewrite (@bind_run _ _ _ _ _ _ _ Hfirst) in Hrun.
    cbv beta zeta in Hrun.
    set (track := fun s : state => (_findings_cache s, length (intake_case (db s)))).
    step_in Hrun track s2 law_firm Hp2 Hfirm. clear Hfirm.
    assert (H2 : found_nothing turns s2).
    { unfold track in Hp2. injection Hp2 as Hc _. unfold found_nothing. rewrite Hc. exact H1. }
    rewrite (@bind_run _ _ _ _ _ _ _ (incident_info_nothing H2)) in Hrun.
    cbn [info_incident_type info_incident_date info_incident_location] in Hrun.
    rewrite (@bind_run _ _ _ _ _ _ _ (find_existing_case_blank _ _ _ s2)) in Hrun.
    cbv beta iota in Hrun.
    rewrite bind_assoc in Hrun. unfold bind at 1 in Hrun.
    match type of Hrun with
    | context [match objects_get_or_create ?mo ?ta ?se ?lo ?ro s2 with _ => _ end] =>
        assert (Hp3 : framed track (fun _ => True) (objects_get_or_create mo ta se lo ro))
          by framed_auto;
        specialize (Hp3 s2 I);
        destruct (objects_get_or_create mo ta se lo ro s2) as [s3 [[client created] | e]];
        [| discriminate Hrun]
    end.
    cbn [fst] in Hp3. cbv beta iota in Hrun.
    rewrite bind_assoc in Hrun.
    step_in Hrun track s4 number Hp4 Hnumber. clear Hnumber.
    rewrite bind_assoc in Hrun. unfold bind at 1 in Hrun.
    match type of Hrun with
    | context [match objects_create ?ta ?se ?ro s4 with _ => _ end] =>
        assert (Hp5 : _findings_cache (fst (objects_create ta se ro s4)) = _findings_cache s4
                      /\ length (intake_case (db (fst (objects_create ta se ro s4))))
                         = S (length (intake_case (db s4)))
                      /\ exists case, snd (objects_create ta se ro s4) = Return case)
          by (split; [reflexivity | split; [| eexists; reflexivity]];
              unfold objects_create, uuid4, bind, get_db, put_db, ret; simpl;
              rewrite length_app; simpl; lia);
        destruct (objects_create ta se ro s4) as [s5 [case | e]];
        [| discriminate Hrun]
    end.
    cbn [fst] in Hp5. destruct Hp5 as [Hcache5 [Hcases5 _]].
    unfold bind at 1 in Hrun. unfold ret at 1 in Hrun. cbv beta iota in Hrun.
    step_in Hrun track s6 comm Hp6 Hcomm. apply objects_create_row in Hcomm.
    step_in Hrun track s7 unit7 Hp7 Hmeta. clear Hmeta.
    assert (H7 : found_nothing turns s7).
    { unfold track in *. unfold found_nothing in *.
      injection Hp2 as Hc2 _. injection Hp3 as Hc3 _. injection Hp4 as Hc4 _.
      injection Hp6 as Hc6 _. injection Hp7 as Hc7 _. congruence. }
    assert (Hcount : length (intake_case (db s7)) = S (length (intake_case (db st)))).
    { unfold track in *.
      injection Hp2 as _ Hn2. injection Hp3 as _ Hn3. injection Hp4 as _ Hn4.
      injection Hp6 as _ Hn6. injection Hp7 as _ Hn7.
      change (length (intake_case (db st1))) with (length (intake_case (db st))) in Hn2.
      lia. }
    rewrite (@bind_run _ _ _ _ _ _ _ (medical_nothing H7)) in Hrun.
    rewrite (@bind_run _ _ _ _ _ _ _ (insurance_nothing H7)) in Hrun.
    rewrite (@bind_run _ _ _ _ _ _ _ (parties_nothing H7)) in Hrun.
    rewrite (@bind_run _ _ _ _ _ _ _ (damages_nothing H7)) in Hrun.
    assert (Hflag : flag env
                      (build_result
                         {| info_incident_date := None; info_incident_type := None;
                            info_incident_location := None; info_injuries := [];
                            info_confidence_scores := [] |} [] [] [] [] []) s7
                    = (s7, Return empty_result)).
    { unfold flag, bind, get_state, ret, _flag_risks. simpl. rewrite H7. reflexivity. }
    rewrite (@bind_run _ _ _ _ _ _ _ Hflag) in Hrun.
    assert (Hpersist : persist env case empty_result (Some comm) s7 = (s7, Return tt))
      by reflexivity.
    rewrite (@bind_run _ _ _ _ _ _ _ Hpersist) in Hrun.
    step_in Hrun track s9 unit9 Hp9 Hsave. clear Hsave.
    unfold ret in Hrun. injection Hrun as <- _ <- <-.
    split; [reflexivity | split; [reflexivity |]].
    unfold track in Hp9. injection Hp9 as _ Hn9. lia.
Qed.

End EmptyTranscript.

(** ** What the extraction call keeps *)

Section Findings.

Variable env : environment.

Lemma valid_findings_in (l : list item) (f : finding) :
  In f (valid_findings l) <-> In (Dict f) l /\ exists s, value f = Str s.
Proof.
  induction l as [| i rest IH]; simpl.
  - split; [contradiction | intros [[] _]].
  - destruct i as [| g]; simpl.
    + rewrite IH. split; [intros [H1 H2]; auto | intros [[H | H] H2]; [discriminate | auto]].
    + destruct (value g) as [| | s] eqn:Hg; simpl; rewrite IH.
      * split; [intros [H1 H2]; auto |].
        intros [[H | H] [s Hs]]; [| eauto]. injection H as <-. congruence.
      * split; [intros [H1 H2]; auto |].
        intros [[H | H] [s Hs]]; [| eauto]. injection H as <-. congruence.
      * split.
        -- intros [<- | [H1 H2]]; eauto.
        -- intros [[H | H] H2]; [left; congruence | right; auto].
Qed.

(** X21. When the model answers with a list of findings, the extraction
    call returns and caches exactly the entries that are objects with a
    value: entries that are not objects, and findings whose value is absent
    or null, are dropped without an error. *)
Theorem call_llm_keeps_valued_findings (turns : turns_obj) (st : state) (l : list item) :
  cache_lookup st turns = None -> items turns <> [] -> configured env ->
  llm env (length (llm_calls st)) (user_content (items turns)) = JSON (Object (AList l)) ->
  exists found,
    snd (_call_llm env turns st) = Return found
    /\ cache_lookup (fst (_call_llm env turns st)) turns = Some found
    /\ forall f, In f found <-> In (Dict f) l /\ exists s, value f = Str s.
Proof.
  intros Hmiss Hne [k [Hk Hk']] Hreply.
  exists (valid_findings l).
  assert (Hrun : exists st1, _call_llm env turns st = (st1, Return (valid_findings l))
                             /\ cache_lookup st1 turns = Some (valid_findings l)).
  { unfold _call_llm, bind, get_state. rewrite Hmiss.
    destruct (items turns) as [| t rest] eqn:Hitems; [contradiction |].
    rewrite Hk. destruct k as [| c k]; [contradiction |].
    unfold chat_completions_create, bind, get_state, record_llm_call, ret. simpl.
    rewrite Hreply. simpl. eexists. split; [reflexivity |].
    unfold cache_lookup. simpl. rewrite Nat.eqb_refl. reflexivity. }
  destruct Hrun as [st1 [-> Hcache]]. simpl.
  split; [reflexivity | split; [exact Hcache |]].
  apply valid_findings_in.
Qed.


End Findings.

(** ** The ingest endpoint *)

Section IngestEndpoint.

Variable env : environment.

(** X23. The ingest endpoint never lets an exception of the service out.
    A transcript that is not a list is answered with status 400 before
    anything is touched.  Otherwise a new service instance runs [ingest] and
    the answer follows its end: 201 with the match flag, the communication
    and the result when it returns, 400 when it raises
    [LawFirm.DoesNotExist], and 500 for every other exception.  The state
    the request leaves is the one [ingest] left. *)
Theorem ingest_endpoint_answers (request : ingest_request) (st : state) :
  let after := ClientCommunicationViewSet_ingest env request st in
  match transcript request with
  | None => after = (st, Return (HTTP_400_BAD_REQUEST TranscriptNotAList))
  | Some turns =>
      let run := ingest env turns (law_firm_id request) (fst (new_service st)) in
      fst after = fst run
      /\ match snd run with
         | Return (communication, result, matched) =>
             exists firm,
               snd after = Return (HTTP_201_CREATED matched firm communication result)
         | Raise (DoesNotExist "LawFirm") =>
             snd after
             = Return (HTTP_400_BAD_REQUEST (LawFirmNotFound (law_firm_id request)))
         | Raise exc => snd after = Return (HTTP_500_SERVER_ERROR exc)
         end
  end.
Proof.
  cbv zeta.
  destruct (transcript request) as [turns |] eqn:Hturns;
    [| unfold ClientCommunicationViewSet_ingest; rewrite Hturns; reflexivity].
  set (st0 := fst (new_service st)).
  assert (Hview : ClientCommunicationViewSet_ingest env request st
                  = match ingest env turns (law_firm_id request) st0 with
                    | (st1, Return (communication, result, matched)) =>
                        (st1, Return (HTTP_201_CREATED matched
                                        (option_map Client.law_firm
                                           (find (fun c => Client.id c
                                                           =? ClientCommunication.client
                                                                communication)
                                                 (intake_client (db st1))))
                                        communication result))
                    | (st1, Raise exc) => (st1, Return (ingest_failure request exc))
                    end).
  { unfold ClientCommunicationViewSet_ingest. rewrite Hturns.
    unfold bind at 1. change (new_service st) with (st0, Return tt).
    cbv beta iota.
    unfold bind at 1. unfold try_except. unfold bind at 1.
    destruct (ingest env turns (law_firm_id request) st0)
      as [st1 [[[communication result] matched] | exc]]; reflexivity. }
  rewrite Hview.
  destruct (ingest env turns (law_firm_id request) st0)
    as [st1 [[[communication result] matched] | exc]]; cbn [fst snd].
  - split; [reflexivity | eexists; reflexivity].
  - split; [reflexivity |].
    unfold ingest_failure.
    destruct exc as [msg | msg | model | model | msg]; try reflexivity.
    destruct (String.eqb_spec model "LawFirm") as [-> | Hother]; [reflexivity |].
    destruct model as [| [[] [] [] [] [] [] [] []] model]; try reflexivity.
    repeat match goal with
           | |- context [match ?m with EmptyString => _ | String _ _ => _ end] =>
               destruct m as [| [[] [] [] [] [] [] [] []] ?]; try reflexivity
           end.
    contradiction Hother. reflexivity.
Qed.


End IngestEndpoint.

(** ** Case analysis *)

Section CaseAnalysis.

Import Analyzer.

Variable cfg : settings.

Lemma dict_get_set_same {V : Type} (d : list (string * V)) (key : string) (v : V) :
  dict_get (dict_set d key v) key = Some v.
Proof.
  induction d as [| [k x] rest IH]; simpl.
  - rewrite String.eqb_refl. reflexivity.
  - destruct (String.eqb k key) eqn:Hk; simpl; rewrite Hk; [reflexivity | exact IH].
Qed.

Lemma dict_get_set_other {V : Type} (d : list (string * V)) (key other : string) (v : V) :
  other <> key -> dict_get (dict_set d key v) other = dict_get d other.
Proof.
  intros Hother. induction d as [| [k x] rest IH]; simpl.
  - destruct (String.eqb_spec key other); [congruence | reflexivity].
  - destruct (String.eqb_spec k key) as [-> | Hk]; simpl.
    + destruct (String.eqb_spec key other); [congruence | reflexivity].
    + destruct (String.eqb k other); [reflexivity | exact IH].
Qed.

(** The keys a report is checked for are there. *)
Lemma none_missing (members : list (string * json)) :
  filter (fun k => match dict_get members k with
                   | Some _ => false
                   | None => true
                   end) required = [] ->
  forall k, In k required -> dict_get members k <> None.
Proof.
  intros Hnone k Hk Hget.
  assert (Hin : In k (filter (fun k => match dict_get members k with
                                       | Some _ => false
                                       | None => true
                                       end) required)).
  { apply filter_In. split; [exact Hk |]. rewrite Hget. reflexivity. }
  rewrite Hnone in Hin. exact Hin.
Qed.

(** X25. A report that [analyze_case] returns is a JSON object with all five
    required sections, and the viability score in it is an integer.  A score
    the model gave as an integer is passed on as it is, also outside 0..100;
    any other score is replaced by an integer between 0 and 100.  The other
    members of the report are the model's. *)
Theorem analyze_case_report (case_id : nat) (t t' : trace) (report : json) :
  analyze_case cfg case_id t = (t', Return report) ->
  exists message sent_members viability members,
    user_message cfg case_id = Some message
    /\ chat cfg (length (requests t)) message = JSON (JObject sent_members)
    /\ dict_get sent_members "case_viability" = Some (JObject viability)
    /\ report = JObject members
    /\ (forall k, In k required -> dict_get members k <> None)
    /\ (forall k, k <> "case_viability" -> dict_get members k = dict_get sent_members k)
    /\ exists enforced,
         dict_get members "case_viability" = Some (JObject enforced)
         /\ (forall k, k <> "viability_score" -> dict_get enforced k = dict_get viability k)
         /\ match dict_get viability "viability_score" with
            | Some (JInt n) => dict_get enforced "viability_score" = Some (JInt n)
            | Some (JBool b) => dict_get enforced "viability_score" = Some (JBool b)
            | _ => exists n, dict_get enforced "viability_score" = Some (JInt n)
                             /\ (0 <= n <= 100)%Z
            end.
Proof.
  unfold analyze_case.
  destruct (user_message cfg case_id) as [message |] eqn:Hcase; [| discriminate].
  destruct (Analyzer.OPENAPI_KEY cfg) as [[| c key] |]; try discriminate.
  destruct (chat cfg (length (requests t)) message) as [exc | raw | sent_report] eqn:Hreply;
    try discriminate.
  destruct sent_report as [| b | n | x | s | l | sent_members]; try discriminate.
  destruct (filter _ required) as [| k0 missing] eqn:Hmissing; [| discriminate].
  pose proof (none_missing _ Hmissing) as Hall.
  destruct (dict_get sent_members "case_viability") as [section |] eqn:Hsection.
  2: { exfalso. apply (Hall "case_viability"); [simpl; tauto | exact Hsection]. }
  destruct section as [| b | n | x | s | l | viability]; try discriminate.
  unfold enforce_score.
  destruct (is_int (dict_get viability "viability_score")) eqn:Hint.
  - (* the model's own integer *)
    intros [= <- <-].
    exists message, sent_members, viability, sent_members.
    split; [reflexivity |]. split; [exact Hreply |]. split; [exact Hsection |].
    split; [reflexivity |]. split; [exact Hall |]. split; [reflexivity |].
    exists viability. split; [exact Hsection |]. split; [reflexivity |].
    destruct (dict_get viability "viability_score") as [[| b | n | x | s | l | m] |];
      try discriminate Hint; reflexivity.
  - match goal with
    | |- _ -> ?G =>
        assert (Hdone : forall n : Z, (0 <= n <= 100)%Z ->
                  (sent t message,
                   Return (JObject (dict_set sent_members "case_viability"
                                      (JObject (dict_set viability "viability_score"
                                                  (JInt n))))))
                  = (t', Return report) -> G)
    end.
    { intros n Hn [= <- <-].
      exists message, sent_members, viability,
        (dict_set sent_members "case_viability"
           (JObject (dict_set viability "viability_score" (JInt n)))).
      split; [reflexivity |]. split; [exact Hreply |]. split; [exact Hsection |].
    split; [reflexivity |]. split; [| split].
      - intros k Hk. destruct (String.eqb_spec k "case_viability") as [-> | Hother].
        + rewrite dict_get_set_same. discriminate.
        + rewrite dict_get_set_other by exact Hother. apply Hall. exact Hk.
      - intros k Hk. apply dict_get_set_other. exact Hk.
      - eexists. split; [apply dict_get_set_same |].
        split; [intros k Hk; apply dict_get_set_other; exact Hk |].
        rewrite dict_get_set_same.
        destruct (dict_get viability "viability_score") as [[| b | m | x | s | l | m] |];
          try discriminate Hint; eauto. }
    destruct (Analyzer.int cfg (dict_get viability "viability_score")) as [n | | |];
      try discriminate; apply Hdone; lia.
Qed.



End CaseAnalysis.

(** ** What the matcher returns *)

Section MatcherSound.

Variable env : environment.

Lemma case_set_in (d : database) (client : Client.t) (c : Case.t) :
  In c (case_set d client) -> In c (intake_case d) /\ Case.client c = Client.id client.
Proof.
  unfold case_set. intros H. apply in_rev in H. apply filter_In in H.
  destruct H as [Hin Hc]. apply Nat.eqb_eq in Hc. auto.
Qed.


(** A case the matcher returns is a stored case of the client it returns. *)
Lemma matched_case_of_client (law_firm : LawFirm.t) (first_name last_name : string)
    (incident_type : option string) (incident_date : option date)
    (incident_location : option string) (st st1 : state) (client : Client.t)
    (case : Case.t) :
  _find_existing_case law_firm first_name last_name incident_type incident_date
    incident_location st = (st1, Return (Some (client, case))) ->
  In (Case.id case, Client.id client) (case_links st).
Proof.
  unfold _find_existing_case, bind, get_db. cbv beta iota zeta.
  destruct (most_recent (client_qs (db st) law_firm first_name last_name))
    as [chosen |]; [| discriminate].
  intros H.
  assert (Hin : chosen = client /\ In case (case_set (db st) chosen)).
  { remember (case_set (db st) chosen) as case_qs eqn:Hset.
    destruct case_qs as [| c0 rest]; [discriminate |].
    destruct (match incident_date with
              | Some day => hd_error (filter (has_date day) (c0 :: rest))
              | None => None
              end) as [c |] eqn:Hdate.
    - simpl in H. injection H as _ <- <-.
      destruct incident_date as [day |]; [| discriminate Hdate].
      apply hd_filter_some in Hdate. tauto.
    - destruct (if_set incident_type) as [ty |]; [| discriminate H].
      destruct (if_set incident_location) as [loc |]; [| discriminate H].
      destruct (hd_error (filter (type_loc ty (location_anchor loc)) (c0 :: rest)))
        as [c |] eqn:Hloc; [| discriminate H].
      simpl in H. injection H as _ <- <-.
      apply hd_filter_some in Hloc. tauto. }
  destruct Hin as [-> Hcase]. apply case_set_in in Hcase. destruct Hcase as [Hin Hc].
  unfold case_links. apply in_map_iff. exists case. rewrite Hc. auto.
Qed.

End MatcherSound.

(** ** Ingest: the case of the communication *)

Section IngestCase.

Variable env : environment.

(** [persist] changes no primary key and no client of a stored case. *)
Lemma persist_case_links (case : Case.t) (result : IntakeExtractionResult)
    (communication : option ClientCommunication.t) :
  framed case_links (fun _ => True) (persist env case result communication).
Proof.
  unfold persist. apply framed_bind; [| intros; framed_auto].
  intros st _.
  unfold update_case_fields, save_case, bind, get_db, put_db, ret.
  destruct (incident_date result), (Case.incident_date case),
    (if_set (incident_type result)); cbv beta iota zeta;
    try destruct (Py.truthy (Case.incident_type _)); cbn [negb app fst];
    try reflexivity;
    unfold case_links; cbn [db intake_case set_intake_case];
    rewrite map_map; apply map_ext; intros r;
    match goal with
    | |- context [if ?b then _ else _] => destruct b
    end; reflexivity.
Qed.

(** Runs the first step of the computation in hypothesis [H], given that it
    leaves the links of the cases alone. *)
Ltac linked_step H st1 Hp :=
  match type of H with
  | context [bind ?m ?k ?st] =>
      let Hm := fresh "Hm" in
      let Hk := fresh "Hk" in
      let a := fresh "a" in
      let e := fresh "e" in
      let Hrun := fresh "Hrun" in
      assert (Hm : framed case_links (fun _ => True) m)
        by first [ apply persist_case_links | framed_auto ];
      destruct (@framed_bind_cases _ case_links (fun _ => True) _ _ m k st Hm I)
        as [[st1 [a [Hp [Hrun Hk]]]] | [st1 [e [Hp Hk]]]];
      rewrite Hk in H; clear Hk Hm; [clear Hrun; cbv beta in H | discriminate H]
  end.

(** X29. The communication an [ingest] returns is linked to a stored case,
    and that case belongs to the client of the communication, whether the
    case was matched or created. *)
Theorem ingest_links_case_of_client (turns : turns_obj) (law_firm_id : option nat)
    (st st' : state) (communication : ClientCommunication.t)
    (result : IntakeExtractionResult) (matched : bool) :
  ingest env turns law_firm_id st = (st', Return (communication, result, matched)) ->
  exists case,
    In case (intake_case (db st'))
    /\ ClientCommunication.case communication = Some (Case.id case)
    /\ Case.client case = ClientCommunication.client communication.
Proof.
  intros H. unfold ingest in H.
  step_in H case_links st1 found Hl1 Hcall. clear Hcall.
  step_in H case_links st2 law_firm Hl2 Hfirm. clear Hfirm.
  step_in H case_links st3 info Hl3 Hinfo. clear Hinfo.
  step_in H case_links st4 existing Hl4 Hexisting.
  unfold bind at 1 in H.
  match type of H with
  | context [match ?block st4 with _ => _ end] =>
      destruct (block st4) as [st5 [[[client case] matched'] | e]] eqn:Hblock;
        [| discriminate H]
  end.
  assert (Hlink : In (Case.id case, Client.id client) (case_links st5)).
  { destruct existing as [[cl ca] |].
    - unfold ret in Hblock. injection Hblock as <- <- <- _.
      apply matched_case_of_client in Hexisting. rewrite Hl4. exact Hexisting.
    - clear Hexisting. unfold bind at 1 in Hblock.
      match type of Hblock with
      | context [match objects_get_or_create ?mo ?ta ?se ?lo ?ro st4 with _ => _ end] =>
          destruct (objects_get_or_create mo ta se lo ro st4) as [sa [[cl created] | e]];
            [| discriminate Hblock]
      end.
      cbv beta iota in Hblock.
      unfold bind, uuid4, objects_create, get_db, put_db, ret in Hblock.
      simpl in Hblock. injection Hblock as <- <- <- _.
      unfold case_links. simpl. rewrite map_app. apply in_or_app. right. left.
      reflexivity. }
  clear Hblock Hexisting. cbv beta iota in H.
  step_in H case_links st6 comm Hl6 Hcomm. apply objects_create_row in Hcomm.
  do 6 step_anon H case_links.
  linked_step H st13 Hl13.
  step_anon H case_links.
  unfold ret in H. injection H as <- <- _ _.
  match goal with
  | |- exists c, In c (intake_case (db ?s)) /\ _ =>
      assert (Hall : case_links s = case_links st5) by congruence
  end.
  rewrite <- Hall in Hlink. unfold case_links in Hlink. apply in_map_iff in Hlink.
  destruct Hlink as [c [Hc Hin]]. injection Hc as Hid Hclient.
  exists c. split; [exact Hin |]. rewrite Hcomm. simpl. rewrite Hid, Hclient.
  split; reflexivity.
Qed.

End IngestCase.

(** ** The flags of a pipeline run *)

Section PipelineFlags.

Variable env : environment.

(** The flags depend on the cache of the service and on four fields of the
    result. *)
Lemma flag_risks_ext (s s' : state) (r r' : IntakeExtractionResult) :
  _findings_cache s = _findings_cache s' ->
  incident_date r = incident_date r' -> incident_type r = incident_type r' ->
  insurance_carriers r = insurance_carriers r' -> other_parties r = other_parties r' ->
  _flag_risks env s r = _flag_risks env s' r'.
Proof.
  intros Hc Hd Ht Hi Hp. unfold _flag_risks. rewrite Hc, Hd, Ht, Hi, Hp. reflexivity.
Qed.

(** Runs the first step of the computation in hypothesis [H]; a raise
    contradicts [H]. *)
Ltac peel H :=
  match type of H with
  | context [bind ?m ?k ?st] =>
      let s := fresh "s" in
      let a := fresh "a" in
      let e := fresh "e" in
      unfold bind at 1 in H;
      destruct (m st) as [s [a | e]]; [cbv beta iota in H | discriminate H]
  end.

(** X30. The risk flags in the result of a pipeline run are the flags of
    that very result: for [parse] and for [ingest], the flags returned are
    what [_flag_risks] gives for the returned result and the cache the run
    leaves. *)
Theorem pipeline_flags_its_result :
  (forall communication st st' result,
      parse env communication st = (st', Return result) ->
      raw_flags result = _flag_risks env st' result)
  /\ (forall turns law_firm_id st st' communication result matched,
        ingest env turns law_firm_id st = (st', Return (communication, result, matched)) ->
        raw_flags result = _flag_risks env st' result).
Proof.
  split.
  - intros communication st st' result H. unfold parse in H.
    do 6 peel H.
    unfold bind at 1 in H. unfold flag at 1 in H. unfold bind at 1 in H.
    unfold get_state at 1 in H. unfold ret at 1 in H. cbv beta iota in H.
    step_in H _findings_cache s6 saved Hc Hsave. clear Hsave.
    unfold ret in H. injection H as <- <-. cbn [raw_flags].
    apply flag_risks_ext; auto.
  - intros turns law_firm_id st st' communication result matched H. unfold ingest in H.
    do 5 peel H.
    match type of H with
    | context [let (_, _) := ?x in _] => destruct x as [[client case] matched']
    end.
    do 6 peel H.
    unfold bind at 1 in H. unfold flag at 1 in H. unfold bind at 1 in H.
    unfold get_state at 1 in H. unfold ret at 1 in H. cbv beta iota in H.
    step_in H _findings_cache s11 persisted Hc1 Hpersist. clear Hpersist.
    step_in H _findings_cache s12 saved Hc2 Hsave. clear Hsave.
    unfold ret in H. injection H as <- _ <- _. cbn [raw_flags].
    apply flag_risks_ext; auto. congruence.
Qed.

End PipelineFlags.

(** ** Inputs of the properties above *)

(** The inputs of X7: the parties of the sample call. *)
Lemma extracted_party_shape_witness :
  party_role Sample.bob = "at-fault party"
  /\ _cited_text (party_citation Sample.bob) <> ""
  /\ ((party_company_name Sample.bob <> "" /\ party_first_name Sample.bob = ""
       /\ party_last_name Sample.bob = "")
      \/ (party_company_name Sample.bob = "" /\ party_last_name Sample.bob <> ""
          /\ Py.contains " " (party_first_name Sample.bob) = false)).
Proof.
  apply (@extracted_party_shape Sample.env Scenario.turns (Scenario.with_db empty_database)
           (fst (_extract_parties Sample.env Scenario.turns (Scenario.with_db empty_database)))
           [Sample.acme; Sample.bob]).
  - vm_compute. reflexivity.
  - right. left. reflexivity.
Defined.

(** The inputs of X8: the providers of the sample call. *)
Lemma extracted_provider_shape_witness :
  med_specialty Sample.wong = "" /\ med_treatment_type Sample.wong = ""
  /\ med_diagnosis Sample.wong = ""
  /\ _cited_text (med_citation Sample.wong) <> ""
  /\ ((med_facility_name Sample.wong <> "" /\ med_first_name Sample.wong = ""
       /\ med_last_name Sample.wong = "")
      \/ (med_facility_name Sample.wong = "" /\ med_last_name Sample.wong <> ""
          /\ Py.contains " " (med_first_name Sample.wong) = false)).
Proof.
  apply (@extracted_provider_shape Sample.env Scenario.turns
           (Scenario.with_db empty_database)
           (fst (_extract_medical Sample.env Scenario.turns (Scenario.with_db empty_database)))
           [Sample.mercy; Sample.wong]).
  - vm_compute. reflexivity.
  - right. left. reflexivity.
Defined.

(** The inputs of X11: a pass that creates one other party and one damage. *)
Lemma one_citation_per_created_fact_witness :
  length (citations (fst (persist Sample.env Scenario.located_case
                            Scenario.party_and_damage (Some Scenario.pending)
                            (Scenario.with_db Scenario.one_pending))))
    + cited_rows (Scenario.with_db Scenario.one_pending)
  = length (citations (Scenario.with_db Scenario.one_pending))
    + cited_rows (fst (persist Sample.env Scenario.located_case
                         Scenario.party_and_damage (Some Scenario.pending)
                         (Scenario.with_db Scenario.one_pending)))
  /\ length (references (fst (persist Sample.env Scenario.located_case
                                Scenario.party_and_damage (Some Scenario.pending)
                                (Scenario.with_db Scenario.one_pending))))
     + referenced_rows (Scenario.with_db Scenario.one_pending)
     = length (references (Scenario.with_db Scenario.one_pending))
       + referenced_rows (fst (persist Sample.env Scenario.located_case
                                 Scenario.party_and_damage (Some Scenario.pending)
                                 (Scenario.with_db Scenario.one_pending))).
Proof.
  exact (@one_citation_per_created_fact Sample.env (fun _ => eq_refl) (fun _ => eq_refl)
           Scenario.located_case Scenario.pending Scenario.party_and_damage
           (Scenario.with_db Scenario.one_pending)).
Defined.

(** The inputs of X12: the metadata of the sample call, which holds a
    caller name and a case type. *)
Lemma metadata_citations_written_witness :
  snd (_write_metadata_citations Sample.env Scenario.pending Sample.meta Scenario.jane
         (Scenario.with_db Scenario.one_pending)) = Return tt.
Proof.
  exact (proj1 (@metadata_citations_written Sample.env (fun _ => eq_refl) (fun _ => eq_refl)
                  Scenario.pending Sample.meta Scenario.jane
                  (Scenario.with_db Scenario.one_pending))).
Defined.

(** The inputs of X13: the pass of X11, run once more without a
    communication. *)
Lemma persist_again_adds_nothing_witness :
  facts (fst (persist Sample.env Scenario.located_case Scenario.party_and_damage None
                (fst (persist Sample.env Scenario.located_case Scenario.party_and_damage
                        (Some Scenario.pending) (Scenario.with_db Scenario.one_pending)))))
  = facts (fst (persist Sample.env Scenario.located_case Scenario.party_and_damage
                  (Some Scenario.pending) (Scenario.with_db Scenario.one_pending))).
Proof.
  refine (@persist_again_adds_nothing Sample.env Scenario.located_case Scenario.located_case
            Scenario.party_and_damage (Some Scenario.pending) None
            (Scenario.with_db Scenario.one_pending)
            (fst (persist Sample.env Scenario.located_case Scenario.party_and_damage
                    (Some Scenario.pending) (Scenario.with_db Scenario.one_pending)))
            eq_refl _).
  vm_compute. reflexivity.
Defined.

(** The inputs of X14: two companies named in one call. *)
Lemma later_entity_of_same_key_dropped_witness :
  fst (persist_party Sample.env Scenario.located_case (Some Scenario.pending) Sample.zenith
         (fst (persist_party Sample.env Scenario.located_case (Some Scenario.pending)
                 Sample.acme (Scenario.with_db Scenario.one_pending))))
  = fst (persist_party Sample.env Scenario.located_case (Some Scenario.pending)
           Sample.acme (Scenario.with_db Scenario.one_pending)).
Proof.
  refine (proj1 (@later_entity_of_same_key_dropped Sample.env Scenario.located_case
                   (Some Scenario.pending) (Some Scenario.pending))
            Sample.acme Sample.zenith (Scenario.with_db Scenario.one_pending)
            (fst (persist_party Sample.env Scenario.located_case (Some Scenario.pending)
                    Sample.acme (Scenario.with_db Scenario.one_pending)))
            eq_refl eq_refl _).
  vm_compute. reflexivity.
Defined.

(** The inputs of X15: a second facility, named in a call about another
    case. *)
Lemma provider_of_same_name_reused_witness :
  intake_medicalprovider
    (db (fst (persist_medical Sample.env Scenario.dated_case (Some Scenario.pending)
                Sample.clinic (Scenario.with_db Sample.with_provider))))
  = intake_medicalprovider (db (Scenario.with_db Sample.with_provider)).
Proof.
  exact (proj1 (@provider_of_same_name_reused Sample.env Scenario.dated_case
                  (Some Scenario.pending) Sample.clinic
                  (Scenario.with_db Sample.with_provider) Sample.facility_provider
                  (or_introl eq_refl) eq_refl eq_refl)).
Defined.

(** The inputs of X18: a first call into an empty storage. *)
Lemma ingest_stores_communication_witness :
  exists communication,
    In communication
       (comms (fst (ingest Sample.env Scenario.turns None (Scenario.with_db empty_database))))
    /\ ClientCommunication.parse_status communication = "done"
    /\ ClientCommunication.raw_transcript communication = Scenario.turns.
Proof.
  destruct (ingest Sample.env Scenario.turns None (Scenario.with_db empty_database))
    as [st' [[[communication result] matched] | e]] eqn:Hrun;
    [| vm_compute in Hrun; discriminate Hrun].
  destruct (@ingest_stores_communication Sample.env Scenario.turns None
              (Scenario.with_db empty_database) st' communication result matched Hrun)
    as [Hdone [_ [Hturns [_ [Hcomms _]]]]].
  exists communication. simpl. rewrite Hcomms.
  split; [apply in_or_app; right; left; reflexivity | auto].
Defined.

(** The inputs of X19: a communication without turns, parsed where no key
    is configured. *)
Lemma parse_empty_transcript_witness :
  snd (parse Scenario.unconfigured Sample.silent (Scenario.with_db Scenario.one_pending))
  = Return empty_result.
Proof.
  exact (proj1 (@parse_empty_transcript Scenario.unconfigured Sample.silent
                  (Scenario.with_db Scenario.one_pending) eq_refl eq_refl)).
Defined.

(** The inputs of X20: an empty transcript, ingested where no key is
    configured. *)
Lemma ingest_empty_transcript_witness :
  llm_calls (fst (ingest Scenario.unconfigured Sample.no_turns None
                    (Scenario.with_db empty_database)))
  = llm_calls (Scenario.with_db empty_database).
Proof.
  exact (proj1 (@ingest_empty_transcript Scenario.unconfigured Sample.no_turns None
                  (Scenario.with_db empty_database) eq_refl eq_refl)).
Defined.

(** The inputs of X21: the sample call with two entries to drop. *)
Lemma call_llm_keeps_valued_findings_witness :
  exists found,
    snd (_call_llm (Scenario.replying (JSON (Object (AList Sample.noisy)))) Scenario.turns
           (Scenario.with_db empty_database)) = Return found
    /\ cache_lookup (fst (_call_llm (Scenario.replying (JSON (Object (AList Sample.noisy))))
                            Scenario.turns (Scenario.with_db empty_database)))
         Scenario.turns = Some found
    /\ forall f, In f found <-> In (Dict f) Sample.noisy /\ exists s, value f = Str s.
Proof.
  apply (@call_llm_keeps_valued_findings
           (Scenario.replying (JSON (Object (AList Sample.noisy)))) Scenario.turns
           (Scenario.with_db empty_database) Sample.noisy).
  - reflexivity.
  - discriminate.
  - exists "sk-test". split; [reflexivity | discriminate].
  - reflexivity.
Defined.



(** The inputs of X25: a report whose score is the string 185, which is
    replaced by the integer 100. *)
Lemma analyze_case_report_witness :
  exists members,
    Analyzer.JObject
      (Analyzer.dict_set (Analysed.report_with (Analyzer.JStr "185")) "case_viability"
         (Analyzer.JObject [("recommendation", Analyzer.JStr "yes");
                            ("viability_score", Analyzer.JInt 100)]))
    = Analyzer.JObject members
    /\ forall k, In k Analyzer.required -> dict_get members k <> None.
Proof.
  destruct (@analyze_case_report
              (Analysed.replying
                 (Analyzer.JSON (Analyzer.JObject
                    (Analysed.report_with (Analyzer.JStr "185")))))
              4 Analysed.fresh
              (fst (Analyzer.analyze_case
                      (Analysed.replying
                         (Analyzer.JSON (Analyzer.JObject
                            (Analysed.report_with (Analyzer.JStr "185")))))
                      4 Analysed.fresh))
              (Analyzer.JObject
                 (Analyzer.dict_set (Analysed.report_with (Analyzer.JStr "185"))
                    "case_viability"
                    (Analyzer.JObject [("recommendation", Analyzer.JStr "yes");
                                       ("viability_score", Analyzer.JInt 100)])))
              eq_refl)
    as [message [sent_members [viability [members [_ [_ [_ [Hreport [Hall _]]]]]]]]].
  exists members. split; [exact Hreport | exact Hall].
Defined.

(** The same report with the integer 185 for a score comes back as it is. *)
Example integer_score_is_passed_on :
  snd (Analyzer.analyze_case
         (Analysed.replying
            (Analyzer.JSON (Analyzer.JObject (Analysed.report_with (Analyzer.JInt 185)))))
         4 Analysed.fresh)
  = Analyzer.Return (Analyzer.JObject (Analysed.report_with (Analyzer.JInt 185))).
Proof. reflexivity. Qed.

(** The inputs of X29: a first call into an empty storage. *)
Lemma ingest_links_case_of_client_witness :
  exists communication case,
    In communication
       (comms (fst (ingest Sample.env Scenario.turns None (Scenario.with_db empty_database))))
    /\ In case (intake_case (db (fst (ingest Sample.env Scenario.turns None
                                        (Scenario.with_db empty_database)))))
    /\ ClientCommunication.case communication = Some (Case.id case)
    /\ Case.client case = ClientCommunication.client communication.
Proof.
  destruct (ingest Sample.env Scenario.turns None (Scenario.with_db empty_database))
    as [st' [[[communication result] matched] | e]] eqn:Hrun;
    [| vm_compute in Hrun; discriminate Hrun].
  destruct (@ingest_links_case_of_client Sample.env Scenario.turns None
              (Scenario.with_db empty_database) st' communication result matched Hrun)
    as [case [Hin [Hcase Hclient]]].
  exists communication, case. simpl.
  split; [| split; [exact Hin | split; assumption]].
  vm_compute in Hrun. injection Hrun as <- <- _ _. vm_compute. left. reflexivity.
Defined.
